(** * CCAM price analysis: a shallow embedding of the reporting pipeline

    The development follows the Python sources:
    - [extract_and_convert.py]: [convert_dbf_to_df];
    - [ccam_price_evolution.py]: class [CCAMPriceEvolutionAnalyzer]
      ([merge_tables], [apply_filters], [get_menu_hierarchy_path],
      [analyze_price_evolution_for_menu], [export_menu_to_excel]);
    - [analyze_pu_base.py]: class [PUBaseAnalyzer]
      ([load_data], [run_full_analysis]).

    Conventions.  A dataframe is the list of its rows, in index order; a row
    is a record holding the columns the code reads.  Numeric codes are [Z].
    Prices are IEEE binary64 numbers (Python [float], numpy [float64]),
    modelled by Rocq's primitive floats.  A cell that pandas may leave
    missing (NaN, NaT, None) has an [option] type.  An exception raised by
    the Python code is a [Raise] outcome.  The sort of pandas is a parameter
    of the analysis, since its default algorithm does not fix the order of
    rows of equal date. *)

From Stdlib Require Import ZArith List String Ascii Bool Lia Floats.
From Stdlib Require Import Permutation Sorted DecimalString.
From Stdlib Require DecimalZ DecimalPos.
Import ListNotations.

Local Open Scope string_scope.
Local Open Scope Z_scope.

(** ** Outcomes: a value, or a Python exception *)

Inductive exn : Type :=
| IndexError (msg : string)
| FileNotFoundError (msg : string)
| TypeError (msg : string).

Inductive outcome (A : Type) : Type :=
| Ok (a : A)
| Raise (e : exn).

Arguments Ok {A} a.
Arguments Raise {A} e.

Definition bind {A B : Type} (m : outcome A) (k : A -> outcome B) : outcome B :=
  match m with
  | Ok a => k a
  | Raise e => Raise e
  end.

Notation "x <- m ;; k" := (bind m (fun x => k))
  (at level 61, m at next level, right associativity).

(** [iloc0 df]: [df.iloc[0]], which raises [IndexError] on an empty frame. *)
Definition iloc0 {A : Type} (df : list A) : outcome A :=
  match df with
  | [] => Raise (IndexError "single positional indexer is out-of-bounds")
  | r :: _ => Ok r
  end.

(** [df.empty] for a frame that has its columns. *)
Definition empty {A : Type} (df : list A) : bool :=
  match df with
  | [] => true
  | _ :: _ => false
  end.

(** ** The source tables

    Only the columns that the pipeline names are kept.  The key of a table
    [R_X] is [cod_x]; a column [x_cod] refers to it. *)

Module RActe.
Record row : Type := mk
  { cod_acte : string; nom_court : string; nom_long : string; menu_cod : Z }.
End RActe.

Module RActeIvite.
Record row : Type := mk
  { cod_aa : Z; acte_cod : string; activ_cod : Z }.
End RActeIvite.

Module RActeIvitePhase.
Record row : Type := mk
  { cod_aap : Z; aa_cod : Z; phase_cod : Z }.
End RActeIvitePhase.

(** [apdt_modif] is the modification date as a day number; [None] is a
    missing date, which [pd.to_datetime(..., errors='coerce')] turns into
    [NaT]. *)
Module RPuBase.
Record row : Type := mk
  { aap_cod : Z; grille_cod : Z; pu_base : float; apdt_modif : option Z }.
End RPuBase.

(** [cod_pere] is [None] when the parent cell is missing. *)
Module RMenu.
Record row : Type := mk
  { cod_menu : Z; libelle : string; cod_pere : option Z }.
End RMenu.

Module RActivite.
Record row : Type := mk
  { cod_activ : Z; libelle : string }.
End RActivite.

(** [R_TB23], the table of pricing grids. *)
Module RGrille.
Record row : Type := mk
  { cod_grille : Z; libelle : string }.
End RGrille.

(** ** The joined relation [df_merged]

    The columns brought by a left join are optional: pandas fills them with
    a missing marker when the left row has no partner. *)

Record merged_row : Type := mk_merged
  { cod_acte : string;
    nom_court : string;
    nom_long : string;
    menu_cod : Z;
    activ_cod : Z;
    phase_cod : Z;
    grille_cod : Z;
    pu_base : float;
    apdt_modif : option Z;
    menu_libelle : option string;
    cod_pere : option Z;
    activite_libelle : option string;
    grille_libelle : option string }.

(** ** Joins, as [pd.merge] performs them

    Both joins keep the order of the left rows; a left row is paired with
    each right row of equal key, in the order of the right table. *)

Section Joins.
Context {L R : Type}.
Variable on : L -> R -> bool.

Definition partners (right : list R) (l : L) : list R :=
  filter (on l) right.

(** [pd.merge(left, right, how='inner')] *)
Definition inner_join (left : list L) (right : list R) : list (L * R) :=
  flat_map (fun l => map (pair l) (partners right l)) left.

(** The rows that one left row gives in a left join: one per partner, or
    one with the right side missing. *)
Definition joined (right : list R) (l : L) : list (L * option R) :=
  match partners right l with
  | [] => [(l, None)]
  | rs => map (fun r => (l, Some r)) rs
  end.

(** [pd.merge(left, right, how='left')] *)
Definition left_join (left : list L) (right : list R) : list (L * option R) :=
  flat_map (joined right) left.
End Joins.

(** ** The analyzer object *)

Record analyzer : Type := mk_analyzer
  { df_acte : list RActe.row;
    df_acte_ivite : list RActeIvite.row;
    df_acte_ivite_phase : list RActeIvitePhase.row;
    df_pu_base : list RPuBase.row;
    df_menu : list RMenu.row;
    df_activite : list RActivite.row;
    df_grille : list RGrille.row;
    df_merged : list merged_row }.

Definition set_df_merged (self : analyzer) (df : list merged_row) : analyzer :=
  mk_analyzer (df_acte self) (df_acte_ivite self) (df_acte_ivite_phase self)
    (df_pu_base self) (df_menu self) (df_activite self) (df_grille self) df.

(** [__init__]: the filtering criteria. *)
Definition grilles_filter : list Z := [3; 4; 5; 7; 17; 18].
Definition activites_filter : list Z := [1; 2; 3; 4].
Definition phase_filter : Z := 0.

(** *** [merge_tables] *)

(** The frame after the three inner joins (steps 1 to 3). *)
Definition base_row : Type :=
  ((RActeIvite.row * RActe.row) * RActeIvitePhase.row) * RPuBase.row.

Definition b_ivite (b : base_row) : RActeIvite.row := fst (fst (fst b)).
Definition b_acte (b : base_row) : RActe.row := snd (fst (fst b)).
Definition b_phase (b : base_row) : RActeIvitePhase.row := snd (fst b).
Definition b_pu (b : base_row) : RPuBase.row := snd b.

Definition merge_inner (self : analyzer) : list base_row :=
  let df_temp :=
    inner_join (fun l r => String.eqb (RActeIvite.acte_cod l) (RActe.cod_acte r))
      (df_acte_ivite self) (df_acte self) in
  let df_temp :=
    inner_join (fun l r => RActeIvite.cod_aa (fst l) =? RActeIvitePhase.aa_cod r)
      df_temp (df_acte_ivite_phase self) in
  inner_join (fun l r => RActeIvitePhase.cod_aap (snd l) =? RPuBase.aap_cod r)
    df_temp (df_pu_base self).

(** Step 4: the left join with [df_menu[['cod_menu', 'libelle', 'cod_pere']]]. *)
Definition merge_menu (df_temp : list base_row) (menu : list RMenu.row)
  : list (base_row * option RMenu.row) :=
  left_join (fun l r => RActe.menu_cod (b_acte l) =? RMenu.cod_menu r) df_temp menu.

(** Step 5: the left join with [df_activite]. *)
Definition merge_activite (df_temp : list (base_row * option RMenu.row))
    (activite : list RActivite.row)
  : list ((base_row * option RMenu.row) * option RActivite.row) :=
  left_join
    (fun l r => RActeIvite.activ_cod (b_ivite (fst l)) =? RActivite.cod_activ r)
    df_temp activite.

(** Step 6: the left join with [df_grille[['cod_grille', 'libelle']]]. *)
Definition merge_grille
    (df_temp : list ((base_row * option RMenu.row) * option RActivite.row))
    (grille : list RGrille.row)
  : list (((base_row * option RMenu.row) * option RActivite.row) * option RGrille.row) :=
  left_join
    (fun l r => RPuBase.grille_cod (b_pu (fst (fst l))) =? RGrille.cod_grille r)
    df_temp grille.

(** The columns of a fully joined row, with the three [rename] calls. *)
Definition columns
    (x : ((base_row * option RMenu.row) * option RActivite.row) * option RGrille.row)
  : merged_row :=
  let b := fst (fst (fst x)) in
  let m := snd (fst (fst x)) in
  let a := snd (fst x) in
  let g := snd x in
  {| cod_acte := RActe.cod_acte (b_acte b);
     nom_court := RActe.nom_court (b_acte b);
     nom_long := RActe.nom_long (b_acte b);
     menu_cod := RActe.menu_cod (b_acte b);
     activ_cod := RActeIvite.activ_cod (b_ivite b);
     phase_cod := RActeIvitePhase.phase_cod (b_phase b);
     grille_cod := RPuBase.grille_cod (b_pu b);
     pu_base := RPuBase.pu_base (b_pu b);
     apdt_modif := RPuBase.apdt_modif (b_pu b);
     menu_libelle := option_map RMenu.libelle m;
     cod_pere := match m with Some r => RMenu.cod_pere r | None => None end;
     activite_libelle := option_map RActivite.libelle a;
     grille_libelle := option_map RGrille.libelle g |}.

Definition merge_tables (self : analyzer) : analyzer :=
  let df_temp := merge_inner self in
  let df_temp := merge_menu df_temp (df_menu self) in
  let df_temp := merge_activite df_temp (df_activite self) in
  let df_temp := merge_grille df_temp (df_grille self) in
  set_df_merged self (map columns df_temp).

(** *** [apply_filters] *)

(** [Series.isin] on an integer column. *)
Definition isin (x : Z) (values : list Z) : bool :=
  existsb (Z.eqb x) values.

(** The three selections of the method, in its order: lines 168, 173, 178. *)
Definition filter_grilles (df : list merged_row) : list merged_row :=
  filter (fun r => isin (grille_cod r) grilles_filter) df.

Definition filter_activites (df : list merged_row) : list merged_row :=
  filter (fun r => isin (activ_cod r) activites_filter) df.

Definition filter_phase (df : list merged_row) : list merged_row :=
  filter (fun r => phase_cod r =? phase_filter) df.

Definition apply_filters (self : analyzer) : analyzer :=
  let self := set_df_merged self (filter_grilles (df_merged self)) in
  let self := set_df_merged self (filter_activites (df_merged self)) in
  set_df_merged self (filter_phase (df_merged self)).

(** *** [get_menu_hierarchy_path] *)

(** How an f-string renders an integer. *)
Definition str (z : Z) : string := NilZero.string_of_int (Z.to_int z).

(** The column [cod_pere] of the menu table holds a missing value.  pandas
    then stores the column as float64, with NaN for the missing cells. *)
Definition missing_parent (menu : list RMenu.row) : bool :=
  existsb
    (fun r => match RMenu.cod_pere r with None => true | Some _ => false end)
    menu.

(** How line 192 writes [current].  The argument of the method is an
    integer.  A code read from [cod_pere] at line 193 is an integer when the
    column is int64, and a float when the column is float64: Python writes
    the float with its fractional part, [1.0] for the code 1.  The codes are
    taken within the integers that a float64 holds exactly (up to 2^53),
    which Python writes without an exponent. *)
Definition render (menu : list RMenu.row) (read : bool) (c : Z) : string :=
  if read && missing_parent menu then (str c ++ ".0")%string else str c.

(** The [while] loop.  It need not end, so the model counts the tests of the
    loop condition that are still allowed: [None] means that [fuel] tests were
    not enough.  [current] is [None] when the parent read from the table is
    missing; [read] tells whether [current] was read from the table or is
    the argument of the method. *)
Fixpoint hierarchy_loop (fuel : nat) (menu : list RMenu.row) (read : bool)
    (path : list string) (current : option Z) : option (list string) :=
  match fuel with
  | O => None
  | S fuel =>
      match current with
      | None => Some path
      | Some c =>
          if c =? 0 then Some path
          else
            let menu_row := filter (fun r => RMenu.cod_menu r =? c) menu in
            match menu_row with
            | r :: _ =>
                hierarchy_loop fuel menu true
                  ((render menu read c ++ "_" ++ RMenu.libelle r)%string :: path)
                  (RMenu.cod_pere r)
            | [] => Some path
            end
      end
  end.

Definition join_path (path : list string) : string :=
  if empty path then "SANS_MENU" else String.concat " > " path.

Definition get_menu_hierarchy_path (fuel : nat) (self : analyzer) (menu_cod : Z)
  : option string :=
  option_map join_path
    (hierarchy_loop fuel (df_menu self) false [] (Some menu_cod)).

(** *** [analyze_price_evolution_for_menu] *)

(** A row of the frame that the analysis returns. *)
Module Evo.
Record t : Type := mk
  { cod_acte : string;
    nom_court : string;
    nom_long : string;
    activite : Z;
    activite_libelle : option string;
    grille_cod : Z;
    grille_libelle : option string;
    date_premiere_modif : option Z;
    prix_initial : float;
    date_derniere_modif : option Z;
    prix_actuel : float;
    evolution_euros : float;
    evolution_pct : float;
    nb_modifications : nat }.
End Evo.

(** [Series.unique]: the distinct values, in order of first appearance. *)
Fixpoint unique (l : list string) : list string :=
  match l with
  | [] => []
  | x :: l => x :: filter (fun y => negb (String.eqb y x)) (unique l)
  end.

(** The order of [sort_values('apdt_modif')]: ascending, [NaT] last. *)
Definition date_le (a b : option Z) : bool :=
  match a, b with
  | Some x, Some y => x <=? y
  | _, None => true
  | None, Some _ => false
  end.

(** One sort of that order, by insertion; it keeps rows of equal date in
    the order of the frame.  It serves in the examples. *)
Fixpoint insert_row (r : merged_row) (l : list merged_row) : list merged_row :=
  match l with
  | [] => [r]
  | x :: l' =>
      if date_le (apdt_modif r) (apdt_modif x) then r :: l else x :: insert_row r l'
  end.

Definition insertion_sort (df : list merged_row) : list merged_row :=
  fold_right insert_row [] df.

(** [df.iloc[-1]] *)
Fixpoint iloc_last {A : Type} (df : list A) : outcome A :=
  match df with
  | [] => Raise (IndexError "single positional indexer is out-of-bounds")
  | [r] => Ok r
  | _ :: df => iloc_last df
  end.

(** The percentage of line 257; the test [first != 0] is false for both
    zeros and true for NaN. *)
Definition pct (first last : float) : float :=
  if negb (PrimFloat.eqb first 0) then ((last - first) / first * 100)%float
  else 0%float.

(** The label of line 251: the one of [acte_info] when it is a row of this
    grid, else the one of the first row of [df_grille] for the grid. *)
Definition libelle_of_grille (self : analyzer) (acte_info : merged_row) (grille : Z)
  : outcome (option string) :=
  if grille =? grille_cod acte_info then Ok (grille_libelle acte_info)
  else
    g <- iloc0 (filter (fun g => RGrille.cod_grille g =? grille) (df_grille self)) ;;
    Ok (Some (RGrille.libelle g)).

(** Lines 244 to 259: the dictionary [result]. *)
Definition record_of (acte : string) (acte_info : merged_row) (grille : Z)
    (libelle : option string) (first last : merged_row) (nb : nat) : Evo.t :=
  {| Evo.cod_acte := acte;
     Evo.nom_court := nom_court acte_info;
     Evo.nom_long := nom_long acte_info;
     Evo.activite := activ_cod acte_info;
     Evo.activite_libelle := activite_libelle acte_info;
     Evo.grille_cod := grille;
     Evo.grille_libelle := libelle;
     Evo.date_premiere_modif := apdt_modif first;
     Evo.prix_initial := pu_base first;
     Evo.date_derniere_modif := apdt_modif last;
     Evo.prix_actuel := pu_base last;
     Evo.evolution_euros := (pu_base last - pu_base first)%float;
     Evo.evolution_pct := pct (pu_base first) (pu_base last);
     Evo.nb_modifications := nb |}.

(** *** [export_menu_to_excel]: the name of the workbook *)

Definition is_ascii (c : ascii) : bool := (N_of_ascii c <? 128)%N.

(** [str.isalnum] on an ASCII character: a digit or a letter. *)
Definition ascii_isalnum (c : ascii) : bool :=
  let n := N_of_ascii c in
  ((48 <=? n) && (n <=? 57) || (65 <=? n) && (n <=? 90) || (97 <=? n) && (n <=? 122))%N.

(** [s[:n]] *)
Fixpoint slice_to (n : nat) (s : string) : string :=
  match n, s with
  | S n, String c s => String c (slice_to n s)
  | _, _ => EmptyString
  end.

Section ExportMenu.
(** A character above 127 stands for a character outside ASCII; whether
    it is alphanumeric is a fact of the Unicode tables of Python. *)
Variable isalnum_ext : ascii -> bool.

Definition isalnum (c : ascii) : bool :=
  if is_ascii c then ascii_isalnum c else isalnum_ext c.

(** [c.isalnum() or c in (' ', '-', '_')] *)
Definition allowed (c : ascii) : bool :=
  isalnum c || Ascii.eqb c " " || Ascii.eqb c "-" || Ascii.eqb c "_".

(** Line 276. *)
Fixpoint sanitize (s : string) : string :=
  match s with
  | EmptyString => EmptyString
  | String c s => String (if allowed c then c else "_"%char) (sanitize s)
  end.

(** Lines 270 to 277. *)
Definition menu_name (self : analyzer) (menu_cod : Z) : string :=
  let menu_info := filter (fun r => RMenu.cod_menu r =? menu_cod) (df_menu self) in
  match menu_info with
  | [] => ("Menu_" ++ str menu_cod)%string
  | r :: _ => slice_to 100 (sanitize (RMenu.libelle r))
  end.

(** Line 279: the name of the file inside [output_dir]. *)
Definition filename (self : analyzer) (menu_cod : Z) : string :=
  (str menu_cod ++ "_" ++ menu_name self menu_cod ++ ".xlsx")%string.

(** The method returns nothing for a missing or empty analysis, else the
    name of the workbook it has written; the three sheets of the workbook
    are not part of this model. *)
Definition export_menu_to_excel (self : analyzer) (menu_cod : Z)
    (df_analysis : option (list Evo.t)) : option string :=
  match df_analysis with
  | None => None
  | Some rows => if empty rows then None else Some (filename self menu_cod)
  end.
End ExportMenu.

(** ** [extract_and_convert.py]: [convert_dbf_to_df] *)

(** What [dbfread] parses a cell into. *)
Inductive value : Type :=
| VInt (z : Z)
| VFloat (f : float)
| VStr (s : string)
| VDate (day : Z)
| VNone.

(** A DBF table: the names of its fields, and its records, each holding the
    parsed cells in the order of the fields. *)
Record DBF : Type := mk_DBF
  { fields : list string;
    records : list (list value) }.

(** An [OrderedDict]: the keys are distinct, in order of insertion. *)
Definition ordered_dict : Type := list (string * value).

Fixpoint od_set (k : string) (v : value) (d : ordered_dict) : ordered_dict :=
  match d with
  | [] => [(k, v)]
  | (k', v') :: d' =>
      if String.eqb k k' then (k, v) :: d' else (k', v') :: od_set k v d'
  end.

Definition OrderedDict (items : list (string * value)) : ordered_dict :=
  fold_left (fun d kv => od_set (fst kv) (snd kv) d) items [].

Fixpoint od_get (k : string) (d : ordered_dict) : option value :=
  match d with
  | [] => None
  | (k', v) :: d' => if String.eqb k k' then Some v else od_get k d'
  end.

(** [iter(dbf)]: one dictionary per record, with an entry per field. *)
Definition record_items (names : list string) (cells : list value)
  : list (string * value) :=
  map (fun i => (nth i names "", nth i cells VNone)) (seq 0 (List.length names)).

Definition iter (dbf : DBF) : list ordered_dict :=
  map (fun cells => OrderedDict (record_items (fields dbf) cells)) (records dbf).

Record DataFrame : Type := mk_DataFrame
  { df_columns : list string;
    df_rows : list (list value) }.

Definition mem (k : string) (l : list string) : bool := existsb (String.eqb k) l.

(** *** The dtype of a column

    [pd.DataFrame] gives each column a dtype.  A column all of whose cells
    are numbers or missing becomes float64 when it holds a float, or an
    integer beside a missing cell: every integer is then replaced by the
    nearest float, and every missing cell by NaN.  Any other column keeps
    its cells: a column of integers is int64, a column with a string or a
    date holds the Python objects as they are.  Integers are taken within
    the range of int64. *)

(** The float nearest to an integer, ties to even: the conversion of C. *)
Definition float_of_int (z : Z) : float :=
  SF2Prim (binary_normalize FloatOps.prec FloatOps.emax z 0 false).

Definition is_int (v : value) : bool :=
  match v with VInt _ => true | _ => false end.

Definition is_float (v : value) : bool :=
  match v with VFloat _ => true | _ => false end.

Definition is_none (v : value) : bool :=
  match v with VNone => true | _ => false end.

(** The column with these cells is stored as float64. *)
Definition float64_column (cells : list value) : bool :=
  forallb (fun v => is_int v || is_float v || is_none v) cells
  && (existsb is_float cells || existsb is_int cells && existsb is_none cells).

Definition as_float64 (v : value) : value :=
  match v with
  | VInt z => VFloat (float_of_int z)
  | VNone => VFloat nan
  | _ => v
  end.

(** What the frame stores for the cell [v] of a column with the cells
    [cells]. *)
Definition stored (cells : list value) (v : value) : value :=
  if float64_column cells then as_float64 v else v.

(** The cell of a dictionary for a column; a key that the dictionary lacks
    gives NaN. *)
Definition cell_of (c : string) (d : ordered_dict) : value :=
  match od_get c d with
  | Some v => v
  | None => VFloat nan
  end.

(** [pd.DataFrame(dicts)]: the columns are the keys in order of first
    appearance; each column is stored with its dtype. *)
Definition DataFrame_of (dicts : list ordered_dict) : DataFrame :=
  let columns :=
    fold_left
      (fun cols d => (cols ++ filter (fun k => negb (mem k cols)) (map fst d))%list)
      dicts [] in
  {| df_columns := columns;
     df_rows :=
       map (fun d =>
              map (fun c => stored (map (cell_of c) dicts) (cell_of c d)) columns)
         dicts |}.

(** [df.empty]: no row or no column. *)
Definition df_empty (df : DataFrame) : bool :=
  empty (df_rows df) || empty (df_columns df).

Section Convert.
(** [str.lower] *)
Variable lower : string -> string.

Definition convert_dbf_to_df (dbf : DBF) : DataFrame :=
  let column_names := map lower (fields dbf) in
  let df := DataFrame_of (iter dbf) in
  if negb (df_empty df) then
    {| df_columns := map lower (df_columns df); df_rows := df_rows df |}
  else {| df_columns := column_names; df_rows := [] |}.
End Convert.

(** ** [analyze_pu_base.py]: class [PUBaseAnalyzer] *)

(** The part of the world that the analyzer touches: the DBF files present
    on disk, the directories created, and the CSV files written so far. *)
Record world : Type := mk_world
  { dbf_files : string -> option DBF;
    directories : list string;
    written : list (string * string) }.

(** A computation changes the world and returns a value or raises; what was
    written before an exception stays written. *)
Definition M (A : Type) : Type := world -> outcome A * world.

Definition ret {A : Type} (a : A) : M A := fun w => (Ok a, w).

Definition raise {A : Type} (e : exn) : M A := fun w => (Raise e, w).

Definition bindM {A B : Type} (m : M A) (k : A -> M B) : M B :=
  fun w =>
    match m w with
    | (Ok a, w') => k a w'
    | (Raise e, w') => (Raise e, w')
    end.

Notation "x <-- m ;; k" := (bindM m (fun x => k))
  (at level 61, m at next level, right associativity).

Definition lift {A : Type} (o : outcome A) : M A := fun w => (o, w).

(** [path.exists()] *)
Definition exists_ (path : string) : M bool :=
  fun w => (Ok (match dbf_files w path with Some _ => true | None => false end), w).

(** [dir.mkdir(exist_ok=True)] *)
Definition mkdir (dir : string) : M unit :=
  fun w => (Ok tt, mk_world (dbf_files w) (dir :: directories w) (written w)).

(** [frame.to_csv(path)] *)
Definition to_csv (path content : string) : M unit :=
  fun w =>
    (Ok tt, mk_world (dbf_files w) (directories w) (written w ++ [(path, content)])).

(** [a / b] on paths. *)
Definition path_join (a b : string) : string := (a ++ "/" ++ b)%string.

Module PUBase.
Record t : Type := mk
  { data_path : string;
    pu_base_path : string;
    df : option DataFrame;
    output_dir : string }.
End PUBase.

Section PUBaseAnalyzer.
Variable lower : string -> string.

(** The statistics are computed by pandas; each is taken as a function of
    the frame that gives the text of the report, or the exception that
    pandas raises on this frame. *)
Variable statistics : DataFrame -> outcome unit.
Variable grille_stats : DataFrame -> outcome string.
Variable top_expensive : nat -> DataFrame -> outcome string.
Variable acte_stats : DataFrame -> outcome (string * string).
Variable modifs_par_an : DataFrame -> outcome (DataFrame * string).
Variable csv_of : DataFrame -> string.

(** [__init__]; [here] is the directory of the script. *)
Definition init (here data_path : string) : M PUBase.t :=
  let self :=
    PUBase.mk data_path (path_join data_path "R_PU_BASE.dbf") None
      (path_join here "output") in
  _ <-- mkdir (PUBase.output_dir self) ;;
  ret self.

(** Reading the table at [path]: [convert_dbf_to_df(path)]. *)
Definition read_dbf (path : string) : M DataFrame :=
  fun w =>
    match dbf_files w path with
    | Some dbf => (Ok (convert_dbf_to_df lower dbf), w)
    | None => (Raise (FileNotFoundError path), w)
    end.

Definition load_data (self : PUBase.t) : M PUBase.t :=
  present <-- exists_ (PUBase.pu_base_path self) ;;
  if negb present then
    raise (FileNotFoundError
             ("Fichier " ++ PUBase.pu_base_path self ++ " introuvable")%string)
  else
    df <-- read_dbf (PUBase.pu_base_path self) ;;
    ret (PUBase.mk (PUBase.data_path self) (PUBase.pu_base_path self) (Some df)
           (PUBase.output_dir self)).

(** [self.df], which is [None] until the data is loaded. *)
Definition frame (self : PUBase.t) : M DataFrame :=
  match PUBase.df self with
  | Some df => ret df
  | None => raise (TypeError "'NoneType' object is not subscriptable")
  end.

Definition print_statistics (self : PUBase.t) : M unit :=
  df <-- frame self ;;
  lift (statistics df).

Definition analyze_by_grille (self : PUBase.t) : M unit :=
  df <-- frame self ;;
  stats <-- lift (grille_stats df) ;;
  to_csv (path_join (PUBase.output_dir self) "analyse_par_grille.csv") stats.

Definition top_actes_by_price (self : PUBase.t) (n : nat) : M unit :=
  df <-- frame self ;;
  top <-- lift (top_expensive n df) ;;
  to_csv
    (path_join (PUBase.output_dir self)
       ("top_" ++ str (Z.of_nat n) ++ "_actes_plus_chers.csv")%string)
    top.

Definition analyze_by_acte (self : PUBase.t) : M unit :=
  df <-- frame self ;;
  stats <-- lift (acte_stats df) ;;
  _ <-- to_csv (path_join (PUBase.output_dir self) "analyse_par_acte.csv")
          (fst stats) ;;
  to_csv (path_join (PUBase.output_dir self) "top_variations_prix.csv") (snd stats).

(** The method also rewrites [self.df]: the dates are converted and the
    column [annee_modif] is added. *)
Definition analyze_temporal (self : PUBase.t) : M PUBase.t :=
  df <-- frame self ;;
  r <-- lift (modifs_par_an df) ;;
  _ <-- to_csv (path_join (PUBase.output_dir self) "analyse_temporelle.csv")
          (snd r) ;;
  ret (PUBase.mk (PUBase.data_path self) (PUBase.pu_base_path self)
         (Some (fst r)) (PUBase.output_dir self)).

Definition export_full_data (self : PUBase.t) : M unit :=
  df <-- frame self ;;
  to_csv (path_join (PUBase.output_dir self) "pu_base_complete.csv") (csv_of df).

Definition run_full_analysis (self : PUBase.t) : M unit :=
  self <-- load_data self ;;
  _ <-- print_statistics self ;;
  _ <-- analyze_by_grille self ;;
  _ <-- top_actes_by_price self 20 ;;
  _ <-- analyze_by_acte self ;;
  self <-- analyze_temporal self ;;
  export_full_data self.

(** [main]; [here] is the directory of the script. *)
Definition main (here : string) : M unit :=
  self <-- init here (path_join (path_join here "data") "ccam_v79.10") ;;
  run_full_analysis self.
End PUBaseAnalyzer.

(** ** [analyze_price_evolution_for_menu]: the loops

    The records of a menu, lines 210 to 262 of [ccam_price_evolution.py]. *)

(** [df.sort_values('apdt_modif')] at line 238 sorts with the default
    algorithm of pandas, which is not stable: the order in which it leaves
    the rows of equal date is that of the algorithm, not one that the frame
    fixes.  The sort is therefore a parameter of the analysis.  What the
    properties assume of it is stated with them: its result is a permutation
    of the frame, in the order [date_le] of the dates. *)
Section Analysis.
Variable sort_values : list merged_row -> list merged_row.

(** Lines 237 to 259: the record of one act on one grid. *)
Definition result_of (self : analyzer) (acte : string) (acte_info : merged_row)
    (grille : Z) (df_acte_grille : list merged_row) : outcome Evo.t :=
  let df_acte_grille := sort_values df_acte_grille in
  first <- iloc0 df_acte_grille ;;
  last <- iloc_last df_acte_grille ;;
  libelle <- libelle_of_grille self acte_info grille ;;
  Ok (record_of acte acte_info grille libelle first last (List.length df_acte_grille)).

(** The inner loop, [for grille in self.grilles_filter]; [results] is the
    list that [results.append] extends. *)
Fixpoint for_grilles (self : analyzer) (acte : string) (df_acte : list merged_row)
    (acte_info : merged_row) (grilles : list Z) (results : list Evo.t)
  : outcome (list Evo.t) :=
  match grilles with
  | [] => Ok results
  | grille :: grilles =>
      let df_acte_grille := filter (fun r => grille_cod r =? grille) df_acte in
      if negb (empty df_acte_grille) then
        result <- result_of self acte acte_info grille df_acte_grille ;;
        for_grilles self acte df_acte acte_info grilles (results ++ [result])
      else for_grilles self acte df_acte acte_info grilles results
  end.

(** The outer loop, [for acte in actes]. *)
Fixpoint for_actes (self : analyzer) (df_menu : list merged_row)
    (actes : list string) (results : list Evo.t) : outcome (list Evo.t) :=
  match actes with
  | [] => Ok results
  | acte :: actes =>
      let df_acte := filter (fun r => String.eqb (cod_acte r) acte) df_menu in
      acte_info <- iloc0 df_acte ;;
      results <- for_grilles self acte df_acte acte_info grilles_filter results ;;
      for_actes self df_menu actes results
  end.

(** The method returns [None] for a menu without rows, else the frame of
    the records. *)
Definition analyze_price_evolution_for_menu (self : analyzer) (menu : Z)
  : outcome (option (list Evo.t)) :=
  let df_menu := filter (fun r => menu_cod r =? menu) (df_merged self) in
  if empty df_menu then Ok None
  else
    let actes := unique (map cod_acte df_menu) in
    results <- for_actes self df_menu actes [] ;;
    Ok (Some results).

(** ** Ancestors in the menu table

    [chain menu current l]: following the parent pointers from [current]
    visits the codes of [l] with their labels, nearest first, and then
    stops: at a missing parent, at code 0, or at a code without a row. *)
Inductive chain (menu : list RMenu.row) : option Z -> list (Z * string) -> Prop :=
| chain_null : chain menu None []
| chain_zero : chain menu (Some 0) []
| chain_absent (c : Z) :
    filter (fun r => RMenu.cod_menu r =? c) menu = [] ->
    chain menu (Some c) []
| chain_parent (c : Z) (r : RMenu.row) (rest : list RMenu.row) (l : list (Z * string)) :
    c <> 0 ->
    filter (fun r => RMenu.cod_menu r =? c) menu = r :: rest ->
    chain menu (RMenu.cod_pere r) l ->
    chain menu (Some c) ((c, RMenu.libelle r) :: l).

(** The segment of the path for the code the method is called on, and the
    segment for an ancestor, whose code is read from the table. *)
Definition segment (x : Z * string) : string :=
  (str (fst x) ++ "_" ++ snd x)%string.

Definition ancestor_segment (menu : list RMenu.row) (x : Z * string) : string :=
  (render menu true (fst x) ++ "_" ++ snd x)%string.

(** The segments of the visited codes, nearest first; [read] tells whether
    the first code was read from the table. *)
Definition segments (menu : list RMenu.row) (read : bool) (l : list (Z * string))
  : list string :=
  match l with
  | [] => []
  | x :: l =>
      (render menu read (fst x) ++ "_" ++ snd x)%string
      :: map (ancestor_segment menu) l
  end.

(** The codes of the menu table are integers that a float64 holds exactly.
    This matters when the parent column is float64. *)
Definition float64_exact (menu : list RMenu.row) : Prop :=
  forall r, In r menu ->
    Z.abs (RMenu.cod_menu r) <= 2 ^ 53
    /\ forall p, RMenu.cod_pere r = Some p -> Z.abs p <= 2 ^ 53.

(** The row predicate that the three selections amount to. *)
Definition selected (r : merged_row) : bool :=
  isin (grille_cod r) grilles_filter
  && isin (activ_cod r) activites_filter
  && (phase_cod r =? phase_filter).

(** What a left join on integer keys guarantees about its output [out]:
    no left row is lost and none is invented; the right side of an output
    row is missing exactly when the key of its left row occurs nowhere on
    the right, else it is a right row of that key; and when no key occurs
    twice on the right, the output is the left frame row for row. *)
Definition left_join_facts {L R : Type} (lkey : L -> Z) (rkey : R -> Z)
    (left : list L) (right : list R) (out : list (L * option R)) : Prop :=
  (List.length left <= List.length out)%nat
  /\ (forall l, In l (map fst out) <-> In l left)
  /\ (forall l o, In (l, o) out ->
        match o with
        | None => forall r, In r right -> rkey r <> lkey l
        | Some r => In r right /\ rkey r = lkey l
        end)
  /\ (NoDup (map rkey right) ->
        List.length out = List.length left /\ map fst out = left).

(** ** Sample tables

    The scenario of the specification: one act, with code 100 and name X,
    priced 10.0 on 2020-01-01 and 12.0 on 2022-01-01 on grid 3.  Dates are
    day numbers counted from 1970-01-01. *)

Definition day_2020_01_01 : Z := 18262.
Definition day_2022_01_01 : Z := 18993.

Definition sample_menu : list RMenu.row :=
  [ RMenu.mk 0 "ROOT" (Some 0); RMenu.mk 1 "A" (Some 0); RMenu.mk 2 "B" (Some 1) ].

(** The same tree when the root has no parent: the parent column holds a
    missing value. *)
Definition sample_menu_root : list RMenu.row :=
  [ RMenu.mk 0 "ROOT" None; RMenu.mk 1 "A" (Some 0); RMenu.mk 2 "B" (Some 1) ].

Definition sample : analyzer :=
  {| df_acte := [ RActe.mk "100" "X" "X" 2 ];
     df_acte_ivite := [ RActeIvite.mk 10 "100" 1 ];
     df_acte_ivite_phase := [ RActeIvitePhase.mk 20 10 0 ];
     df_pu_base :=
       [ RPuBase.mk 20 3 12 (Some day_2022_01_01);
         RPuBase.mk 20 3 10 (Some day_2020_01_01) ];
     df_menu := sample_menu;
     df_activite := [ RActivite.mk 1 "Acte" ];
     df_grille := [ RGrille.mk 3 "Grille 3" ];
     df_merged := [] |}.

(** The same tables with a menu table in which code 2 has two rows. *)
Definition sample_menu_twice : list RMenu.row :=
  [ RMenu.mk 1 "A" (Some 0); RMenu.mk 2 "B" (Some 1); RMenu.mk 2 "B bis" (Some 1) ].

(** The sample tables with the tree whose root has no parent. *)
Definition sample_root : analyzer :=
  {| df_acte := []; df_acte_ivite := []; df_acte_ivite_phase := [];
     df_pu_base := []; df_menu := sample_menu_root;
     df_activite := []; df_grille := []; df_merged := [] |}.

(** A menu table whose only row is its own parent. *)
Definition cyclic : analyzer :=
  {| df_acte := []; df_acte_ivite := []; df_acte_ivite_phase := [];
     df_pu_base := []; df_menu := [ RMenu.mk 1 "A" (Some 1) ];
     df_activite := []; df_grille := []; df_merged := [] |}.

(** ** Price series

    [series self menu acte grille]: the rows of [df_merged] for one act of a
    menu on one grid, in the order of the frame. *)
Definition series (self : analyzer) (menu : Z) (acte : string) (grille : Z)
  : list merged_row :=
  filter
    (fun r => (menu_cod r =? menu) && String.eqb (cod_acte r) acte
              && (grille_cod r =? grille))
    (df_merged self).

(** The rows of one act of a menu, on any grid. *)
Definition rows_of_acte (self : analyzer) (menu : Z) (acte : string)
  : list merged_row :=
  filter (fun r => (menu_cod r =? menu) && String.eqb (cod_acte r) acte)
    (df_merged self).

(** The order of the dates on rows. *)
Definition by_date (a b : merged_row) : Prop :=
  date_le (apdt_modif a) (apdt_modif b) = true.

(** The records of one act on one grid. *)
Definition of_pair (acte : string) (grille : Z) (records : list Evo.t)
  : list Evo.t :=
  filter
    (fun rec => String.eqb (Evo.cod_acte rec) acte && (Evo.grille_cod rec =? grille))
    records.

(** Every grid code on a row of the menu has a row in the grid table. *)
Definition grids_known (self : analyzer) (menu : Z) : Prop :=
  forall r, In r (df_merged self) -> menu_cod r = menu ->
            exists g, In g (df_grille self) /\ RGrille.cod_grille g = grille_cod r.

(** An act of menu 2 with prices on two grids and rows of two activities;
    on grid 3 its first price is zero. *)
Definition two_grids : analyzer :=
  {| df_acte := []; df_acte_ivite := []; df_acte_ivite_phase := [];
     df_pu_base := []; df_menu := sample_menu; df_activite := [];
     df_grille := [ RGrille.mk 3 "Grille 3"; RGrille.mk 4 "Grille 4" ];
     df_merged :=
       [ mk_merged "100" "X" "X long" 2 1 0 4 12 (Some day_2022_01_01)
           (Some "B") (Some 1) (Some "Acte") (Some "Grille 4");
         mk_merged "100" "X" "X long" 2 2 0 3 15 (Some day_2022_01_01)
           (Some "B") (Some 1) (Some "Anesthesie") (Some "Grille 3");
         mk_merged "100" "X" "X long" 2 2 0 3 0 (Some day_2020_01_01)
           (Some "B") (Some 1) (Some "Anesthesie") (Some "Grille 3");
         mk_merged "100" "X" "X long" 2 1 0 4 10 (Some day_2020_01_01)
           (Some "B") (Some 1) (Some "Acte") (Some "Grille 4") ] |}.

(** Source tables in which the act has a price on grid 4 and two on grid 3,
    and the grid table has no row for grid 3; the relation is the one that
    [merge_tables] and [apply_filters] produce from them. *)
Definition tables_grid_3_unknown : analyzer :=
  {| df_acte := [ RActe.mk "100" "X" "X" 2 ];
     df_acte_ivite := [ RActeIvite.mk 10 "100" 1 ];
     df_acte_ivite_phase := [ RActeIvitePhase.mk 20 10 0 ];
     df_pu_base :=
       [ RPuBase.mk 20 4 11 (Some day_2020_01_01);
         RPuBase.mk 20 3 10 (Some day_2020_01_01);
         RPuBase.mk 20 3 12 (Some day_2022_01_01) ];
     df_menu := sample_menu;
     df_activite := [ RActivite.mk 1 "Acte" ];
     df_grille := [ RGrille.mk 4 "Grille 4" ];
     df_merged := [] |}.

Definition grid_3_unknown : analyzer :=
  apply_filters (merge_tables tables_grid_3_unknown).

(** Source tables with three acts, one in each of the menus 1, 2 and 3.
    Each act has a price on grid 4; the act of menu 2 has a price on grid 3
    as well, and the grid table has no row for grid 3. *)
Definition three_menus : analyzer :=
  {| df_acte :=
       [ RActe.mk "101" "X1" "X1" 1; RActe.mk "102" "X2" "X2" 2;
         RActe.mk "103" "X3" "X3" 3 ];
     df_acte_ivite :=
       [ RActeIvite.mk 10 "101" 1; RActeIvite.mk 11 "102" 1;
         RActeIvite.mk 12 "103" 1 ];
     df_acte_ivite_phase :=
       [ RActeIvitePhase.mk 20 10 0; RActeIvitePhase.mk 21 11 0;
         RActeIvitePhase.mk 22 12 0 ];
     df_pu_base :=
       [ RPuBase.mk 20 4 10 (Some day_2020_01_01);
         RPuBase.mk 21 4 11 (Some day_2020_01_01);
         RPuBase.mk 21 3 12 (Some day_2020_01_01);
         RPuBase.mk 22 4 13 (Some day_2020_01_01) ];
     df_menu := sample_menu;
     df_activite := [ RActivite.mk 1 "Acte" ];
     df_grille := [ RGrille.mk 4 "Grille 4" ];
     df_merged := [] |}.

(** The act and the grid of a record. *)
Definition key (rec : Evo.t) : string * Z := (Evo.cod_acte rec, Evo.grille_cod rec).

(** The grids of the filter list on which the rows [df_acte] have a price. *)
Definition priced_grilles (df_acte : list merged_row) (grilles : list Z) : list Z :=
  filter (fun g => negb (empty (filter (fun r => grille_cod r =? g) df_acte))) grilles.

(** [rec] is the record that lines 237 to 259 build for its grid from the
    rows [df_acte] of its act, whose first row is [acte_info]. *)
Definition built_from (self : analyzer) (acte_info : merged_row)
    (df_acte : list merged_row) (rec : Evo.t) : Prop :=
  let rows := filter (fun r => grille_cod r =? Evo.grille_cod rec) df_acte in
  exists first tl init last libelle,
    sort_values rows = first :: tl
    /\ sort_values rows = (init ++ [last])%list
    /\ libelle_of_grille self acte_info (Evo.grille_cod rec) = Ok libelle
    /\ rec = record_of (Evo.cod_acte rec) acte_info (Evo.grille_cod rec) libelle
               first last (List.length rows).

(** [rec] is built from the rows of its act in the frame [df_menu]. *)
Definition built_in (self : analyzer) (df_menu : list merged_row) (rec : Evo.t) : Prop :=
  let df_acte := filter (fun r => String.eqb (cod_acte r) (Evo.cod_acte rec)) df_menu in
  exists acte_info rest,
    df_acte = acte_info :: rest /\ built_from self acte_info df_acte rec.

(** The label look-ups of line 251 succeed for a menu: on each grid of the
    filter list where an act of the menu has a row, the grid is the one of
    the first row of the act, or the grid table has a row for it. *)
Definition labels_found (self : analyzer) (menu : Z) : Prop :=
  forall acte acte_info rest grille,
    rows_of_acte self menu acte = acte_info :: rest ->
    In grille grilles_filter ->
    series self menu acte grille <> [] ->
    grille = grille_cod acte_info
    \/ exists g, In g (df_grille self) /\ RGrille.cod_grille g = grille.

(** No character of [s] is an underscore. *)
Fixpoint no_underscore (s : string) : bool :=
  match s with
  | EmptyString => true
  | String c s => negb (Ascii.eqb c "_") && no_underscore s
  end.

(** The character that line 276 writes for [c]. *)
Definition rewritten (isalnum_ext : ascii -> bool) (c : ascii) : ascii :=
  if allowed isalnum_ext c then c else "_"%char.

(** Two menus whose labels differ only by characters that are rewritten. *)
Definition colliding : analyzer :=
  mk_analyzer [] [] [] []
    [ RMenu.mk 7 "Acte/Chir:urgical" (Some 0); RMenu.mk 8 "Acte:Chir/urgical" (Some 0) ]
    [] [] [].

(** A record whose content does not matter. *)
Definition any_record : Evo.t :=
  Evo.mk "100" "X" "X" 1 None 3 None None 10 None 12 2 20 2.

(** The keys of a dictionary filled with the entries of [names], in order:
    each name once, at its first place. *)
Definition add_key (ks : list string) (k : string) : list string :=
  if mem k ks then ks else (ks ++ [k])%list.

Definition keys_of (names : list string) : list string :=
  fold_left add_key names [].

(** ASCII lower case, for the sample table. *)
Definition ascii_lower (c : ascii) : ascii :=
  let n := N_of_ascii c in
  if ((65 <=? n) && (n <=? 90))%N then ascii_of_N (n + 32) else c.

Fixpoint lower_ascii (s : string) : string :=
  match s with
  | EmptyString => EmptyString
  | String c s => String (ascii_lower c) (lower_ascii s)
  end.

(** The cells of the field of rank [j] in the records of a table. *)
Definition column_cells (dbf : DBF) (j : nat) : list value :=
  map (fun cells => nth j cells VNone) (records dbf).

(** The row of the frame for a record: each cell as its column stores it. *)
Definition stored_row (dbf : DBF) (cells : list value) : list value :=
  map (fun j => stored (column_cells dbf j) (nth j cells VNone))
    (seq 0 (List.length (fields dbf))).

(** No column of the table changes its cells: a column stored as float64
    holds floats only. *)
Definition columns_kept (dbf : DBF) : Prop :=
  forall j, float64_column (column_cells dbf j) = true ->
            forallb is_float (column_cells dbf j) = true.

(** The integers of the table are in the range of int64. *)
Definition int64_cells (dbf : DBF) : Prop :=
  forall cells z, In cells (records dbf) -> In (VInt z) cells ->
                  - 2 ^ 63 <= z < 2 ^ 63.

(** A menu table in which the root has a blank parent. *)
Definition menu_dbf : DBF :=
  mk_DBF [ "COD_MENU"; "LIBELLE"; "COD_PERE" ]
    [ [ VInt 0; VStr "ROOT"; VNone ];
      [ VInt 1; VStr "A"; VInt 0 ];
      [ VInt 2; VStr "B"; VInt 1 ] ].

(** A price table without records, and one with a record. *)
Definition empty_dbf : DBF :=
  mk_DBF [ "AAP_COD"; "GRILLE_COD"; "PU_BASE"; "APDT_MODIF" ] [].

Definition one_record_dbf : DBF :=
  mk_DBF [ "AAP_COD"; "GRILLE_COD"; "PU_BASE"; "APDT_MODIF" ]
    [ [ VInt 20; VInt 3; VFloat 10; VDate day_2020_01_01 ] ].

(** A disk without any DBF file, and one that holds the price table. *)
Definition no_file : world := mk_world (fun _ => None) [] [].

Definition with_pu_base : world :=
  mk_world
    (fun path =>
       if String.eqb path "/ccam/data/ccam_v79.10/R_PU_BASE.dbf"
       then Some one_record_dbf else None)
    [] [].

(** ** Reading [merge_tables] row by row *)

(** The row of [df_merged] that [merge_tables] builds from a row of the
    inner joins when the look-up tables give [m], [a] and [g]. *)
Definition merged_of (b : base_row) (m : option RMenu.row) (a : option RActivite.row)
    (g : option RGrille.row) : merged_row :=
  columns (((b, m), a), g).

(** A row of the inner joins: an activity row, its act, one of its phases
    and one price of the phase. *)
Definition linked (self : analyzer) (b : base_row) : Prop :=
  In (b_ivite b) (df_acte_ivite self)
  /\ In (b_acte b) (df_acte self)
  /\ In (b_phase b) (df_acte_ivite_phase self)
  /\ In (b_pu b) (df_pu_base self)
  /\ RActeIvite.acte_cod (b_ivite b) = RActe.cod_acte (b_acte b)
  /\ RActeIvite.cod_aa (b_ivite b) = RActeIvitePhase.aa_cod (b_phase b)
  /\ RActeIvitePhase.cod_aap (b_phase b) = RPuBase.aap_cod (b_pu b).

(** [o] is what a left join on [key = k] may bring from [table]: nothing when
    no row has the key, else a row that has it. *)
Definition looked_up {R : Type} (key : R -> Z) (table : list R) (k : Z)
    (o : option R) : Prop :=
  match o with
  | None => forall r, In r table -> key r <> k
  | Some r => In r table /\ key r = k
  end.

(** ** [group_by_menu] *)

(** [Series.unique] on a column of codes. *)
Fixpoint unique_codes (l : list Z) : list Z :=
  match l with
  | [] => []
  | x :: l => x :: filter (fun y => negb (y =? x)) (unique_codes l)
  end.

Definition group_by_menu (self : analyzer) : list Z :=
  unique_codes (map menu_cod (df_merged self)).

(** The rows of a menu in [df_merged]. *)
Definition rows_of_menu (self : analyzer) (menu : Z) : list merged_row :=
  filter (fun r => menu_cod r =? menu) (df_merged self).

(** ** [run_full_analysis] of the price evolution, after the tables are loaded

    The disk is the list of the workbooks written, each with its name inside
    [output_dir] and the frame of its sheet [Evolution_prix]; the two other
    sheets are computed from that frame. *)

Section RunFullAnalysis.
Variable isalnum_ext : ascii -> bool.

(** Step 5, the loop over the menus.  The test of line 333 is the one that
    [export_menu_to_excel] repeats at line 266: a workbook is written exactly
    when the method returns a name. *)
Fixpoint for_menus (self : analyzer) (menus : list Z)
    (workbooks : list (string * list Evo.t))
  : outcome unit * list (string * list Evo.t) :=
  match menus with
  | [] => (Ok tt, workbooks)
  | menu_cod :: menus =>
      match analyze_price_evolution_for_menu self menu_cod with
      | Raise e => (Raise e, workbooks)
      | Ok df_analysis =>
          match export_menu_to_excel isalnum_ext self menu_cod df_analysis with
          | Some filename =>
              for_menus self menus
                (workbooks
                 ++ [(filename, match df_analysis with Some rows => rows | None => [] end)])
          | None => for_menus self menus workbooks
          end
      end
  end.

(** Steps 2 to 5 of [run_full_analysis] (lines 312 to 338), on an analyzer
    whose tables are loaded. *)
Definition run_after_load (self : analyzer)
  : outcome unit * list (string * list Evo.t) :=
  let self := merge_tables self in
  let self := apply_filters self in
  let menus := group_by_menu self in
  for_menus self menus [].
End RunFullAnalysis.

(** The frame of a menu, empty when there is none. *)
Definition frame_of_menu (self : analyzer) (menu : Z) : list Evo.t :=
  match analyze_price_evolution_for_menu self menu with
  | Ok (Some rows) => rows
  | _ => []
  end.

(** The relation that steps 2 and 3 build. *)
Definition filtered (self : analyzer) : analyzer :=
  apply_filters (merge_tables self).

(** The grid table has a row for each grid of the filter list. *)
Definition filter_grids_known (self : analyzer) : Prop :=
  forall grille, In grille grilles_filter ->
    exists g, In g (df_grille self) /\ RGrille.cod_grille g = grille.

(** The sample tables with a grid table that has the six grids. *)
Definition sample_six_grids : analyzer :=
  mk_analyzer (df_acte sample) (df_acte_ivite sample) (df_acte_ivite_phase sample)
    (df_pu_base sample) (df_menu sample) (df_activite sample)
    [ RGrille.mk 3 "Grille 3"; RGrille.mk 4 "Grille 4"; RGrille.mk 5 "Grille 5";
      RGrille.mk 7 "Grille 7"; RGrille.mk 17 "Grille 17"; RGrille.mk 18 "Grille 18" ]
    [].

(** Every character of [s] passes the test [p]. *)
Fixpoint all_chars (p : ascii -> bool) (s : string) : bool :=
  match s with
  | EmptyString => true
  | String c s => p c && all_chars p s
  end.

(** A character that may occur in the name of a workbook: one that line 276
    keeps, or the dot of the extension. *)
Definition name_char (isalnum_ext : ascii -> bool) (c : ascii) : bool :=
  allowed isalnum_ext c || Ascii.eqb c ".".

(** The reports of [run_full_analysis], in the order in which they are
    written. *)
Definition reports : list string :=
  [ "analyse_par_grille.csv"; "top_20_actes_plus_chers.csv";
    "analyse_par_acte.csv"; "top_variations_prix.csv";
    "analyse_temporelle.csv"; "pu_base_complete.csv" ].

(** ** [convert_dbf_to_pickle.py]

    A path is the sequence of its components, as [pathlib] has it.  The disk
    holds the directories and the files with their bytes. *)

Definition path : Type := list string.

(** [p / c] *)
Definition div (p : path) (c : string) : path := (p ++ [c])%list.

(** [p.name] and [p.parent] *)
Definition name (p : path) : string := last p "".
Definition parent (p : path) : path := removelast p.

Fixpoint path_eqb (p q : path) : bool :=
  match p, q with
  | [], [] => true
  | c :: p, c' :: q => String.eqb c c' && path_eqb p q
  | _, _ => false
  end.

(** The index of the last dot of a name. *)
Fixpoint rfind_dot (s : string) (i : nat) (found : option nat) : option nat :=
  match s with
  | EmptyString => found
  | String c s => rfind_dot s (S i) (if Ascii.eqb c "." then Some i else found)
  end.

(** [p.stem]: the name without its last suffix; a dot at either end of the
    name starts no suffix. *)
Definition stem (p : path) : string :=
  let n := name p in
  match rfind_dot n 0 None with
  | Some i =>
      if ((0 <? i) && (i <? String.length n - 1))%nat then slice_to i n else n
  | None => n
  end.

Record disk : Type := mk_disk
  { dirs : list path;
    files : list (path * string) }.

Fixpoint lookup (p : path) (fs : list (path * string)) : option string :=
  match fs with
  | [] => None
  | (q, bytes) :: fs => if path_eqb p q then Some bytes else lookup p fs
  end.

Definition is_dir (d : disk) (p : path) : bool := existsb (path_eqb p) (dirs d).

Definition is_file (d : disk) (p : path) : bool :=
  match lookup p (files d) with
  | Some _ => true
  | None => false
  end.

(** [p.exists()] *)
Definition path_exists (d : disk) (p : path) : bool := is_dir d p || is_file d p.

Inductive oserror : Type :=
| ENOENT
| EEXIST.

(** [p.mkdir(exist_ok=True)]: a directory that is there is left alone; a
    file of that name, or a parent that is no directory, is an error. *)
Definition mkdir_exist_ok (p : path) (d : disk) : oserror + disk :=
  if is_dir d p then inr d
  else if is_file d p then inl EEXIST
  else if is_dir d (parent p) then inr (mk_disk (p :: dirs d) (files d))
  else inl ENOENT.

(** The tables of [main]. *)
Definition tables_needed : list string :=
  [ "R_ACTE"; "R_ACTE_IVITE"; "R_ACTE_IVITE_PHASE"; "R_PU_BASE"; "R_MENU";
    "R_ACTIVITE"; "R_TB23" ].

Section Pickle.
Variable lower : string -> string.

(** What [dbfread] makes of the bytes of a file, [None] when it raises, and
    the bytes that [pickle.dump] writes for a frame. *)
Variable parse_dbf : string -> option DBF.
Variable dumps : DataFrame -> string.

(** [convert_dbf_to_df(p)] on the disk; [None] when it raises, whatever the
    exception. *)
Definition read_frame (d : disk) (p : path) : option DataFrame :=
  match lookup p (files d) with
  | Some bytes => option_map (convert_dbf_to_df lower) (parse_dbf bytes)
  | None => None
  end.

(** The [try] block catches every exception: of the conversion, and of
    [open] when the directory of the output file is not there. *)
Definition convert_and_save (dbf_path output_dir : path) (d : disk) : disk :=
  let table_name := stem dbf_path in
  let output_file := div output_dir (table_name ++ ".pkl")%string in
  if path_exists d output_file then d
  else
    match read_frame d dbf_path with
    | Some df =>
        if is_dir d output_dir
        then mk_disk (dirs d) ((output_file, dumps df) :: files d)
        else d
    | None => d
    end.

(** The loop of [main] over the tables. *)
Definition convert_table (data_path output_dir : path) (d : disk) (table_name : string)
  : disk :=
  let dbf_file := div data_path (table_name ++ ".dbf")%string in
  if negb (path_exists d dbf_file) then d
  else convert_and_save dbf_file output_dir d.

(** [main]; [here] is the directory of the script. *)
Definition main_pickle (here : path) (d : disk) : oserror + disk :=
  let data_path := div (div here "data") "ccam_v79.10" in
  let output_dir := div (div here "data") "pickle" in
  match mkdir_exist_ok output_dir d with
  | inl e => inl e
  | inr d => inr (fold_left (convert_table data_path output_dir) tables_needed d)
  end.
End Pickle.

(** A disk with the data directory and two of the tables. *)
Definition sample_disk : disk :=
  mk_disk
    [ [ "ccam" ]; [ "ccam"; "data" ]; [ "ccam"; "data"; "ccam_v79.10" ] ]
    [ ([ "ccam"; "data"; "ccam_v79.10"; "R_PU_BASE.dbf" ], "prices");
      ([ "ccam"; "data"; "ccam_v79.10"; "R_MENU.dbf" ], "broken") ].

(** A reader that understands the bytes of the price table only. *)
Definition sample_parse (bytes : string) : option DBF :=
  if String.eqb bytes "prices" then Some one_record_dbf else None.

(** A table needs no further work on a disk: its DBF file is not there, its
    pickle is there, the DBF file does not convert, or the output directory
    is missing. *)
Definition settled (lower : string -> string) (parse_dbf : string -> option DBF)
    (data_path output_dir : path) (d : disk) (table_name : string) : Prop :=
  let dbf_file := div data_path (table_name ++ ".dbf")%string in
  path_exists d dbf_file = false
  \/ path_exists d (div output_dir (stem dbf_file ++ ".pkl")%string) = true
  \/ read_frame lower parse_dbf d dbf_file = None
  \/ is_dir d output_dir = false.

(* ================================================================== *)
(** * Properties *)

(** ** The filter stage *)

Lemma isin_In (x : Z) (values : list Z) : isin x values = true <-> In x values.
Proof.
  unfold isin. rewrite existsb_exists. split.
  - intros [y [Hy E]]. apply Z.eqb_eq in E. now subst.
  - intros H. exists x. split; [assumption | apply Z.eqb_refl].
Qed.

Lemma filter_filter {A : Type} (p q : A -> bool) (l : list A) :
  filter p (filter q l) = filter (fun x => q x && p x) l.
Proof.
  induction l as [|x l IH]; simpl; [reflexivity|].
  destruct (q x); simpl.
  - destruct (p x); now rewrite IH.
  - assumption.
Qed.

Lemma filter_idem {A : Type} (p : A -> bool) (l : list A) :
  filter p (filter p l) = filter p l.
Proof.
  rewrite filter_filter. apply filter_ext. intros x. now destruct (p x).
Qed.

Lemma apply_filters_merged (self : analyzer) :
  df_merged (apply_filters self) = filter selected (df_merged self).
Proof.
  unfold apply_filters, set_df_merged. cbn [df_merged].
  unfold filter_phase, filter_activites, filter_grilles.
  rewrite !filter_filter. apply filter_ext. intros r. unfold selected.
  now rewrite andb_assoc.
Qed.

(** C5.  [apply_filters] keeps exactly the rows whose grid code is one of
    3, 4, 5, 7, 17, 18, whose activity code is one of 1, 2, 3, 4 and whose
    phase code is 0, in their order and with their multiplicity; applying it
    again changes nothing; the three selections give the same rows in any of
    their six orders. *)
Theorem apply_filters_exact (self : analyzer) :
  df_merged (apply_filters self) = filter selected (df_merged self)
  /\ (forall r : merged_row,
        In r (df_merged (apply_filters self)) <->
        In r (df_merged self)
        /\ In (grille_cod r) [3; 4; 5; 7; 17; 18]
        /\ In (activ_cod r) [1; 2; 3; 4]
        /\ phase_cod r = 0)
  /\ df_merged (apply_filters (apply_filters self)) = df_merged (apply_filters self)
  /\ (let df := df_merged self in
      let out := df_merged (apply_filters self) in
      filter_phase (filter_activites (filter_grilles df)) = out
      /\ filter_phase (filter_grilles (filter_activites df)) = out
      /\ filter_activites (filter_phase (filter_grilles df)) = out
      /\ filter_activites (filter_grilles (filter_phase df)) = out
      /\ filter_grilles (filter_phase (filter_activites df)) = out
      /\ filter_grilles (filter_activites (filter_phase df)) = out).
Proof.
  split; [apply apply_filters_merged|].
  split.
  - intros r. rewrite apply_filters_merged, filter_In. unfold selected.
    rewrite !andb_true_iff, !isin_In, Z.eqb_eq. unfold phase_filter.
    change grilles_filter with [3; 4; 5; 7; 17; 18].
    change activites_filter with [1; 2; 3; 4]. tauto.
  - split.
    + rewrite (apply_filters_merged (apply_filters self)), apply_filters_merged.
      apply filter_idem.
    + cbv zeta. rewrite apply_filters_merged.
      unfold filter_phase, filter_activites, filter_grilles.
      rewrite !filter_filter.
      repeat split; apply filter_ext; intros r; unfold selected;
        destruct (isin (grille_cod r) grilles_filter),
                 (isin (activ_cod r) activites_filter),
                 (phase_cod r =? phase_filter); reflexivity.
Qed.

(** ** The left joins of [merge_tables] *)

Section LeftJoin.
Context {L R : Type}.
Variable on : L -> R -> bool.

Lemma left_join_flat (left : list L) (right : list R) :
  left_join on left right = flat_map (joined on right) left.
Proof. reflexivity. Qed.

Lemma joined_length (right : list R) (l : L) :
  List.length (joined on right l) = Nat.max 1 (List.length (partners on right l)).
Proof.
  unfold joined. destruct (partners on right l) as [|r rs]; [reflexivity|].
  rewrite length_map. simpl. reflexivity.
Qed.

Lemma left_join_length_ge (left : list L) (right : list R) :
  (List.length left <= List.length (left_join on left right))%nat.
Proof.
  rewrite left_join_flat.
  induction left as [|l left IH]; simpl; [lia|].
  rewrite length_app, joined_length. lia.
Qed.

(** Every output row carries a left row; every left row is carried. *)
Lemma left_join_fst (left : list L) (right : list R) (l : L) :
  In l (map fst (left_join on left right)) <-> In l left.
Proof.
  rewrite left_join_flat, in_map_iff. split.
  - intros [[l' o] [E H]]. simpl in E. subst l'.
    apply in_flat_map in H. destruct H as [l0 [Hl0 H]].
    unfold joined in H. destruct (partners on right l0) as [|r rs].
    + destruct H as [H|[]]. inversion H; subst; assumption.
    + apply in_map_iff in H. destruct H as [r' [H _]]. inversion H; subst; assumption.
  - intros H. unfold joined.
    destruct (partners on right l) as [|r rs] eqn:E.
    + exists (l, None). split; [reflexivity|].
      apply in_flat_map. exists l. split; [assumption|].
      unfold joined. rewrite E. now left.
    + exists (l, Some r). split; [reflexivity|].
      apply in_flat_map. exists l. split; [assumption|].
      unfold joined. rewrite E. now left.
Qed.

(** The right side of an output row is missing exactly when the left row
    has no partner; otherwise it is one of the partners. *)
Lemma left_join_snd (left : list L) (right : list R) (l : L) (o : option R) :
  In (l, o) (left_join on left right) ->
  match o with
  | None => forall r, In r right -> on l r = false
  | Some r => In r right /\ on l r = true
  end.
Proof.
  rewrite left_join_flat. intros H.
  apply in_flat_map in H. destruct H as [l0 [_ H]].
  unfold joined in H. destruct (partners on right l0) as [|r0 rs] eqn:E.
  - destruct H as [H|[]]. inversion H; subst.
    intros r Hr. destruct (on l r) eqn:Er; [|reflexivity].
    assert (Hin : In r (partners on right l)) by (apply filter_In; auto).
    rewrite E in Hin. destruct Hin.
  - apply in_map_iff in H. destruct H as [r' [H Hr']]. inversion H; subst.
    rewrite <- E in Hr'. apply filter_In in Hr'. assumption.
Qed.

(** With at most one partner per left row the join is a row-by-row lookup. *)
Lemma left_join_lookup (left : list L) (right : list R) :
  (forall l, In l left -> (List.length (partners on right l) <= 1)%nat) ->
  left_join on left right = map (fun l => (l, hd_error (partners on right l))) left.
Proof.
  rewrite left_join_flat.
  induction left as [|l left IH]; intros H; simpl; [reflexivity|].
  rewrite IH by (intros l' Hl'; apply H; now right).
  specialize (H l (or_introl eq_refl)). unfold joined.
  destruct (partners on right l) as [|r [|r' rs]]; simpl in *;
    [reflexivity | reflexivity | lia].
Qed.
End LeftJoin.

(** A key that occurs once in a table selects at most one row. *)
Lemma unique_key_partner {R : Type} (key : R -> Z) (right : list R) (k : Z) :
  NoDup (map key right) ->
  (List.length (filter (fun r => (k =? key r)%Z) right) <= 1)%nat.
Proof.
  induction right as [|r right IH]; simpl; intros H; [lia|].
  inversion H as [|? ? Hnotin Hnd]; subst.
  destruct (k =? key r) eqn:E.
  - apply Z.eqb_eq in E. subst k. simpl.
    assert (Hnil : filter (fun r0 => key r =? key r0) right = []).
    { destruct (filter (fun r0 => key r =? key r0) right) as [|x xs] eqn:F;
        [reflexivity|].
      assert (Hx : In x (filter (fun r0 => key r =? key r0) right))
        by (rewrite F; now left).
      apply filter_In in Hx. destruct Hx as [Hx Ex]. apply Z.eqb_eq in Ex.
      exfalso. apply Hnotin. rewrite Ex. now apply in_map. }
    rewrite Hnil. simpl. lia.
  - now apply IH.
Qed.

Lemma left_join_unique_key {L R : Type} (lkey : L -> Z) (rkey : R -> Z)
    (left : list L) (right : list R) :
  NoDup (map rkey right) ->
  let out := left_join (fun l r => lkey l =? rkey r) left right in
  List.length out = List.length left
  /\ map fst out = left
  /\ out = map (fun l => (l, find (fun r => lkey l =? rkey r) right)) left.
Proof.
  intros Hnd out.
  assert (E : out = map (fun l => (l, hd_error (partners (fun l r => lkey l =? rkey r) right l))) left).
  { apply left_join_lookup. intros l _. unfold partners.
    now apply unique_key_partner. }
  assert (E' : out = map (fun l => (l, find (fun r => lkey l =? rkey r) right)) left).
  { rewrite E. apply map_ext. intros l. f_equal. unfold partners.
    clear. induction right as [|r right IH]; simpl; [reflexivity|].
    destruct (lkey l =? rkey r); [reflexivity | assumption]. }
  split; [rewrite E; apply length_map|].
  split; [rewrite E, map_map; simpl; apply map_id | assumption].
Qed.

Lemma left_join_int_facts {L R : Type} (lkey : L -> Z) (rkey : R -> Z)
    (left : list L) (right : list R) :
  left_join_facts lkey rkey left right
    (left_join (fun l r => lkey l =? rkey r) left right).
Proof.
  unfold left_join_facts.
  split; [apply left_join_length_ge|].
  split; [apply left_join_fst|].
  split.
  - intros l o H. apply left_join_snd in H. destruct o as [r|].
    + destruct H as [Hr E]. apply Z.eqb_eq in E. now split.
    + intros r Hr E. specialize (H r Hr). apply Z.eqb_neq in H. congruence.
  - intros Hnd.
    destruct (left_join_unique_key lkey rkey left right Hnd) as [H1 [H2 _]].
    now split.
Qed.

(** C2, as amended.  Each of the three left joins of [merge_tables] (with the
    menu, activity and grid tables) keeps every left row and adds none of
    its own making; the right-side columns of an output row are missing
    exactly when its left row has no partner; the output has at least as
    many rows as the left input, and exactly as many, in the same order,
    when no code occurs twice in the right table. *)
Theorem merge_left_joins_facts :
  (forall df_temp menu,
      left_join_facts (fun l => RActe.menu_cod (b_acte l)) RMenu.cod_menu
        df_temp menu (merge_menu df_temp menu))
  /\ (forall df_temp activite,
         left_join_facts (fun l => RActeIvite.activ_cod (b_ivite (fst l)))
           RActivite.cod_activ df_temp activite (merge_activite df_temp activite))
  /\ (forall df_temp grille,
         left_join_facts (fun l => RPuBase.grille_cod (b_pu (fst (fst l))))
           RGrille.cod_grille df_temp grille (merge_grille df_temp grille)).
Proof.
  split; [|split]; intros df_temp right.
  - exact (left_join_int_facts (fun l => RActe.menu_cod (b_acte l))
             RMenu.cod_menu df_temp right).
  - exact (left_join_int_facts (fun l => RActeIvite.activ_cod (b_ivite (fst l)))
             RActivite.cod_activ df_temp right).
  - exact (left_join_int_facts (fun l => RPuBase.grille_cod (b_pu (fst (fst l))))
             RGrille.cod_grille df_temp right).
Qed.

(** On the sample tables, where each code has one row in the menu table, the
    join with the menu table keeps the two rows of its left input. *)
Lemma merge_left_joins_facts_sample :
  NoDup (map RMenu.cod_menu sample_menu)
  /\ List.length (merge_menu (merge_inner sample) sample_menu)
     = List.length (merge_inner sample).
Proof.
  assert (Hnd : NoDup (map RMenu.cod_menu sample_menu)).
  { simpl. repeat constructor; simpl; intuition discriminate. }
  split; [exact Hnd|].
  destruct merge_left_joins_facts as [Hmenu _].
  destruct (Hmenu (merge_inner sample) sample_menu) as [_ [_ [_ H]]].
  exact (proj1 (H Hnd)).
Defined.

(** C2, as stated, fails: with a menu table holding two rows of code 2, the
    left join with the menu table turns a left input of two rows into four
    rows. *)
Lemma left_join_row_count_counterexample :
  List.length (merge_inner sample) = 2%nat
  /\ List.length (merge_menu (merge_inner sample) sample_menu_twice) = 4%nat
  /\ List.length (merge_menu (merge_inner sample) sample_menu_twice)
     <> List.length (merge_inner sample).
Proof.
  repeat split; vm_compute; discriminate.
Qed.

(** ** The path of a menu *)

Lemma string_app_assoc (a b c : string) :
  ((a ++ b) ++ c = a ++ (b ++ c))%string.
Proof. induction a as [|x a IH]; simpl; [reflexivity | now rewrite IH]. Qed.

Lemma segments_read (menu : list RMenu.row) (l : list (Z * string)) :
  segments menu true l = map (ancestor_segment menu) l.
Proof. destruct l; reflexivity. Qed.

(** Along a chain the loop ends, with the segments of the chain put in
    front of the path, farthest ancestor first. *)
Lemma hierarchy_loop_chain (menu : list RMenu.row) (current : option Z)
    (l : list (Z * string)) :
  chain menu current l ->
  forall (fuel : nat) (read : bool) (path : list string),
    (List.length l < fuel)%nat ->
    hierarchy_loop fuel menu read path current
    = Some (rev (segments menu read l) ++ path)%list.
Proof.
  induction 1 as [| |c Hc|c r rest l Hc Hrow Hch IH]; intros fuel read path Hfuel;
    (destruct fuel as [|fuel]; [simpl in Hfuel; lia|]); simpl.
  - reflexivity.
  - reflexivity.
  - destruct (c =? 0); [reflexivity|]. now rewrite Hc.
  - apply Z.eqb_neq in Hc. rewrite Hc, Hrow.
    rewrite IH by (simpl in Hfuel; lia).
    rewrite segments_read. now rewrite <- app_assoc.
Qed.

(** When the loop ends, it has followed a chain. *)
Lemma hierarchy_loop_inv (menu : list RMenu.row) (fuel : nat) :
  forall (read : bool) (path : list string) (current : option Z) (out : list string),
    hierarchy_loop fuel menu read path current = Some out ->
    exists l, chain menu current l /\ out = (rev (segments menu read l) ++ path)%list.
Proof.
  induction fuel as [|fuel IH]; intros read path current out H; simpl in H;
    [discriminate|].
  destruct current as [c|].
  - destruct (c =? 0) eqn:Hc.
    + apply Z.eqb_eq in Hc. subst c. inversion H; subst.
      exists []. split; [constructor | reflexivity].
    + destruct (filter (fun r => RMenu.cod_menu r =? c) menu) as [|r rest] eqn:Hrow.
      * inversion H; subst. exists []. split; [now apply chain_absent | reflexivity].
      * apply IH in H. destruct H as [l [Hch Hout]].
        exists ((c, RMenu.libelle r) :: l). split.
        -- apply Z.eqb_neq in Hc. now apply chain_parent with (rest := rest).
        -- rewrite Hout, segments_read. simpl. now rewrite <- app_assoc.
  - inversion H; subst. exists []. split; [constructor | reflexivity].
Qed.

Lemma join_path_segments (menu : list RMenu.row) (l : list (Z * string)) :
  join_path (rev (segments menu false l)) =
  match l with
  | [] => "SANS_MENU"
  | leaf :: ancestors =>
      String.concat " > " (rev (segment leaf :: map (ancestor_segment menu) ancestors))
  end.
Proof.
  destruct l as [|x l]; [reflexivity|].
  unfold join_path. cbn [segments render andb]. fold (segment x).
  destruct (rev (segment x :: map (ancestor_segment menu) l)) eqn:E; [|reflexivity].
  simpl in E. now apply app_eq_nil in E.
Qed.

Lemma path_of_chain (self : analyzer) (menu_cod : Z) (l : list (Z * string))
    (fuel : nat) :
  chain (df_menu self) (Some menu_cod) l ->
  (List.length l < fuel)%nat ->
  get_menu_hierarchy_path fuel self menu_cod =
  Some match l with
       | [] => "SANS_MENU"
       | leaf :: ancestors =>
           String.concat " > "
             (rev (segment leaf :: map (ancestor_segment (df_menu self)) ancestors))
       end.
Proof.
  intros Hch Hfuel. unfold get_menu_hierarchy_path.
  rewrite (hierarchy_loop_chain _ _ _ Hch fuel false [] Hfuel), app_nil_r.
  simpl. now rewrite join_path_segments.
Qed.


Lemma sample_root_exact : float64_exact (df_menu sample_root).
Proof.
  intros r Hr. simpl in Hr.
  destruct Hr as [E|[E|[E|[]]]]; subst r; simpl;
    (split; [lia | intros p Hp; try discriminate Hp; injection Hp as <-; lia]).
Defined.





(** ** The evolution of the prices *)

(** *** The sort *)

Lemma insert_row_perm (r : merged_row) (l : list merged_row) :
  Permutation (insert_row r l) (r :: l).
Proof.
  induction l as [|x l IH]; simpl; [reflexivity|].
  destruct (date_le (apdt_modif r) (apdt_modif x)); [reflexivity|].
  rewrite IH. apply perm_swap.
Qed.

Lemma insertion_sort_perm (df : list merged_row) :
  Permutation (insertion_sort df) df.
Proof.
  induction df as [|r df IH]; simpl; [reflexivity|].
  rewrite insert_row_perm. now constructor.
Qed.

Lemma date_le_total (a b : option Z) : date_le a b = false -> date_le b a = true.
Proof.
  destruct a as [x|], b as [y|]; simpl; try discriminate; try reflexivity.
  intros H. apply Z.leb_gt in H. apply Z.leb_le. lia.
Qed.

Lemma date_le_trans (a b c : option Z) :
  date_le a b = true -> date_le b c = true -> date_le a c = true.
Proof.
  destruct a as [x|], b as [y|], c as [z|]; simpl; try discriminate; try reflexivity.
  intros H1 H2. apply Z.leb_le in H1, H2. apply Z.leb_le. lia.
Qed.

Lemma insert_row_sorted (r : merged_row) (l : list merged_row) :
  StronglySorted by_date l -> StronglySorted by_date (insert_row r l).
Proof.
  induction 1 as [|x l Hs IH Hall]; simpl.
  - constructor; constructor.
  - destruct (date_le (apdt_modif r) (apdt_modif x)) eqn:E.
    + constructor; [now constructor|].
      constructor; [exact E|].
      eapply Forall_impl; [|exact Hall].
      intros y Hy. unfold by_date in *. eapply date_le_trans; eassumption.
    + constructor; [assumption|].
      apply (Permutation_Forall (Permutation_sym (insert_row_perm r l))).
      constructor; [|assumption].
      unfold by_date. now apply date_le_total.
Qed.

Lemma insertion_sort_sorted (df : list merged_row) :
  StronglySorted by_date (insertion_sort df).
Proof.
  induction df as [|r df IH]; simpl; [constructor|].
  now apply insert_row_sorted.
Qed.

(** What is assumed of the sort of line 238: it returns the rows of the
    frame, each as often as the frame has it, in ascending order of the
    dates with the missing dates last. *)
Hypothesis sort_values_perm :
  forall df : list merged_row, Permutation (sort_values df) df.
Hypothesis sort_values_sorted :
  forall df : list merged_row, StronglySorted by_date (sort_values df).

Lemma sort_values_length (df : list merged_row) :
  List.length (sort_values df) = List.length df.
Proof. apply Permutation_length, sort_values_perm. Qed.

Lemma iloc_last_app {A : Type} (l : list A) (x : A) :
  iloc_last l = Ok x <-> exists init, l = (init ++ [x])%list.
Proof.
  split.
  - induction l as [|y l IH]; simpl; [discriminate|].
    destruct l as [|z l].
    + intros H. inversion H; subst. now exists [].
    + intros H. destruct (IH H) as [init E]. exists (y :: init).
      simpl. now rewrite E.
  - intros [init E]. subst l.
    induction init as [|y init IH]; simpl; [reflexivity|].
    destruct (init ++ [x])%list eqn:E; [|assumption].
    now apply app_eq_nil in E.
Qed.

Lemma iloc_last_ok {A : Type} (l : list A) :
  l <> [] -> exists x, iloc_last l = Ok x.
Proof.
  induction l as [|y l IH]; [congruence|]. intros _.
  destruct l as [|z l]; [now exists y|].
  destruct IH as [x Hx]; [discriminate|]. exists x. exact Hx.
Qed.

(** *** One record *)

Lemma result_of_inv (self : analyzer) (acte : string) (acte_info : merged_row)
    (grille : Z) (df_acte : list merged_row) (rec : Evo.t) :
  result_of self acte acte_info grille (filter (fun r => grille_cod r =? grille) df_acte)
  = Ok rec ->
  key rec = (acte, grille) /\ built_from self acte_info df_acte rec.
Proof.
  unfold result_of, built_from. cbv zeta.
  set (rows := filter (fun r => grille_cod r =? grille) df_acte).
  rewrite sort_values_length. intros H.
  destruct (sort_values rows) as [|first tl] eqn:Es; [discriminate H|].
  cbn [iloc0 bind] in H.
  destruct (iloc_last (first :: tl)) as [last|e] eqn:El; [|discriminate H].
  cbn [bind] in H.
  destruct (libelle_of_grille self acte_info grille) as [libelle|e] eqn:Eg;
    [|discriminate H].
  cbn [bind] in H. inversion H; subst rec. clear H.
  cbn [key record_of Evo.cod_acte Evo.grille_cod].
  split; [reflexivity|].
  apply iloc_last_app in El. destruct El as [init Einit].
  fold rows. rewrite Es.
  exists first, tl, init, last, libelle. repeat split; assumption.
Qed.

Lemma result_of_ok (self : analyzer) (acte : string) (acte_info : merged_row)
    (grille : Z) (rows : list merged_row) :
  rows <> [] ->
  (exists libelle, libelle_of_grille self acte_info grille = Ok libelle) ->
  exists rec, result_of self acte acte_info grille rows = Ok rec.
Proof.
  intros Hrows [libelle Hlib]. unfold result_of. cbv zeta.
  destruct (sort_values rows) as [|first tl] eqn:Es.
  - exfalso. apply Hrows.
    apply Permutation_nil. rewrite <- Es. apply sort_values_perm.
  - simpl iloc0. cbn [bind].
    destruct (iloc_last_ok (first :: tl)) as [last Hlast]; [discriminate|].
    rewrite Hlast, Hlib. simpl. eexists. reflexivity.
Qed.

(** *** The loop over the grids *)

Lemma for_grilles_inv (self : analyzer) (acte : string) (df_acte : list merged_row)
    (acte_info : merged_row) (grilles : list Z) :
  forall results results',
    for_grilles self acte df_acte acte_info grilles results = Ok results' ->
    exists new,
      results' = (results ++ new)%list
      /\ map key new = map (pair acte) (priced_grilles df_acte grilles)
      /\ Forall (built_from self acte_info df_acte) new.
Proof.
  induction grilles as [|grille grilles IH]; intros results results' H; simpl in H.
  - inversion H; subst. exists []. rewrite app_nil_r. repeat split. constructor.
  - unfold priced_grilles. simpl.
    destruct (filter (fun r => grille_cod r =? grille) df_acte) as [|r0 rows0] eqn:Er;
      simpl in H |- *.
    + apply IH in H. exact H.
    + rewrite <- Er in H.
      destruct (result_of self acte acte_info grille
                  (filter (fun r => grille_cod r =? grille) df_acte)) as [rec|e] eqn:E;
        simpl in H; [|discriminate].
      apply result_of_inv in E. destruct E as [Hkey Hbuilt].
      apply IH in H. destruct H as [new [E1 [E2 E3]]].
      exists (rec :: new). split; [|split].
      * rewrite E1, <- app_assoc. reflexivity.
      * simpl. rewrite Hkey. f_equal. exact E2.
      * now constructor.
Qed.

Lemma for_grilles_ok (self : analyzer) (acte : string) (df_acte : list merged_row)
    (acte_info : merged_row) (grilles : list Z) :
  (forall grille, In grille grilles ->
     filter (fun r => grille_cod r =? grille) df_acte <> [] ->
     exists libelle, libelle_of_grille self acte_info grille = Ok libelle) ->
  forall results,
    exists results', for_grilles self acte df_acte acte_info grilles results = Ok results'.
Proof.
  induction grilles as [|grille grilles IH]; intros Hlib results; simpl.
  - now exists results.
  - destruct (filter (fun r => grille_cod r =? grille) df_acte) as [|r0 rows0] eqn:Er;
      simpl.
    + apply IH. intros g Hg. apply Hlib. now right.
    + destruct (result_of_ok self acte acte_info grille (r0 :: rows0)) as [rec Hrec].
      * discriminate.
      * apply Hlib; [now left | rewrite Er; discriminate].
      * rewrite Hrec. simpl. apply IH. intros g Hg. apply Hlib. now right.
Qed.

(** *** The loop over the acts *)

Lemma for_actes_inv (self : analyzer) (df_menu : list merged_row) (actes : list string) :
  forall results results',
    for_actes self df_menu actes results = Ok results' ->
    exists new,
      results' = (results ++ new)%list
      /\ map key new =
         flat_map
           (fun acte =>
              map (pair acte)
                (priced_grilles (filter (fun r => String.eqb (cod_acte r) acte) df_menu)
                   grilles_filter))
           actes
      /\ Forall (built_in self df_menu) new.
Proof.
  induction actes as [|acte actes IH]; intros results results' H;
    cbn [for_actes] in H; cbv zeta in H.
  - inversion H; subst. exists []. rewrite app_nil_r. repeat split. constructor.
  - destruct (filter (fun r => String.eqb (cod_acte r) acte) df_menu)
      as [|acte_info rest] eqn:Ea; [discriminate H|].
    cbn [iloc0 bind] in H.
    destruct (for_grilles self acte (acte_info :: rest) acte_info grilles_filter results)
      as [mid|e] eqn:Eg; [|discriminate H].
    cbn [bind] in H.
    apply for_grilles_inv in Eg. destruct Eg as [new1 [E1 [K1 B1]]].
    apply IH in H. destruct H as [new2 [E2 [K2 B2]]].
    exists (new1 ++ new2)%list. split; [|split].
    + rewrite E2, E1, <- app_assoc. reflexivity.
    + rewrite map_app, K1, K2. simpl. rewrite Ea. reflexivity.
    + apply Forall_app. split; [|assumption].
      assert (Hacte : Forall (fun rec => Evo.cod_acte rec = acte) new1).
      { clear - K1. revert K1.
        generalize (priced_grilles (acte_info :: rest) grilles_filter) as gs.
        induction new1 as [|rec new1 IHn]; intros gs K; [constructor|].
        destruct gs as [|g gs]; simpl in K; [discriminate|].
        injection K as Ha Hg Hrest.
        constructor; [exact Ha|]. now apply (IHn gs). }
      rewrite Forall_forall in *. intros rec Hrec.
      unfold built_in. cbv zeta. rewrite (Hacte rec Hrec).
      rewrite Ea. exists acte_info, rest. split; [reflexivity|].
      now apply B1.
Qed.

Lemma libelle_of_grille_ok (self : analyzer) (acte_info : merged_row) (grille : Z) :
  grille = grille_cod acte_info
  \/ (exists g, In g (df_grille self) /\ RGrille.cod_grille g = grille) ->
  exists libelle, libelle_of_grille self acte_info grille = Ok libelle.
Proof.
  intros H. unfold libelle_of_grille.
  destruct (Z.eqb_spec grille (grille_cod acte_info)) as [E|E];
    [eexists; reflexivity|].
  destruct H as [H|[g [Hg Eg]]]; [contradiction|].
  destruct (filter (fun g0 => RGrille.cod_grille g0 =? grille) (df_grille self))
    as [|g0 gs] eqn:Ef.
  - exfalso.
    assert (H : In g (filter (fun g0 => RGrille.cod_grille g0 =? grille) (df_grille self))).
    { apply filter_In. split; [assumption | now apply Z.eqb_eq]. }
    rewrite Ef in H. destruct H.
  - simpl. eexists. reflexivity.
Qed.

Lemma for_actes_ok (self : analyzer) (df_menu : list merged_row) (actes : list string) :
  (forall acte, In acte actes ->
     filter (fun r => String.eqb (cod_acte r) acte) df_menu <> []) ->
  (forall acte acte_info rest grille,
     filter (fun r => String.eqb (cod_acte r) acte) df_menu = acte_info :: rest ->
     In grille grilles_filter ->
     filter (fun r => grille_cod r =? grille) (acte_info :: rest) <> [] ->
     exists libelle, libelle_of_grille self acte_info grille = Ok libelle) ->
  forall results, exists results', for_actes self df_menu actes results = Ok results'.
Proof.
  intros Hactes Hlib.
  induction actes as [|acte actes IH]; intros results; cbn [for_actes]; cbv zeta.
  - now exists results.
  - destruct (filter (fun r => String.eqb (cod_acte r) acte) df_menu)
      as [|acte_info rest] eqn:Ea.
    + exfalso. apply (Hactes acte); [now left | assumption].
    + cbn [iloc0 bind].
      destruct (for_grilles_ok self acte (acte_info :: rest) acte_info grilles_filter)
        with (results := results) as [mid Hmid].
      * intros grille Hg Hrows. now apply (Hlib acte acte_info rest grille).
      * rewrite Hmid. cbn [bind]. apply IH. intros a Ha. apply Hactes. now right.
Qed.

(** *** The distinct acts *)

Lemma unique_In (x : string) (l : list string) : In x (unique l) <-> In x l.
Proof.
  induction l as [|y l IH]; simpl; [tauto|].
  rewrite filter_In, IH, negb_true_iff, String.eqb_neq.
  destruct (String.eqb_spec x y) as [E|E]; [subst; tauto|].
  split; [tauto|]. intros [H|H]; [congruence | tauto].
Qed.

Lemma unique_NoDup (l : list string) : NoDup (unique l).
Proof.
  induction l as [|y l IH]; simpl; constructor.
  - rewrite filter_In, negb_true_iff, String.eqb_neq. tauto.
  - now apply NoDup_filter.
Qed.

Lemma pair_NoDup (a : string) (gs : list Z) : NoDup gs -> NoDup (map (pair a) gs).
Proof.
  induction 1 as [|g gs Hnotin Hnd IH]; simpl; constructor; [|assumption].
  intros H. apply in_map_iff in H. destruct H as [g' [E Hg']].
  inversion E; subst. contradiction.
Qed.

Lemma keys_NoDup (actes : list string) (grilles : list Z) (f : string -> list Z) :
  NoDup actes -> (forall a, NoDup (f a)) ->
  NoDup (flat_map (fun a => map (pair a) (f a)) actes).
Proof.
  intros Ha Hf. induction Ha as [|a actes Hnotin Hnd IH]; simpl; [constructor|].
  apply NoDup_app.
  - apply pair_NoDup, Hf.
  - assumption.
  - intros [a' g] H1 H2. apply in_map_iff in H1. destruct H1 as [g' [E _]].
    inversion E; subst. apply in_flat_map in H2. destruct H2 as [b [Hb H2]].
    apply in_map_iff in H2. destruct H2 as [g'' [E' _]]. inversion E'; subst.
    contradiction.
Qed.

Lemma of_pair_unique (records : list Evo.t) (rec : Evo.t) :
  NoDup (map key records) -> In rec records ->
  of_pair (Evo.cod_acte rec) (Evo.grille_cod rec) records = [rec].
Proof.
  unfold of_pair.
  induction records as [|x records IH]; intros Hnd Hin; [destruct Hin|].
  simpl in Hnd. inversion Hnd as [|? ? Hnotin Hnd']; subst. simpl.
  assert (Hrest : forall y, In y records -> key y = key x ->
            False) by (intros y Hy E; apply Hnotin; rewrite <- E; now apply in_map).
  destruct Hin as [E|Hin].
  - subst x. rewrite String.eqb_refl, Z.eqb_refl. simpl. f_equal.
    clear IH Hnd Hnd' Hnotin.
    induction records as [|y records IHr]; simpl; [reflexivity|].
    destruct (String.eqb_spec (Evo.cod_acte y) (Evo.cod_acte rec)) as [E1|E1];
      destruct (Z.eqb_spec (Evo.grille_cod y) (Evo.grille_cod rec)) as [E2|E2]; simpl;
      try (apply IHr; intros z Hz; apply Hrest; now right).
    exfalso. apply (Hrest y); [now left|]. unfold key. congruence.
  - destruct (String.eqb_spec (Evo.cod_acte x) (Evo.cod_acte rec)) as [E1|E1];
      destruct (Z.eqb_spec (Evo.grille_cod x) (Evo.grille_cod rec)) as [E2|E2]; simpl;
      try (now apply IH).
    exfalso. apply (Hrest rec Hin). unfold key. congruence.
Qed.

(** *** The whole analysis *)

Lemma rows_of_acte_filter (self : analyzer) (menu : Z) (acte : string) :
  filter (fun r => String.eqb (cod_acte r) acte)
    (filter (fun r => menu_cod r =? menu) (df_merged self))
  = rows_of_acte self menu acte.
Proof. unfold rows_of_acte. now rewrite filter_filter. Qed.

Lemma series_filter (self : analyzer) (menu : Z) (acte : string) (grille : Z) :
  filter (fun r => grille_cod r =? grille) (rows_of_acte self menu acte)
  = series self menu acte grille.
Proof. unfold rows_of_acte, series. now rewrite filter_filter. Qed.

(** What the returned frame holds: one record per act of the menu and per
    grid of the filter list on which the act has a row, in the order of the
    loops, each built from the rows of its act. *)
Lemma analyze_inv (self : analyzer) (menu : Z) (records : list Evo.t) :
  analyze_price_evolution_for_menu self menu = Ok (Some records) ->
  map key records =
    flat_map
      (fun acte =>
         map (pair acte) (priced_grilles (rows_of_acte self menu acte) grilles_filter))
      (unique (map cod_acte (filter (fun r => menu_cod r =? menu) (df_merged self))))
  /\ Forall (built_in self (filter (fun r => menu_cod r =? menu) (df_merged self)))
       records.
Proof.
  unfold analyze_price_evolution_for_menu. cbv zeta.
  set (df_menu := filter (fun r => menu_cod r =? menu) (df_merged self)).
  destruct (empty df_menu); [discriminate|].
  destruct (for_actes self df_menu (unique (map cod_acte df_menu)) []) as [res|e] eqn:E;
    cbn [bind]; [|discriminate].
  intros H. inversion H; subst res. clear H.
  apply for_actes_inv in E. destruct E as [new [E1 [E2 E3]]].
  simpl in E1. subst new. split; [|assumption].
  rewrite E2. apply flat_map_ext. intros acte.
  unfold df_menu. now rewrite rows_of_acte_filter.
Qed.

Lemma analyze_ok (self : analyzer) (menu : Z) :
  labels_found self menu ->
  exists res, analyze_price_evolution_for_menu self menu = Ok res.
Proof.
  intros Hl. unfold analyze_price_evolution_for_menu. cbv zeta.
  set (df_menu := filter (fun r => menu_cod r =? menu) (df_merged self)).
  destruct (empty df_menu); [eexists; reflexivity|].
  destruct (for_actes_ok self df_menu (unique (map cod_acte df_menu)))
    with (results := @nil Evo.t) as [res Hres].
  - intros acte Ha. apply unique_In, in_map_iff in Ha.
    destruct Ha as [r [Er Hr]]. intros Hnil.
    assert (H : In r (filter (fun r0 => String.eqb (cod_acte r0) acte) df_menu)).
    { apply filter_In. split; [assumption|]. rewrite Er. apply String.eqb_refl. }
    rewrite Hnil in H. destruct H.
  - intros acte acte_info rest grille Ea Hg Hrows.
    unfold df_menu in Ea. rewrite rows_of_acte_filter in Ea.
    apply libelle_of_grille_ok. apply (Hl acte acte_info rest grille Ea Hg).
    rewrite <- series_filter, Ea. exact Hrows.
  - rewrite Hres. cbn [bind]. eexists. reflexivity.
Qed.

(** A grid table with a row for every grid code on the rows of the menu is
    enough for the look-ups. *)
Lemma grids_known_labels_found (self : analyzer) (menu : Z) :
  grids_known self menu -> labels_found self menu.
Proof.
  intros Hg acte acte_info rest grille _ _ Hs. right.
  destruct (series self menu acte grille) as [|r rows] eqn:Er; [congruence|].
  assert (Hr : In r (series self menu acte grille)) by (rewrite Er; now left).
  unfold series in Hr. apply filter_In in Hr. destruct Hr as [Hr Eb].
  rewrite !andb_true_iff in Eb. destruct Eb as [[Em _] Egr].
  apply Z.eqb_eq in Em, Egr.
  destruct (Hg r Hr Em) as [g [Hin E]]. exists g. split; congruence.
Qed.

(** A record of the frame, read on the price series of its act and grid. *)
Lemma built_in_series (self : analyzer) (menu : Z) (rec : Evo.t) :
  built_in self (filter (fun r => menu_cod r =? menu) (df_merged self)) rec ->
  exists acte_info rest first tl init last libelle,
    rows_of_acte self menu (Evo.cod_acte rec) = acte_info :: rest
    /\ sort_values (series self menu (Evo.cod_acte rec) (Evo.grille_cod rec))
       = first :: tl
    /\ sort_values (series self menu (Evo.cod_acte rec) (Evo.grille_cod rec))
       = (init ++ [last])%list
    /\ libelle_of_grille self acte_info (Evo.grille_cod rec) = Ok libelle
    /\ rec = record_of (Evo.cod_acte rec) acte_info (Evo.grille_cod rec) libelle
               first last
               (List.length (series self menu (Evo.cod_acte rec) (Evo.grille_cod rec))).
Proof.
  unfold built_in, built_from. cbv zeta.
  rewrite rows_of_acte_filter, series_filter.
  intros [acte_info [rest [Ea [first [tl [init [last [libelle H]]]]]]]].
  exists acte_info, rest, first, tl, init, last, libelle. tauto.
Qed.

(** Exactly one record for a pair that has a row and whose grid is in the
    filter list. *)
Lemma analyze_pair (self : analyzer) (menu : Z) (records : list Evo.t)
    (acte : string) (grille : Z) :
  analyze_price_evolution_for_menu self menu = Ok (Some records) ->
  In grille grilles_filter ->
  series self menu acte grille <> [] ->
  exists rec,
    of_pair acte grille records = [rec]
    /\ Evo.cod_acte rec = acte /\ Evo.grille_cod rec = grille
    /\ built_in self (filter (fun r => menu_cod r =? menu) (df_merged self)) rec.
Proof.
  intros H Hg Hs. apply analyze_inv in H. destruct H as [Hkeys Hbuilt].
  assert (Hnd : NoDup (map key records)).
  { rewrite Hkeys. apply keys_NoDup with (grilles := grilles_filter).
    - apply unique_NoDup.
    - intros a. apply NoDup_filter.
      unfold grilles_filter. repeat constructor; simpl; intuition discriminate. }
  assert (Hin : In (acte, grille) (map key records)).
  { rewrite Hkeys. apply in_flat_map.
    destruct (series self menu acte grille) as [|r rows] eqn:Er; [congruence|].
    assert (Hr : In r (series self menu acte grille)) by (rewrite Er; now left).
    unfold series in Hr. apply filter_In in Hr. destruct Hr as [Hr Eb].
    rewrite !andb_true_iff in Eb. destruct Eb as [[Em Ea] Egr].
    exists acte. split.
    - apply unique_In, in_map_iff. exists r. split.
      + now apply String.eqb_eq.
      + apply filter_In. now split.
    - apply in_map. unfold priced_grilles. apply filter_In.
      split; [assumption|]. rewrite series_filter, Er. reflexivity. }
  apply in_map_iff in Hin. destruct Hin as [rec [Ek Hrec]].
  unfold key in Ek. injection Ek as Ea Eg.
  exists rec. split; [|split; [|split]]; try assumption.
  - rewrite <- Ea, <- Eg. now apply of_pair_unique.
  - rewrite Forall_forall in Hbuilt. now apply Hbuilt.
Qed.

Lemma two_grids_known : grids_known two_grids 2.
Proof.
  intros r Hr _. simpl in Hr.
  destruct Hr as [E|[E|[E|[E|[]]]]]; subst r; simpl.
  - exists (RGrille.mk 4 "Grille 4"). simpl. tauto.
  - exists (RGrille.mk 3 "Grille 3"). simpl. tauto.
  - exists (RGrille.mk 3 "Grille 3"). simpl. tauto.
  - exists (RGrille.mk 4 "Grille 4"). simpl. tauto.
Defined.

(** Two rows of distinct dates are sorted in one way only. *)
Lemma sort_values_two (a b : merged_row) :
  date_le (apdt_modif b) (apdt_modif a) = false ->
  sort_values [b; a] = [a; b].
Proof.
  intros Hlt.
  pose proof (sort_values_perm [b; a]) as Hp.
  pose proof (sort_values_sorted [b; a]) as Hs.
  apply Permutation_sym, Permutation_length_2_inv in Hp.
  destruct Hp as [E|E]; [|exact E].
  rewrite E in Hs. inversion Hs as [|? ? _ Hall]; subst.
  inversion Hall as [|? ? Hba _]; subst.
  unfold by_date in Hba. congruence.
Qed.

(** X18.  For every act of the menu and every grid of the filter list 3, 4,
    5, 7, 17, 18 on which the act has a row, when the label look-ups of the
    menu succeed, [analyze_price_evolution_for_menu] returns a frame with
    exactly one record for the pair; the rows of the pair are sorted by
    date, ascending, the missing dates last; the record has the price of
    the first sorted row as [prix_initial], the price of the last one as
    [prix_actuel], their difference as [evolution_euros], the quotient
    (last - first) / first * 100 as [evolution_pct] when the first price is
    not zero, and the number of rows of the pair as [nb_modifications].  The
    scenario of the specification (prices 10.0 in 2020 and 12.0 in 2022 on
    grid 3), joined, filtered and analysed, gives 10.0, 12.0, 2.0 and 20.0,
    whatever the sort does with rows of equal date. *)
Theorem price_evolution_record :
  (forall (self : analyzer) (menu : Z) (acte : string) (grille : Z),
      In grille grilles_filter ->
      series self menu acte grille <> [] ->
      labels_found self menu ->
      exists records rec sorted first tl init last,
        analyze_price_evolution_for_menu self menu = Ok (Some records)
        /\ of_pair acte grille records = [rec]
        /\ sorted = sort_values (series self menu acte grille)
        /\ Permutation sorted (series self menu acte grille)
        /\ StronglySorted by_date sorted
        /\ sorted = first :: tl
        /\ sorted = (init ++ [last])%list
        /\ Evo.prix_initial rec = pu_base first
        /\ Evo.prix_actuel rec = pu_base last
        /\ Evo.evolution_euros rec = (pu_base last - pu_base first)%float
        /\ (PrimFloat.eqb (pu_base first) 0 = false ->
            Evo.evolution_pct rec
            = ((pu_base last - pu_base first) / pu_base first * 100)%float)
        /\ Evo.nb_modifications rec = List.length (series self menu acte grille))
  /\ analyze_price_evolution_for_menu (apply_filters (merge_tables sample)) 2
     = Ok (Some
             [ {| Evo.cod_acte := "100";
                  Evo.nom_court := "X";
                  Evo.nom_long := "X";
                  Evo.activite := 1;
                  Evo.activite_libelle := Some "Acte";
                  Evo.grille_cod := 3;
                  Evo.grille_libelle := Some "Grille 3";
                  Evo.date_premiere_modif := Some day_2020_01_01;
                  Evo.prix_initial := 10%float;
                  Evo.date_derniere_modif := Some day_2022_01_01;
                  Evo.prix_actuel := 12%float;
                  Evo.evolution_euros := 2%float;
                  Evo.evolution_pct := 20%float;
                  Evo.nb_modifications := 2 |} ]).
Proof.
  split.
  2:{ vm_compute.
      match goal with
      | |- context [sort_values [?b; ?a]] => rewrite (sort_values_two a b eq_refl)
      end.
      reflexivity. }
  intros self menu acte grille Hg Hs Hl.
  destruct (analyze_ok self menu Hl) as [res Hres].
  assert (Hsome : exists records, res = Some records).
  { destruct res as [records|]; [now exists records|]. exfalso.
    unfold analyze_price_evolution_for_menu in Hres. cbv zeta in Hres.
    destruct (filter (fun r => menu_cod r =? menu) (df_merged self)) as [|r0 rows0] eqn:Em.
    - apply Hs.
      destruct (series self menu acte grille) as [|r rows] eqn:Er; [reflexivity|].
      exfalso.
      assert (Hr : In r (series self menu acte grille)) by (rewrite Er; now left).
      unfold series in Hr. apply filter_In in Hr. destruct Hr as [Hr Eb].
      rewrite !andb_true_iff in Eb. destruct Eb as [[Eb _] _].
      assert (Hin : In r (filter (fun r => menu_cod r =? menu) (df_merged self)))
        by (apply filter_In; now split).
      rewrite Em in Hin. destruct Hin.
    - cbn [empty] in Hres.
      destruct (for_actes self (r0 :: rows0) (unique (map cod_acte (r0 :: rows0))) []);
        discriminate Hres. }
  destruct Hsome as [records ->].
  destruct (analyze_pair self menu records acte grille Hres Hg Hs)
    as [rec [Hone [Ea [Eg Hb]]]].
  apply built_in_series in Hb. rewrite Ea, Eg in Hb.
  destruct Hb as [acte_info [rest [first [tl [init [last [libelle H]]]]]]].
  destruct H as [_ [Hfirst [Hlast [_ Hrec]]]].
  exists records, rec, (sort_values (series self menu acte grille)),
    first, tl, init, last.
  split; [assumption|]. split; [assumption|]. split; [reflexivity|].
  split; [apply sort_values_perm|]. split; [apply sort_values_sorted|].
  split; [assumption|]. split; [assumption|].
  rewrite Hrec. cbn [record_of Evo.prix_initial Evo.prix_actuel Evo.evolution_euros
                       Evo.evolution_pct Evo.nb_modifications].
  repeat split. intros Hnz. unfold pct. now rewrite Hnz.
Qed.

(** A failing label look-up makes the record of the pair raise. *)
Lemma result_of_raise (self : analyzer) (acte : string) (acte_info : merged_row)
    (grille : Z) (rows : list merged_row) :
  libelle_of_grille self acte_info grille
  = Raise (IndexError "single positional indexer is out-of-bounds") ->
  result_of self acte acte_info grille rows
  = Raise (IndexError "single positional indexer is out-of-bounds").
Proof.
  intros H. unfold result_of. cbv zeta.
  destruct (sort_values rows) as [|x l]; [reflexivity|].
  cbn [iloc0 bind].
  destruct (iloc_last_ok (x :: l)) as [y Hy]; [discriminate|].
  rewrite Hy. cbn [bind]. now rewrite H.
Qed.

(** C1.  The analysis does not emit a record for every pair of an act and a
    grid of the filter list that has rows.  In [grid_3_unknown], the relation
    that [merge_tables] and [apply_filters] build from tables whose grid
    table has a row for grid 4 only, the act 100 of menu 2 has one row on
    grid 4 and two rows on grid 3.  The first row of the act is on grid 4,
    so the label of grid 3 is looked up in the grid table at line 251; the
    selection is empty, [iloc[0]] raises [IndexError], and the method emits
    no record at all, whatever the sort. *)
Theorem price_evolution_raises_on_unknown_grid :
  grid_3_unknown = apply_filters (merge_tables tables_grid_3_unknown)
  /\ df_grille grid_3_unknown = [ RGrille.mk 4 "Grille 4" ]
  /\ In 3 grilles_filter /\ In 4 grilles_filter
  /\ List.length (series grid_3_unknown 2 "100" 3) = 2%nat
  /\ List.length (series grid_3_unknown 2 "100" 4) = 1%nat
  /\ analyze_price_evolution_for_menu grid_3_unknown 2
     = Raise (IndexError "single positional indexer is out-of-bounds").
Proof.
  split; [reflexivity|]. split; [reflexivity|].
  split; [simpl; tauto|]. split; [simpl; tauto|].
  split; [reflexivity|]. split; [reflexivity|].
  unfold analyze_price_evolution_for_menu. cbv zeta.
  cbn -[result_of].
  rewrite result_of_raise; reflexivity.
Qed.

(** C3.  Every record that [analyze_price_evolution_for_menu] returns with a
    first price of zero (of either sign) has [evolution_pct] equal to zero,
    whatever the last price; the first price of a record is the price of
    the first row of its series once sorted, whichever of the rows of equal
    date the sort puts first; the analysis returns whenever the label
    look-ups succeed, so a zero first price never makes it raise. *)
Theorem zero_first_price_pct (self : analyzer) (menu : Z) :
  (labels_found self menu ->
   exists res, analyze_price_evolution_for_menu self menu = Ok res)
  /\ (forall records,
         analyze_price_evolution_for_menu self menu = Ok (Some records) ->
         forall rec, In rec records ->
           (PrimFloat.eqb (Evo.prix_initial rec) 0 = true ->
            Evo.evolution_pct rec = 0%float)
           /\ exists first tl,
                sort_values (series self menu (Evo.cod_acte rec) (Evo.grille_cod rec))
                = first :: tl
                /\ Evo.prix_initial rec = pu_base first)
  /\ (forall last : float, pct 0 last = 0%float /\ pct (-0) last = 0%float).
Proof.
  split; [apply analyze_ok|]. split.
  - intros records H rec Hrec.
    apply analyze_inv in H. destruct H as [_ Hb].
    rewrite Forall_forall in Hb. specialize (Hb rec Hrec).
    apply built_in_series in Hb.
    destruct Hb as [acte_info [rest [first [tl [init [last [libelle H]]]]]]].
    destruct H as [_ [Hfirst [_ [_ Hrec']]]].
    split.
    + rewrite Hrec'. cbn [record_of Evo.prix_initial Evo.evolution_pct].
      intros Hz. unfold pct. now rewrite Hz.
    + exists first, tl. split; [assumption|].
      rewrite Hrec'. reflexivity.
  - intros last. split; reflexivity.
Qed.

(** C10.  In the frame that [analyze_price_evolution_for_menu] returns, each
    record takes [nom_court], [nom_long], [activite] and [activite_libelle]
    from the first row of its act in the menu, whatever the grid of the
    record; two records of one act therefore agree on these fields. *)
Theorem acte_fields_from_first_row (self : analyzer) (menu : Z)
    (records : list Evo.t) :
  analyze_price_evolution_for_menu self menu = Ok (Some records) ->
  (forall rec, In rec records ->
     exists acte_info rest,
       rows_of_acte self menu (Evo.cod_acte rec) = acte_info :: rest
       /\ Evo.nom_court rec = nom_court acte_info
       /\ Evo.nom_long rec = nom_long acte_info
       /\ Evo.activite rec = activ_cod acte_info
       /\ Evo.activite_libelle rec = activite_libelle acte_info)
  /\ (forall rec1 rec2, In rec1 records -> In rec2 records ->
        Evo.cod_acte rec1 = Evo.cod_acte rec2 ->
        Evo.nom_court rec1 = Evo.nom_court rec2
        /\ Evo.nom_long rec1 = Evo.nom_long rec2
        /\ Evo.activite rec1 = Evo.activite rec2
        /\ Evo.activite_libelle rec1 = Evo.activite_libelle rec2).
Proof.
  intros H.
  assert (Hfirst : forall rec, In rec records ->
            exists acte_info rest,
              rows_of_acte self menu (Evo.cod_acte rec) = acte_info :: rest
              /\ Evo.nom_court rec = nom_court acte_info
              /\ Evo.nom_long rec = nom_long acte_info
              /\ Evo.activite rec = activ_cod acte_info
              /\ Evo.activite_libelle rec = activite_libelle acte_info).
  { intros rec Hrec. apply analyze_inv in H. destruct H as [_ Hb].
    rewrite Forall_forall in Hb. specialize (Hb rec Hrec).
    apply built_in_series in Hb.
    destruct Hb as [acte_info [rest [first [tl [init [last [libelle Hb]]]]]]].
    destruct Hb as [Ea [_ [_ [_ Hrec']]]].
    exists acte_info, rest. split; [assumption|].
    rewrite Hrec'. repeat split. }
  split; [exact Hfirst|].
  intros rec1 rec2 H1 H2 E.
  destruct (Hfirst rec1 H1) as [i1 [r1 [E1 [A1 [B1 [C1 D1]]]]]].
  destruct (Hfirst rec2 H2) as [i2 [r2 [E2 [A2 [B2 [C2 D2]]]]]].
  rewrite E, E2 in E1. injection E1 as Ei _. subst i2.
  repeat split; congruence.
Qed.

(** ** The name of the workbook *)

Lemma str_inj (z1 z2 : Z) : str z1 = str z2 -> z1 = z2.
Proof.
  unfold str. intros E. apply DecimalZ.to_int_inj.
  assert (Hnn : forall z, Z.to_int z <> Decimal.Pos Decimal.Nil
                          /\ Z.to_int z <> Decimal.Neg Decimal.Nil).
  { intros [|p|p]; simpl; split; try discriminate;
      intros H; injection H as H; now apply DecimalPos.Unsigned.to_uint_nonnil in H. }
  destruct (Hnn z1) as [A1 B1]. destruct (Hnn z2) as [A2 B2].
  pose proof (NilZero.isi _ A1 B1) as I1.
  pose proof (NilZero.isi _ A2 B2) as I2.
  rewrite E in I1. rewrite I1 in I2. now injection I2.
Qed.

Lemma uint_no_underscore (d : Decimal.uint) :
  no_underscore (NilEmpty.string_of_uint d) = true.
Proof. induction d; simpl; assumption || reflexivity. Qed.

Lemma str_no_underscore (z : Z) : no_underscore (str z) = true.
Proof.
  unfold str.
  assert (H : forall d, no_underscore (NilZero.string_of_uint d) = true).
  { intros d. destruct d; try apply uint_no_underscore. reflexivity. }
  destruct (Z.to_int z); simpl; apply H.
Qed.

(** A text is cut at its first underscore in one way only. *)
Lemma cut_at_underscore (s1 s2 t1 t2 : string) :
  no_underscore s1 = true -> no_underscore s2 = true ->
  (s1 ++ "_" ++ t1 = s2 ++ "_" ++ t2)%string -> s1 = s2.
Proof.
  revert s2. induction s1 as [|c s1 IH]; intros [|d s2] H1 H2 E; simpl in *.
  - reflexivity.
  - injection E as Ec _. subst d. discriminate H2.
  - injection E as Ec _. subst c. discriminate H1.
  - injection E as Ec E. subst d.
    apply andb_true_iff in H1, H2. f_equal. apply IH; tauto.
Qed.

Lemma filename_inj (isalnum_ext : ascii -> bool) (self : analyzer) (c1 c2 : Z) :
  filename isalnum_ext self c1 = filename isalnum_ext self c2 -> c1 = c2.
Proof.
  unfold filename. intros E. apply str_inj.
  apply cut_at_underscore in E; [assumption | apply str_no_underscore ..].
Qed.

Lemma sanitize_length (isalnum_ext : ascii -> bool) (s : string) :
  String.length (sanitize isalnum_ext s) = String.length s.
Proof. induction s as [|c s IH]; simpl; congruence. Qed.

Lemma sanitize_get (isalnum_ext : ascii -> bool) (s : string) (i : nat) :
  String.get i (sanitize isalnum_ext s)
  = option_map (rewritten isalnum_ext) (String.get i s).
Proof.
  revert i. induction s as [|c s IH]; intros i; simpl; [reflexivity|].
  destruct i as [|i]; [reflexivity | apply IH].
Qed.

Lemma slice_to_length (n : nat) (s : string) :
  String.length (slice_to n s) = Nat.min n (String.length s).
Proof.
  revert s. induction n as [|n IH]; intros [|c s]; simpl; try reflexivity.
  now rewrite IH.
Qed.

Lemma slice_to_get (n : nat) (s : string) (i : nat) :
  String.get i (slice_to n s) = if (i <? n)%nat then String.get i s else None.
Proof.
  revert s i. induction n as [|n IH]; intros [|c s] i; simpl.
  - reflexivity.
  - reflexivity.
  - now destruct (i <? S n)%nat.
  - destruct i as [|i]; [reflexivity|]. rewrite IH. reflexivity.
Qed.

Lemma rewritten_allowed (isalnum_ext : ascii -> bool) (c : ascii) :
  allowed isalnum_ext (rewritten isalnum_ext c) = true.
Proof.
  unfold rewritten. destruct (allowed isalnum_ext c) eqn:E; [assumption|].
  unfold allowed. rewrite Ascii.eqb_refl. apply orb_true_r.
Qed.

(** C6.  For a menu whose code has a row in the menu table,
    [export_menu_to_excel] names the workbook: the code, an underscore, the
    sanitized label, ".xlsx".  The sanitized label is the first 100
    characters of the label, each kept when it is alphanumeric, a space, a
    hyphen or an underscore and replaced by an underscore otherwise.  Two
    distinct codes never get the same name, so labels that collide once
    sanitized still give distinct files: "Acte/Chir:urgical" for code 7 and
    "Acte:Chir/urgical" for code 8 give "7_Acte_Chir_urgical.xlsx" and
    "8_Acte_Chir_urgical.xlsx". *)
Theorem export_filename_sanitized (isalnum_ext : ascii -> bool) :
  (forall (self : analyzer) (menu_cod : Z) (r : RMenu.row) (rest : list RMenu.row)
          (rec : Evo.t) (records : list Evo.t),
      filter (fun r => RMenu.cod_menu r =? menu_cod) (df_menu self) = r :: rest ->
      exists name,
        export_menu_to_excel isalnum_ext self menu_cod (Some (rec :: records))
        = Some (str menu_cod ++ "_" ++ name ++ ".xlsx")%string
        /\ String.length name = Nat.min 100 (String.length (RMenu.libelle r))
        /\ (forall i, (i < 100)%nat ->
              String.get i name
              = option_map (rewritten isalnum_ext) (String.get i (RMenu.libelle r)))
        /\ (forall i c, String.get i name = Some c -> allowed isalnum_ext c = true))
  /\ (forall (self : analyzer) (c1 c2 : Z),
         c1 <> c2 -> filename isalnum_ext self c1 <> filename isalnum_ext self c2)
  /\ sanitize isalnum_ext "Acte/Chir:urgical" = "Acte_Chir_urgical"
  /\ (forall rec,
         export_menu_to_excel isalnum_ext colliding 7 (Some [rec])
         = Some "7_Acte_Chir_urgical.xlsx"
         /\ export_menu_to_excel isalnum_ext colliding 8 (Some [rec])
            = Some "8_Acte_Chir_urgical.xlsx").
Proof.
  split; [|split; [|split]].
  - intros self menu_cod r rest rec records Hrow.
    exists (slice_to 100 (sanitize isalnum_ext (RMenu.libelle r))).
    split; [|split; [|split]].
    + unfold export_menu_to_excel, filename, menu_name. cbn [empty].
      now rewrite Hrow.
    + now rewrite slice_to_length, sanitize_length.
    + intros i Hi. rewrite slice_to_get, sanitize_get.
      apply Nat.ltb_lt in Hi. now rewrite Hi.
    + intros i c. rewrite slice_to_get, sanitize_get.
      destruct (i <? 100)%nat; [|discriminate].
      destruct (String.get i (RMenu.libelle r)) as [c0|]; simpl; [|discriminate].
      intros E. injection E as E. subst c. apply rewritten_allowed.
  - intros self c1 c2 Hne E. apply Hne. now apply filename_inj in E.
  - reflexivity.
  - intros rec. split; reflexivity.
Qed.

(** The statement at menu 7 of [colliding], for the ASCII reading of
    [isalnum]. *)
Lemma export_filename_sanitized_colliding :
  exists name,
    String.length name = 17%nat
    /\ export_menu_to_excel (fun _ => false) colliding 7 (Some [any_record])
       = Some ("7_" ++ name ++ ".xlsx")%string.
Proof.
  destruct (export_filename_sanitized (fun _ => false)) as [H _].
  destruct (H colliding 7 (RMenu.mk 7 "Acte/Chir:urgical" (Some 0)) []
              any_record [] eq_refl)
    as [name [E [Hlen _]]].
  exists name. split; [exact Hlen | exact E].
Defined.

(** ** The columns of a converted table *)

Lemma mem_In (k : string) (l : list string) : mem k l = true <-> In k l.
Proof.
  unfold mem. rewrite existsb_exists. split.
  - intros [x [Hx E]]. apply String.eqb_eq in E. now subst.
  - intros H. exists k. split; [assumption | apply String.eqb_refl].
Qed.

Lemma od_set_keys (k : string) (v : value) (d : ordered_dict) :
  map fst (od_set k v d) = add_key (map fst d) k.
Proof.
  unfold add_key. induction d as [|[k' v'] d IH]; simpl; [reflexivity|].
  destruct (String.eqb k k') eqn:E; simpl.
  - apply String.eqb_eq in E. now subst.
  - rewrite IH. now destruct (mem k (map fst d)).
Qed.

Lemma OrderedDict_keys (items : list (string * value)) :
  map fst (OrderedDict items) = keys_of (map fst items).
Proof.
  unfold OrderedDict, keys_of.
  change (@nil string) with (map fst (@nil (string * value))).
  generalize (@nil (string * value)) as d.
  induction items as [|[k v] items IH]; intros d; simpl; [reflexivity|].
  rewrite IH, od_set_keys. reflexivity.
Qed.

Lemma fold_add_key_In (names ks : list string) (c : string) :
  In c (fold_left add_key names ks) <-> In c ks \/ In c names.
Proof.
  revert ks. induction names as [|k names IH]; intros ks; simpl; [tauto|].
  rewrite IH. unfold add_key. destruct (mem k ks) eqn:E.
  - apply mem_In in E. split; [tauto|]. intros [H|[H|H]]; subst; tauto.
  - rewrite in_app_iff. simpl. tauto.
Qed.

Lemma fold_add_key_NoDup (names ks : list string) :
  NoDup (ks ++ names)%list -> fold_left add_key names ks = (ks ++ names)%list.
Proof.
  revert ks. induction names as [|k names IH]; intros ks H; simpl.
  - now rewrite app_nil_r.
  - unfold add_key. destruct (mem k ks) eqn:E.
    + exfalso. apply mem_In in E. apply NoDup_remove_2 in H.
      apply H. apply in_or_app. now left.
    + rewrite IH; rewrite <- app_assoc; [reflexivity | exact H].
Qed.

Lemma nth_seq_map {A : Type} (d : A) (pre l : list A) :
  map (fun i => nth i (pre ++ l)%list d) (seq (List.length pre) (List.length l)) = l.
Proof.
  revert pre. induction l as [|x l IH]; intros pre; simpl; [reflexivity|].
  f_equal.
  - rewrite app_nth2 by lia. now rewrite Nat.sub_diag.
  - specialize (IH (pre ++ [x])%list). rewrite <- app_assoc in IH. simpl in IH.
    rewrite length_app in IH. simpl in IH. rewrite Nat.add_1_r in IH. exact IH.
Qed.

Lemma record_items_keys (names : list string) (cells : list value) :
  map fst (record_items names cells) = names.
Proof.
  unfold record_items. rewrite map_map. simpl.
  exact (nth_seq_map "" [] names).
Qed.

Lemma filter_not_mem_self (ks : list string) :
  filter (fun k => negb (mem k ks)) ks = [].
Proof.
  assert (H : forall l, (forall k, In k l -> In k ks) ->
                        filter (fun k => negb (mem k ks)) l = []).
  { induction l as [|k l IH]; intros Hl; simpl; [reflexivity|].
    assert (E : mem k ks = true) by (apply mem_In, Hl; now left).
    rewrite E. simpl. apply IH. intros k' Hk'. apply Hl. now right. }
  apply H. auto.
Qed.

Lemma filter_not_mem_nil (l : list string) :
  filter (fun k => negb (mem k [])) l = l.
Proof.
  induction l as [|k l IH]; [reflexivity|].
  cbn [filter mem existsb negb]. f_equal. exact IH.
Qed.

(** The columns of the frame built from the records of a table. *)
Lemma DataFrame_of_iter_columns (dbf : DBF) :
  df_columns (DataFrame_of (iter dbf))
  = match records dbf with
    | [] => []
    | _ :: _ => keys_of (fields dbf)
    end.
Proof.
  unfold DataFrame_of, iter. cbn [df_columns].
  assert (Hkeys : forall cells,
             map fst (OrderedDict (record_items (fields dbf) cells))
             = keys_of (fields dbf)).
  { intros cells. now rewrite OrderedDict_keys, record_items_keys. }
  destruct (records dbf) as [|cells rest]; [reflexivity|].
  simpl. rewrite Hkeys.
  rewrite filter_not_mem_nil.
  induction rest as [|cells' rest IH]; simpl; [reflexivity|].
  rewrite Hkeys, filter_not_mem_self, app_nil_r. exact IH.
Qed.

(** C7.  For a table without records [convert_dbf_to_df] returns a frame
    without rows whose columns are the field names, lower-cased, in the order
    of the fields.  For any table the set of the columns of the frame is the
    set of the lower-cased field names, and the columns are the lower-cased
    field names in order when no field name occurs twice. *)
Theorem convert_dbf_to_df_columns (lower : string -> string) (dbf : DBF) :
  (records dbf = [] ->
   df_rows (convert_dbf_to_df lower dbf) = []
   /\ df_columns (convert_dbf_to_df lower dbf) = map lower (fields dbf))
  /\ (forall c, In c (df_columns (convert_dbf_to_df lower dbf))
                <-> In c (map lower (fields dbf)))
  /\ (NoDup (fields dbf) ->
      df_columns (convert_dbf_to_df lower dbf) = map lower (fields dbf)).
Proof.
  assert (Hset : forall c, In c (map lower (keys_of (fields dbf)))
                           <-> In c (map lower (fields dbf))).
  { intros c. rewrite !in_map_iff. unfold keys_of.
    split; intros [k [E Hk]]; exists k; split; try assumption.
    - apply fold_add_key_In in Hk. destruct Hk as [[]|Hk]. assumption.
    - apply fold_add_key_In. now right. }
  assert (Hcols : df_columns (convert_dbf_to_df lower dbf)
                  = match records dbf with
                    | [] => map lower (fields dbf)
                    | _ :: _ =>
                        match keys_of (fields dbf) with
                        | [] => map lower (fields dbf)
                        | ks => map lower ks
                        end
                    end).
  { unfold convert_dbf_to_df. cbv zeta. unfold df_empty.
    rewrite DataFrame_of_iter_columns.
    unfold DataFrame_of at 1. cbn [df_rows]. unfold iter.
    destruct (records dbf) as [|cells rest]; [reflexivity|].
    cbn [map empty orb negb].
    destruct (keys_of (fields dbf)) as [|k ks]; reflexivity. }
  split; [|split].
  - intros Hnil. split.
    + unfold convert_dbf_to_df. cbv zeta. unfold df_empty, DataFrame_of, iter.
      rewrite Hnil. reflexivity.
    + rewrite Hcols, Hnil. reflexivity.
  - intros c. rewrite Hcols.
    destruct (records dbf) as [|cells rest]; [tauto|].
    destruct (keys_of (fields dbf)) as [|k ks] eqn:E; [tauto|].
    apply Hset.
  - intros Hnd. rewrite Hcols.
    assert (E : keys_of (fields dbf) = fields dbf)
      by (apply (fold_add_key_NoDup (fields dbf) []); exact Hnd).
    rewrite E. destruct (records dbf); [reflexivity|].
    destruct (fields dbf); reflexivity.
Qed.

(** The statement on the two sample price tables. *)
Lemma convert_dbf_to_df_columns_sample :
  convert_dbf_to_df lower_ascii empty_dbf
  = mk_DataFrame [ "aap_cod"; "grille_cod"; "pu_base"; "apdt_modif" ] []
  /\ df_columns (convert_dbf_to_df lower_ascii one_record_dbf)
     = [ "aap_cod"; "grille_cod"; "pu_base"; "apdt_modif" ].
Proof.
  destruct (convert_dbf_to_df_columns lower_ascii empty_dbf) as [H _].
  destruct (H eq_refl) as [Hrows Hcols].
  destruct (convert_dbf_to_df_columns lower_ascii one_record_dbf) as [_ [_ H1]].
  split.
  - destruct (convert_dbf_to_df lower_ascii empty_dbf) as [cols rows].
    simpl in Hrows, Hcols. subst rows cols. reflexivity.
  - rewrite H1; [reflexivity|].
    simpl. repeat constructor; simpl; intuition discriminate.
Defined.

(** ** The missing price table *)

Section MissingFile.
Variable lower : string -> string.
Variable statistics : DataFrame -> outcome unit.
Variable grille_stats : DataFrame -> outcome string.
Variable top_expensive : nat -> DataFrame -> outcome string.
Variable acte_stats : DataFrame -> outcome (string * string).
Variable modifs_par_an : DataFrame -> outcome (DataFrame * string).
Variable csv_of : DataFrame -> string.

Local Abbreviation run :=
  (run_full_analysis lower statistics grille_stats top_expensive acte_stats
     modifs_par_an csv_of).

Lemma load_data_missing (self : PUBase.t) (w : world) :
  dbf_files w (PUBase.pu_base_path self) = None ->
  load_data lower self w
  = (Raise (FileNotFoundError
              ("Fichier " ++ PUBase.pu_base_path self ++ " introuvable")%string), w).
Proof.
  intros H. unfold load_data, bindM, exists_. rewrite H. reflexivity.
Qed.

Lemma run_missing (self : PUBase.t) (w : world) :
  dbf_files w (PUBase.pu_base_path self) = None ->
  run self w
  = (Raise (FileNotFoundError
              ("Fichier " ++ PUBase.pu_base_path self ++ " introuvable")%string), w).
Proof.
  intros H. unfold run_full_analysis, bindM. now rewrite load_data_missing.
Qed.

(** When the table is there and every statistic is computed, the run writes
    its six reports. *)
Lemma run_full_analysis_writes (self : PUBase.t) (w : world) (dbf : DBF)
    (s1 s2 s3 s4 s5 : string) (df' : DataFrame) :
  dbf_files w (PUBase.pu_base_path self) = Some dbf ->
  statistics (convert_dbf_to_df lower dbf) = Ok tt ->
  grille_stats (convert_dbf_to_df lower dbf) = Ok s1 ->
  top_expensive 20 (convert_dbf_to_df lower dbf) = Ok s2 ->
  acte_stats (convert_dbf_to_df lower dbf) = Ok (s3, s4) ->
  modifs_par_an (convert_dbf_to_df lower dbf) = Ok (df', s5) ->
  fst (run self w) = Ok tt
  /\ map fst (written (snd (run self w)))
     = (map fst (written w)
        ++ map (path_join (PUBase.output_dir self))
             [ "analyse_par_grille.csv"; "top_20_actes_plus_chers.csv";
               "analyse_par_acte.csv"; "top_variations_prix.csv";
               "analyse_temporelle.csv"; "pu_base_complete.csv" ])%list.
Proof.
  intros Hf H0 H1 H2 H3 H4.
  unfold run_full_analysis, load_data, print_statistics, analyze_by_grille,
    top_actes_by_price, analyze_by_acte, analyze_temporal, export_full_data,
    frame, read_dbf, bindM, exists_, lift, ret, to_csv.
  cbn [PUBase.pu_base_path PUBase.df PUBase.output_dir dbf_files written directories
         negb fst snd].
  rewrite Hf. cbn [negb PUBase.df dbf_files written fst snd].
  rewrite Hf. cbn [PUBase.df dbf_files written fst snd].
  rewrite H0, H1. cbn [PUBase.df dbf_files written fst snd].
  rewrite H2. cbn [PUBase.df dbf_files written fst snd].
  rewrite H3. cbn [PUBase.df dbf_files written fst snd].
  rewrite H4. cbn [PUBase.df PUBase.output_dir dbf_files written fst snd].
  split; [reflexivity|].
  rewrite !map_app. cbn [map fst]. rewrite <- !app_assoc. reflexivity.
Qed.

(** C8.  When [R_PU_BASE.dbf] is missing, [load_data] raises
    [FileNotFoundError] with a message that holds the path, and leaves the
    world as it was; [run_full_analysis] raises the same exception and
    writes no CSV file, and so does [main], which has only created the
    output directory. *)
Theorem missing_file_aborts :
  (forall (self : PUBase.t) (w : world),
      dbf_files w (PUBase.pu_base_path self) = None ->
      load_data lower self w
      = (Raise (FileNotFoundError
                  ("Fichier " ++ PUBase.pu_base_path self ++ " introuvable")%string), w)
      /\ run self w
         = (Raise (FileNotFoundError
                     ("Fichier " ++ PUBase.pu_base_path self ++ " introuvable")%string), w))
  /\ (forall (here : string) (w : world),
         dbf_files w (path_join (path_join (path_join here "data") "ccam_v79.10")
                        "R_PU_BASE.dbf") = None ->
         fst (main lower statistics grille_stats top_expensive acte_stats
                modifs_par_an csv_of here w)
         = Raise (FileNotFoundError
                    ("Fichier "
                     ++ path_join (path_join (path_join here "data") "ccam_v79.10")
                          "R_PU_BASE.dbf"
                     ++ " introuvable")%string)
         /\ written (snd (main lower statistics grille_stats top_expensive acte_stats
                            modifs_par_an csv_of here w))
            = written w).
Proof.
  split.
  - intros self w H. split; [now apply load_data_missing | now apply run_missing].
  - intros here w H.
    set (self :=
           PUBase.mk (path_join (path_join here "data") "ccam_v79.10")
             (path_join (path_join (path_join here "data") "ccam_v79.10")
                "R_PU_BASE.dbf")
             None (path_join here "output")).
    set (w' :=
           mk_world (dbf_files w) (PUBase.output_dir self :: directories w)
             (written w)).
    assert (E : main lower statistics grille_stats top_expensive acte_stats
                  modifs_par_an csv_of here w
                = run self w') by reflexivity.
    rewrite E, run_missing by exact H.
    split; reflexivity.
Qed.
End MissingFile.

(** The statement on a disk without files: nothing is written. *)
Lemma missing_file_aborts_no_file :
  written
    (snd (main lower_ascii (fun _ => Ok tt) (fun _ => Ok "") (fun _ _ => Ok "")
            (fun _ => Ok ("", "")) (fun df => Ok (df, "")) (fun _ => "")
            "/ccam" no_file))
  = [].
Proof.
  destruct (missing_file_aborts lower_ascii (fun _ => Ok tt) (fun _ => Ok "")
              (fun _ _ => Ok "") (fun _ => Ok ("", "")) (fun df => Ok (df, ""))
              (fun _ => "")) as [_ H].
  destruct (H "/ccam" no_file eq_refl) as [_ Hw]. exact Hw.
Defined.

(** With the price table on disk and statistics that are computed, [main]
    writes the six reports into the output directory. *)
Lemma main_writes_reports :
  map fst
    (written
       (snd (main lower_ascii (fun _ => Ok tt) (fun _ => Ok "") (fun _ _ => Ok "")
               (fun _ => Ok ("", "")) (fun df => Ok (df, "")) (fun _ => "")
               "/ccam" with_pu_base)))
  = [ "/ccam/output/analyse_par_grille.csv";
      "/ccam/output/top_20_actes_plus_chers.csv";
      "/ccam/output/analyse_par_acte.csv";
      "/ccam/output/top_variations_prix.csv";
      "/ccam/output/analyse_temporelle.csv";
      "/ccam/output/pu_base_complete.csv" ].
Proof. reflexivity. Qed.

(* ================================================================== *)
(** * Further properties *)

(** ** The joins of [merge_tables], row by row *)

Lemma inner_join_In {L R : Type} (on : L -> R -> bool) (left : list L)
    (right : list R) (l : L) (r : R) :
  In (l, r) (inner_join on left right) <-> In l left /\ In r right /\ on l r = true.
Proof.
  unfold inner_join, partners. rewrite in_flat_map. split.
  - intros [l0 [Hl0 H]]. apply in_map_iff in H. destruct H as [r0 [E Hr0]].
    inversion E; subst. apply filter_In in Hr0. tauto.
  - intros [Hl [Hr E]]. exists l. split; [assumption|].
    apply in_map. apply filter_In. tauto.
Qed.

Lemma merge_inner_linked_iff (self : analyzer) (b : base_row) :
  In b (merge_inner self) <-> linked self b.
Proof.
  unfold merge_inner, linked, b_ivite, b_acte, b_phase, b_pu. cbv zeta.
  destruct b as [[[i a] p] u]. cbn [fst snd].
  etransitivity; [apply inner_join_In|]. cbn [fst snd].
  rewrite Z.eqb_eq.
  assert (H2 := inner_join_In
                  (fun (l : RActeIvite.row * RActe.row) (r : RActeIvitePhase.row) =>
                     RActeIvite.cod_aa (fst l) =? RActeIvitePhase.aa_cod r)
                  (inner_join
                     (fun l r => String.eqb (RActeIvite.acte_cod l) (RActe.cod_acte r))
                     (df_acte_ivite self) (df_acte self))
                  (df_acte_ivite_phase self) (i, a) p).
  assert (H1 := inner_join_In
                  (fun l r => String.eqb (RActeIvite.acte_cod l) (RActe.cod_acte r))
                  (df_acte_ivite self) (df_acte self) i a).
  cbn [fst snd] in H2. rewrite Z.eqb_eq in H2. rewrite String.eqb_eq in H1.
  tauto.
Qed.

(** X1.  The three inner joins of [merge_tables] keep exactly the linked
    rows: an activity row with the act of its code, a phase of that activity
    and a price of that phase.  No other combination appears, and none of
    these is lost. *)
Theorem merge_inner_linked (self : analyzer) (b : base_row) :
  In b (merge_inner self) <-> linked self b.
Proof. apply merge_inner_linked_iff. Qed.

Lemma left_join_looked_up {L R : Type} (lkey : L -> Z) (rkey : R -> Z)
    (left : list L) (right : list R) (l : L) (o : option R) :
  In (l, o) (left_join (fun l r => lkey l =? rkey r) left right) ->
  In l left /\ looked_up rkey right (lkey l) o.
Proof.
  intros H. split.
  - apply (left_join_fst (fun l r => lkey l =? rkey r) left right).
    apply in_map_iff. exists (l, o). now split.
  - apply left_join_snd in H. unfold looked_up. destruct o as [r|].
    + destruct H as [Hr E]. apply Z.eqb_eq in E. split; congruence.
    + intros r Hr E. specialize (H r Hr). apply Z.eqb_neq in H. congruence.
Qed.

Lemma merged_row_origin (self : analyzer) (row : merged_row) :
  In row (df_merged (merge_tables self)) ->
  exists b m a g,
    row = merged_of b m a g
    /\ linked self b
    /\ looked_up RMenu.cod_menu (df_menu self) (menu_cod row) m
    /\ looked_up RActivite.cod_activ (df_activite self) (activ_cod row) a
    /\ looked_up RGrille.cod_grille (df_grille self) (grille_cod row) g.
Proof.
  unfold merge_tables, set_df_merged. cbn [df_merged].
  intros H. apply in_map_iff in H. destruct H as [[[[b m] a] g] [E H]].
  unfold merge_grille in H. apply left_join_looked_up in H. destruct H as [H Hg].
  unfold merge_activite in H. apply left_join_looked_up in H. destruct H as [H Ha].
  unfold merge_menu in H. apply left_join_looked_up in H. destruct H as [H Hm].
  apply merge_inner_linked_iff in H. cbn [fst snd] in *.
  exists b, m, a, g. subst row. unfold merged_of.
  split; [reflexivity|]. split; [exact H|]. split; [exact Hm|].
  split; [exact Ha | exact Hg].
Qed.

(** X2.  Every row of the relation that [merge_tables] builds comes from a
    linked row of the inner joins, and its menu, activity and grid columns
    come from rows of the look-up tables with the codes of the row, or are
    missing when the look-up table has no row with that code. *)
Theorem merge_tables_rows (self : analyzer) (row : merged_row) :
  In row (df_merged (merge_tables self)) ->
  exists b m a g,
    row = merged_of b m a g
    /\ linked self b
    /\ looked_up RMenu.cod_menu (df_menu self) (menu_cod row) m
    /\ looked_up RActivite.cod_activ (df_activite self) (activ_cod row) a
    /\ looked_up RGrille.cod_grille (df_grille self) (grille_cod row) g.
Proof. apply merged_row_origin. Qed.

(** The statement on the first row of the relation of the sample tables. *)
Lemma merge_tables_rows_sample :
  exists row b m a g,
    In row (df_merged (merge_tables sample))
    /\ row = merged_of b m a g
    /\ linked sample b
    /\ menu_libelle row = Some "B".
Proof.
  destruct (df_merged (merge_tables sample)) as [|row rows] eqn:E;
    [discriminate E|].
  assert (H : In row (df_merged (merge_tables sample))) by (rewrite E; now left).
  destruct (merge_tables_rows sample row H) as [b [m [a [g [Er [Hl _]]]]]].
  exists row, b, m, a, g.
  split; [now left|]. split; [exact Er|]. split; [exact Hl|].
  injection E as E _. rewrite <- E. reflexivity.
Defined.

(** X3.  When no code occurs twice in the menu, activity and grid tables,
    [merge_tables] gives one row per row of the inner joins, in their order,
    each with the first row of its code in every look-up table. *)
Theorem merge_tables_unique_keys (self : analyzer) :
  NoDup (map RMenu.cod_menu (df_menu self)) ->
  NoDup (map RActivite.cod_activ (df_activite self)) ->
  NoDup (map RGrille.cod_grille (df_grille self)) ->
  df_merged (merge_tables self)
  = map (fun b =>
           merged_of b
             (find (fun r => RActe.menu_cod (b_acte b) =? RMenu.cod_menu r)
                (df_menu self))
             (find (fun r => RActeIvite.activ_cod (b_ivite b) =? RActivite.cod_activ r)
                (df_activite self))
             (find (fun r => RPuBase.grille_cod (b_pu b) =? RGrille.cod_grille r)
                (df_grille self)))
      (merge_inner self).
Proof.
  intros Hm Ha Hg. unfold merge_tables, set_df_merged. cbn [df_merged].
  unfold merge_grille, merge_activite, merge_menu.
  destruct (left_join_unique_key (fun l => RActe.menu_cod (b_acte l)) RMenu.cod_menu
              (merge_inner self) (df_menu self) Hm) as [_ [_ E1]].
  cbv zeta in E1. rewrite E1. clear E1.
  match goal with
  | |- context [left_join ?on ?xs (df_activite self)] =>
      destruct (left_join_unique_key
                  (fun l : base_row * option RMenu.row =>
                     RActeIvite.activ_cod (b_ivite (fst l)))
                  RActivite.cod_activ xs (df_activite self) Ha) as [_ [_ E2]]
  end.
  cbv zeta in E2. rewrite E2. clear E2.
  match goal with
  | |- context [left_join ?on ?xs (df_grille self)] =>
      destruct (left_join_unique_key
                  (fun l : (base_row * option RMenu.row) * option RActivite.row =>
                     RPuBase.grille_cod (b_pu (fst (fst l))))
                  RGrille.cod_grille xs (df_grille self) Hg) as [_ [_ E3]]
  end.
  cbv zeta in E3. rewrite E3. clear E3.
  rewrite !map_map. apply map_ext. intros b. reflexivity.
Qed.

(** On the sample tables, whose look-up tables have distinct codes, the
    relation has the two rows of the inner joins. *)
Lemma merge_tables_unique_keys_sample :
  List.length (df_merged (merge_tables sample)) = List.length (merge_inner sample).
Proof.
  rewrite (merge_tables_unique_keys sample).
  - apply length_map.
  - simpl. repeat constructor; simpl; intuition discriminate.
  - simpl. repeat constructor; simpl; intuition discriminate.
  - simpl. repeat constructor; simpl; intuition discriminate.
Defined.

(** ** The menus and their frames *)

Lemma unique_codes_In (x : Z) (l : list Z) : In x (unique_codes l) <-> In x l.
Proof.
  induction l as [|y l IH]; simpl; [tauto|].
  rewrite filter_In, IH, negb_true_iff, Z.eqb_neq.
  destruct (Z.eq_dec x y) as [E|E]; [subst; tauto|].
  split; [tauto|]. intros [H|H]; [congruence | tauto].
Qed.

Lemma unique_codes_NoDup (l : list Z) : NoDup (unique_codes l).
Proof.
  induction l as [|y l IH]; simpl; constructor.
  - rewrite filter_In, negb_true_iff, Z.eqb_neq. tauto.
  - now apply NoDup_filter.
Qed.

Lemma rows_of_menu_group (self : analyzer) (menu : Z) :
  rows_of_menu self menu <> [] <-> In menu (group_by_menu self).
Proof.
  unfold group_by_menu, rows_of_menu. rewrite unique_codes_In, in_map_iff. split.
  - intros H.
    destruct (filter (fun r => menu_cod r =? menu) (df_merged self)) as [|r rows] eqn:E;
      [congruence|].
    assert (Hr : In r (filter (fun r => menu_cod r =? menu) (df_merged self)))
      by (rewrite E; now left).
    apply filter_In in Hr. destruct Hr as [Hr Em]. apply Z.eqb_eq in Em.
    now exists r.
  - intros [r [Em Hr]] E.
    assert (H : In r (filter (fun r => menu_cod r =? menu) (df_merged self)))
      by (apply filter_In; split; [assumption | now apply Z.eqb_eq]).
    rewrite E in H. destruct H.
Qed.

Lemma analyze_none (self : analyzer) (menu : Z) :
  analyze_price_evolution_for_menu self menu = Ok None <->
  ~ In menu (group_by_menu self).
Proof.
  rewrite <- rows_of_menu_group. unfold rows_of_menu.
  unfold analyze_price_evolution_for_menu. cbv zeta.
  destruct (filter (fun r => menu_cod r =? menu) (df_merged self)) as [|r rows] eqn:E.
  - cbn [empty]. split; [intros _ H; now apply H | reflexivity].
  - cbn [empty]. split.
    + intros H. exfalso.
      destruct (for_actes self (r :: rows) (unique (map cod_acte (r :: rows))) []);
        discriminate H.
    + intros H. exfalso. apply H. discriminate.
Qed.

(** X4.  [group_by_menu] lists each menu code of the relation once, and these
    are exactly the menus with something to analyse:
    [analyze_price_evolution_for_menu] returns [None] for a menu code exactly
    when the code is not in the list. *)
Theorem group_by_menu_analysed (self : analyzer) :
  NoDup (group_by_menu self)
  /\ (forall menu, In menu (group_by_menu self) <->
                   exists r, In r (df_merged self) /\ menu_cod r = menu)
  /\ (forall menu, analyze_price_evolution_for_menu self menu = Ok None <->
                   ~ In menu (group_by_menu self)).
Proof.
  split; [apply unique_codes_NoDup|]. split.
  - intros menu. unfold group_by_menu. rewrite unique_codes_In, in_map_iff.
    split; intros [r H]; exists r; tauto.
  - intros menu. apply analyze_none.
Qed.

(** X5.  The frame of a menu has one record for each act of the menu and
    each grid of the filter list on which the act has a row, and no other
    record; the records follow the acts in their order of first appearance
    and, for one act, the grids in the order of the filter list. *)
Theorem frame_pairs (self : analyzer) (menu : Z) (records : list Evo.t) :
  analyze_price_evolution_for_menu self menu = Ok (Some records) ->
  map key records
  = flat_map
      (fun acte =>
         map (pair acte) (priced_grilles (rows_of_acte self menu acte) grilles_filter))
      (unique (map cod_acte (rows_of_menu self menu)))
  /\ NoDup (map key records)
  /\ (forall acte grille,
        In (acte, grille) (map key records) <->
        In grille grilles_filter /\ series self menu acte grille <> []).
Proof.
  intros H. pose proof (analyze_inv self menu records H) as [Hkeys _].
  split; [exact Hkeys|]. split.
  - rewrite Hkeys. apply keys_NoDup with (grilles := grilles_filter).
    + apply unique_NoDup.
    + intros a. apply NoDup_filter.
      unfold grilles_filter. repeat constructor; simpl; intuition discriminate.
  - intros acte grille. split.
    + rewrite Hkeys. intros Hin. apply in_flat_map in Hin.
      destruct Hin as [a [_ Hin]]. apply in_map_iff in Hin.
      destruct Hin as [g [E Hg]]. injection E as Ea Eg. subst a g.
      unfold priced_grilles in Hg. apply filter_In in Hg.
      destruct Hg as [Hg Hne]. split; [assumption|].
      rewrite series_filter in Hne. intros E. now rewrite E in Hne.
    + intros [Hg Hs].
      destruct (analyze_pair self menu records acte grille H Hg Hs)
        as [rec [Hone [Ea [Eg _]]]].
      apply in_map_iff. exists rec. split; [unfold key; congruence|].
      assert (Hin : In rec (of_pair acte grille records)) by (rewrite Hone; now left).
      unfold of_pair in Hin. now apply filter_In in Hin.
Qed.

(** *** Counting rows by key *)

Lemma list_sum_map_add {K : Type} (g h : K -> nat) (ks : list K) :
  list_sum (map (fun k => (g k + h k)%nat) ks)
  = (list_sum (map g ks) + list_sum (map h ks))%nat.
Proof. induction ks as [|k ks IH]; simpl; lia. Qed.

Section CountByKey.
Context {A K : Type}.
Variable eqb : K -> K -> bool.
Hypothesis eqb_eq : forall x y, eqb x y = true <-> x = y.
Variable f : A -> K.

Lemma indicator_sum (x : K) (ks : list K) :
  NoDup ks -> In x ks ->
  list_sum (map (fun k => if eqb x k then 1%nat else 0%nat) ks) = 1%nat.
Proof.
  induction 1 as [|k ks Hnotin Hnd IH]; intros Hin; [destruct Hin|].
  simpl. destruct (eqb x k) eqn:E.
  - apply eqb_eq in E. subst k.
    assert (Hz : list_sum (map (fun k => if eqb x k then 1%nat else 0%nat) ks) = 0%nat).
    { clear IH Hnd Hin. induction ks as [|k ks IHk]; [reflexivity|].
      simpl. destruct (eqb x k) eqn:E.
      - apply eqb_eq in E. subst k. exfalso. apply Hnotin. now left.
      - apply IHk. intros H. apply Hnotin. now right. }
    now rewrite Hz.
  - destruct Hin as [Hin|Hin].
    + subst k. assert (E' : eqb x x = true) by now apply eqb_eq. congruence.
    + now rewrite IH.
Qed.

Lemma count_by_key (ks : list K) (l : list A) :
  NoDup ks -> (forall r, In r l -> In (f r) ks) ->
  list_sum (map (fun k => List.length (filter (fun r => eqb (f r) k) l)) ks)
  = List.length l.
Proof.
  intros Hnd. induction l as [|r l IH]; intros Hin.
  - clear. induction ks as [|k ks IHk]; [reflexivity | exact IHk].
  - assert (E : list_sum (map (fun k => List.length
                                  (filter (fun r0 => eqb (f r0) k) (r :: l))) ks)
                = (list_sum (map (fun k => if eqb (f r) k then 1 else 0) ks)
                   + list_sum (map (fun k => List.length
                                      (filter (fun r0 => eqb (f r0) k) l)) ks))%nat).
    { rewrite <- list_sum_map_add. f_equal. apply map_ext. intros k.
      simpl. now destruct (eqb (f r) k). }
    rewrite E, indicator_sum, IH; [reflexivity | | assumption |].
    + intros r0 Hr0. apply Hin. now right.
    + apply Hin. now left.
Qed.
End CountByKey.

(** The rows on the grids of the filter list, counted grid by grid. *)
Lemma count_priced (df_acte : list merged_row) :
  list_sum
    (map (fun g => List.length (filter (fun r => grille_cod r =? g) df_acte))
       (priced_grilles df_acte grilles_filter))
  = List.length (filter (fun r => isin (grille_cod r) grilles_filter) df_acte).
Proof.
  assert (Hskip : forall gs,
             list_sum
               (map (fun g => List.length (filter (fun r => grille_cod r =? g) df_acte))
                  (priced_grilles df_acte gs))
             = list_sum
                 (map (fun g => List.length (filter (fun r => grille_cod r =? g) df_acte))
                    gs)).
  { induction gs as [|g gs IH]; [reflexivity|].
    unfold priced_grilles in *. simpl.
    destruct (filter (fun r => grille_cod r =? g) df_acte) as [|r rows] eqn:E; simpl.
    - exact IH.
    - rewrite E. simpl. now rewrite IH. }
  rewrite Hskip.
  assert (Hcount := count_by_key Z.eqb Z.eqb_eq grille_cod grilles_filter
                      (filter (fun r => isin (grille_cod r) grilles_filter) df_acte)).
  rewrite <- Hcount.
  - f_equal. apply map_ext_in. intros g Hg. f_equal.
    rewrite filter_filter. apply filter_ext_in. intros r _.
    destruct (grille_cod r =? g) eqn:E; [|now rewrite andb_false_r].
    apply Z.eqb_eq in E. subst g.
    apply isin_In in Hg. now rewrite Hg.
  - unfold grilles_filter. repeat constructor; simpl; intuition discriminate.
  - intros r Hr. apply filter_In in Hr. now apply isin_In.
Qed.

Lemma list_sum_flat_map {A B : Type} (h : B -> nat) (F : A -> list B) (l : list A) :
  list_sum (map h (flat_map F l)) = list_sum (map (fun a => list_sum (map h (F a))) l).
Proof.
  induction l as [|a l IH]; [reflexivity|].
  simpl. now rewrite map_app, list_sum_app, IH.
Qed.

(** X6.  The modification counts of the frame of a menu add up to the number
    of rows of the menu on the grids of the filter list: each such row is
    counted in exactly one record. *)
Theorem nb_modifications_total (self : analyzer) (menu : Z) (records : list Evo.t) :
  analyze_price_evolution_for_menu self menu = Ok (Some records) ->
  list_sum (map Evo.nb_modifications records)
  = List.length
      (filter (fun r => isin (grille_cod r) grilles_filter) (rows_of_menu self menu)).
Proof.
  intros H. pose proof (analyze_inv self menu records H) as [Hkeys Hbuilt].
  assert (Hnb : map Evo.nb_modifications records
                = map (fun k => List.length (series self menu (fst k) (snd k)))
                    (map key records)).
  { rewrite map_map. apply map_ext_in. intros rec Hrec.
    rewrite Forall_forall in Hbuilt. specialize (Hbuilt rec Hrec).
    apply built_in_series in Hbuilt.
    destruct Hbuilt as [acte_info [rest [first [tl [init [last [libelle Hb]]]]]]].
    destruct Hb as [_ [_ [_ [_ Hrec']]]].
    rewrite Hrec' at 1. reflexivity. }
  rewrite Hnb, Hkeys, list_sum_flat_map. clear Hnb Hkeys Hbuilt H records.
  assert (Hacte : forall acte,
             list_sum
               (map (fun k => List.length (series self menu (fst k) (snd k)))
                  (map (pair acte)
                     (priced_grilles (rows_of_acte self menu acte) grilles_filter)))
             = List.length
                 (filter (fun r => String.eqb (cod_acte r) acte)
                    (filter (fun r => isin (grille_cod r) grilles_filter)
                       (rows_of_menu self menu)))).
  { intros acte. rewrite map_map. cbn [fst snd].
    rewrite (map_ext _ (fun g => List.length
                                   (filter (fun r => grille_cod r =? g)
                                      (rows_of_acte self menu acte))))
      by (intros g; now rewrite series_filter).
    rewrite count_priced. f_equal.
    unfold rows_of_menu. rewrite <- rows_of_acte_filter.
    rewrite !filter_filter. apply filter_ext. intros r.
    destruct (menu_cod r =? menu), (String.eqb (cod_acte r) acte),
      (isin (grille_cod r) grilles_filter); reflexivity. }
  rewrite (map_ext _ _ Hacte).
  apply (count_by_key String.eqb String.eqb_eq cod_acte).
  - apply unique_NoDup.
  - intros r Hr. apply filter_In in Hr. destruct Hr as [Hr _].
    apply unique_In. unfold rows_of_menu in *. now apply in_map.
Qed.

(** *** The first and the last row of a series *)

Lemma date_le_refl (a : option Z) : date_le a a = true.
Proof. destruct a as [x|]; simpl; [apply Z.leb_refl | reflexivity]. Qed.

Lemma sorted_ends (l tl init : list merged_row) (first last : merged_row) :
  StronglySorted by_date l -> l = first :: tl -> l = (init ++ [last])%list ->
  by_date first last /\ (List.length l = 1%nat -> first = last).
Proof.
  intros Hs E1 E2. subst l. destruct init as [|x init]; simpl in E2.
  - injection E2 as Ef Et. subst. split; [apply date_le_refl | reflexivity].
  - injection E2 as Ef Et. subst x tl. split.
    + inversion Hs as [|? ? _ Hall]; subst. rewrite Forall_forall in Hall.
      apply Hall. apply in_or_app. right. now left.
    + simpl. rewrite length_app. simpl. lia.
Qed.

(** X7.  In every record of a frame the count of modifications is at least
    one, and the date of the first modification does not come after the date
    of the last one (a missing date counts as latest).  A record with one
    modification has the same price and the same date at both ends. *)
Theorem record_ends (self : analyzer) (menu : Z) (records : list Evo.t) :
  analyze_price_evolution_for_menu self menu = Ok (Some records) ->
  forall rec, In rec records ->
    (1 <= Evo.nb_modifications rec)%nat
    /\ date_le (Evo.date_premiere_modif rec) (Evo.date_derniere_modif rec) = true
    /\ (Evo.nb_modifications rec = 1%nat ->
        Evo.prix_initial rec = Evo.prix_actuel rec
        /\ Evo.date_premiere_modif rec = Evo.date_derniere_modif rec).
Proof.
  intros H rec Hrec. apply analyze_inv in H. destruct H as [_ Hb].
  rewrite Forall_forall in Hb. specialize (Hb rec Hrec).
  apply built_in_series in Hb.
  destruct Hb as [acte_info [rest [first [tl [init [last [libelle Hb]]]]]]].
  destruct Hb as [_ [Hfirst [Hlast [_ Hrec']]]].
  set (rows := series self menu (Evo.cod_acte rec) (Evo.grille_cod rec)) in *.
  destruct (sorted_ends (sort_values rows) tl init first last
              (sort_values_sorted rows) Hfirst Hlast) as [Hle Hone].
  rewrite sort_values_length in Hone.
  assert (Hlen : (1 <= List.length rows)%nat).
  { rewrite <- sort_values_length, Hfirst. simpl. lia. }
  rewrite Hrec'.
  cbn [record_of Evo.nb_modifications Evo.date_premiere_modif
         Evo.date_derniere_modif Evo.prix_initial Evo.prix_actuel].
  split; [exact Hlen|]. split; [exact Hle|].
  intros E. rewrite (Hone E). split; reflexivity.
Qed.

(** ** One workbook per menu *)

Section Workbooks.
Variable isalnum_ext : ascii -> bool.

Lemma for_menus_all (self : analyzer) (menus : list Z) :
  (forall m, In m menus ->
     exists rec rows,
       analyze_price_evolution_for_menu self m = Ok (Some (rec :: rows))) ->
  forall workbooks,
    for_menus isalnum_ext self menus workbooks
    = (Ok tt,
       (workbooks
        ++ map (fun m => (filename isalnum_ext self m, frame_of_menu self m)) menus)%list).
Proof.
  induction menus as [|m menus IH]; intros Hall workbooks; simpl.
  - now rewrite app_nil_r.
  - destruct (Hall m (or_introl eq_refl)) as [rec [rows E]].
    unfold frame_of_menu at 1. rewrite E. cbn [export_menu_to_excel empty].
    rewrite IH by (intros x Hx; apply Hall; now right).
    now rewrite <- app_assoc.
Qed.

Lemma for_menus_raise (self : analyzer) (pre post : list Z) (m : Z) (e : exn) :
  (forall x, In x pre ->
     exists rec rows,
       analyze_price_evolution_for_menu self x = Ok (Some (rec :: rows))) ->
  analyze_price_evolution_for_menu self m = Raise e ->
  forall workbooks,
    for_menus isalnum_ext self (pre ++ m :: post) workbooks
    = (Raise e,
       (workbooks
        ++ map (fun x => (filename isalnum_ext self x, frame_of_menu self x)) pre)%list).
Proof.
  induction pre as [|x pre IH]; intros Hall Hm workbooks; simpl.
  - now rewrite Hm, app_nil_r.
  - destruct (Hall x (or_introl eq_refl)) as [rec [rows E]].
    unfold frame_of_menu at 1. rewrite E. cbn [export_menu_to_excel empty].
    rewrite IH by (try assumption; intros y Hy; apply Hall; now right).
    now rewrite <- app_assoc.
Qed.

(** A menu of a filtered relation has a record: its frame is not empty. *)
Lemma filtered_frame_nonempty (self : analyzer) (menu : Z) (res : option (list Evo.t)) :
  In menu (group_by_menu (apply_filters self)) ->
  analyze_price_evolution_for_menu (apply_filters self) menu = Ok res ->
  exists rec rows, res = Some (rec :: rows).
Proof.
  intros Hin H.
  destruct res as [records|].
  - destruct records as [|rec rows]; [|now exists rec, rows]. exfalso.
    unfold group_by_menu in Hin. apply unique_codes_In, in_map_iff in Hin.
    destruct Hin as [r [Em Hr]].
    assert (Hsel : selected r = true).
    { rewrite apply_filters_merged in Hr. now apply filter_In in Hr. }
    unfold selected in Hsel. rewrite !andb_true_iff in Hsel.
    destruct Hsel as [[Hg _] _]. apply isin_In in Hg.
    destruct (analyze_pair (apply_filters self) menu [] (cod_acte r) (grille_cod r) H Hg)
      as [rec [Hone _]].
    + intros E.
      assert (Hs : In r (series (apply_filters self) menu (cod_acte r) (grille_cod r))).
      { unfold series. apply filter_In. split; [assumption|].
        rewrite Em, Z.eqb_refl, String.eqb_refl, Z.eqb_refl. reflexivity. }
      rewrite E in Hs. destruct Hs.
    + discriminate Hone.
  - exfalso.
    now apply (proj1 (analyze_none (apply_filters self) menu)).
Qed.
End Workbooks.

Lemma NoDup_map_injective {A B : Type} (f : A -> B) (l : list A) :
  (forall x y, f x = f y -> x = y) -> NoDup l -> NoDup (map f l).
Proof.
  intros Hinj. induction 1 as [|x l Hnotin Hnd IH]; simpl; constructor;
    [|assumption].
  intros H. apply in_map_iff in H. destruct H as [y [E Hy]].
  apply Hinj in E. now subst.
Qed.

Lemma filter_grids_known_labels (self : analyzer) (menu : Z) :
  filter_grids_known self -> labels_found (filtered self) menu.
Proof.
  intros H acte acte_info rest grille _ Hg _. right. exact (H grille Hg).
Qed.

(** X8.  When the label look-ups succeed for every menu of the filtered
    relation, the run returns and has written exactly one workbook per menu
    of [group_by_menu], in that order, each holding the non-empty frame of its
    menu; no two workbooks have the same name, so none is overwritten and
    the count announced at the end, the number of menus, is the number of
    files. *)
Theorem run_writes_one_workbook_per_menu (isalnum_ext : ascii -> bool)
    (self : analyzer) :
  (forall menu, In menu (group_by_menu (filtered self)) ->
                labels_found (filtered self) menu) ->
  fst (run_after_load isalnum_ext self) = Ok tt
  /\ snd (run_after_load isalnum_ext self)
     = map (fun m => (filename isalnum_ext (filtered self) m,
                      frame_of_menu (filtered self) m))
         (group_by_menu (filtered self))
  /\ NoDup (map fst (snd (run_after_load isalnum_ext self)))
  /\ List.length (snd (run_after_load isalnum_ext self))
     = List.length (group_by_menu (filtered self))
  /\ (forall m, In m (group_by_menu (filtered self)) ->
                frame_of_menu (filtered self) m <> []).
Proof.
  intros Hl.
  assert (Hall : forall m, In m (group_by_menu (filtered self)) ->
             exists rec rows,
               analyze_price_evolution_for_menu (filtered self) m
               = Ok (Some (rec :: rows))).
  { intros m Hm. destruct (analyze_ok (filtered self) m (Hl m Hm)) as [res Hres].
    destruct (filtered_frame_nonempty (merge_tables self) m res Hm Hres)
      as [rec [rows E]].
    exists rec, rows. now rewrite Hres, E. }
  assert (E : run_after_load isalnum_ext self
              = (Ok tt,
                 map (fun m => (filename isalnum_ext (filtered self) m,
                                frame_of_menu (filtered self) m))
                   (group_by_menu (filtered self)))).
  { unfold run_after_load. cbv zeta. fold (filtered self).
    now rewrite (for_menus_all isalnum_ext (filtered self) _ Hall []). }
  rewrite E. cbn [fst snd].
  split; [reflexivity|]. split; [reflexivity|]. split; [|split].
  - rewrite map_map. cbn [fst].
    apply NoDup_map_injective; [apply filename_inj | apply unique_codes_NoDup].
  - apply length_map.
  - intros m Hm. destruct (Hall m Hm) as [rec [rows Em]].
    unfold frame_of_menu. rewrite Em. discriminate.
Qed.

(** X9.  When the analysis of a menu raises, the run raises the same
    exception; the workbooks of the menus that come before it in
    [group_by_menu] are written and stay, and no later menu is analysed. *)
Theorem run_stops_at_first_failure (isalnum_ext : ascii -> bool) (self : analyzer)
    (pre post : list Z) (m : Z) (e : exn) :
  group_by_menu (filtered self) = (pre ++ m :: post)%list ->
  (forall x, In x pre ->
     exists res, analyze_price_evolution_for_menu (filtered self) x = Ok res) ->
  analyze_price_evolution_for_menu (filtered self) m = Raise e ->
  run_after_load isalnum_ext self
  = (Raise e,
     map (fun x => (filename isalnum_ext (filtered self) x,
                    frame_of_menu (filtered self) x)) pre).
Proof.
  intros Hmenus Hpre Hm. unfold run_after_load. cbv zeta. fold (filtered self).
  rewrite Hmenus.
  rewrite (for_menus_raise isalnum_ext (filtered self) pre post m e); [reflexivity | | exact Hm].
  intros x Hx. destruct (Hpre x Hx) as [res Hres].
  destruct (filtered_frame_nonempty (merge_tables self) x res) as [rec [rows E]].
  - fold (filtered self). rewrite Hmenus. apply in_or_app. now left.
  - exact Hres.
  - exists rec, rows. now rewrite Hres, E.
Qed.

(** ** The characters of a workbook name *)

Lemma all_chars_append (p : ascii -> bool) (s t : string) :
  all_chars p (s ++ t) = all_chars p s && all_chars p t.
Proof.
  induction s as [|c s IH]; simpl; [reflexivity|].
  now rewrite IH, andb_assoc.
Qed.

Lemma all_chars_get (p : ascii -> bool) (s : string) :
  all_chars p s = true -> forall i c, String.get i s = Some c -> p c = true.
Proof.
  induction s as [|c0 s IH]; simpl; intros H i c Hget; [discriminate|].
  apply andb_true_iff in H. destruct H as [H0 Hs].
  destruct i as [|i]; [injection Hget as E; now subst | now apply (IH Hs i)].
Qed.

Lemma all_chars_slice_to (p : ascii -> bool) (n : nat) (s : string) :
  all_chars p s = true -> all_chars p (slice_to n s) = true.
Proof.
  revert s. induction n as [|n IH]; intros [|c s] H; simpl in *; try reflexivity.
  apply andb_true_iff in H. destruct H as [H0 Hs].
  now rewrite H0, IH.
Qed.

Lemma all_chars_sanitize (isalnum_ext : ascii -> bool) (s : string) :
  all_chars (name_char isalnum_ext) (sanitize isalnum_ext s) = true.
Proof.
  induction s as [|c s IH]; simpl; [reflexivity|].
  rewrite IH, andb_true_r. unfold name_char.
  fold (rewritten isalnum_ext c). now rewrite rewritten_allowed.
Qed.

Lemma all_chars_uint (isalnum_ext : ascii -> bool) (d : Decimal.uint) :
  all_chars (name_char isalnum_ext) (NilEmpty.string_of_uint d) = true.
Proof. induction d; simpl; assumption || reflexivity. Qed.

Lemma all_chars_str (isalnum_ext : ascii -> bool) (z : Z) :
  all_chars (name_char isalnum_ext) (str z) = true.
Proof.
  unfold str.
  assert (H : forall d, all_chars (name_char isalnum_ext) (NilZero.string_of_uint d)
                        = true).
  { intros d. destruct d; try apply all_chars_uint. reflexivity. }
  destruct (Z.to_int z); simpl; [apply H|]. now rewrite H.
Qed.

(** X10.  The name of a workbook is made of characters that line 276 keeps
    (alphanumeric, space, hyphen, underscore) and of the dot of ".xlsx",
    whatever the label of the menu: in particular it holds no slash and no
    backslash, so the workbook is written in the output directory itself. *)
Theorem filename_characters (isalnum_ext : ascii -> bool) (self : analyzer)
    (menu_cod : Z) :
  all_chars (name_char isalnum_ext) (filename isalnum_ext self menu_cod) = true
  /\ (forall i c,
        String.get i (filename isalnum_ext self menu_cod) = Some c ->
        c <> "/"%char /\ c <> "\"%char).
Proof.
  assert (H : all_chars (name_char isalnum_ext) (filename isalnum_ext self menu_cod)
              = true).
  { unfold filename, menu_name.
    rewrite !all_chars_append, all_chars_str.
    destruct (filter (fun r => RMenu.cod_menu r =? menu_cod) (df_menu self))
      as [|r rest].
    - rewrite all_chars_append, all_chars_str. reflexivity.
    - rewrite all_chars_slice_to by apply all_chars_sanitize. reflexivity. }
  split; [exact H|].
  intros i c Hget. pose proof (all_chars_get _ _ H i c Hget) as Hc.
  split; intros E; subst c; discriminate Hc.
Qed.

(** ** The path of a menu and the path of its parent *)

Lemma hierarchy_loop_path (menu : list RMenu.row) (fuel : nat) :
  forall (read : bool) (path : list string) (current : option Z),
    hierarchy_loop fuel menu read path current
    = option_map (fun segs => (segs ++ path)%list)
        (hierarchy_loop fuel menu read [] current).
Proof.
  induction fuel as [|fuel IH]; intros read path current; simpl; [reflexivity|].
  destruct current as [c|]; [|reflexivity].
  destruct (c =? 0); [reflexivity|].
  destruct (filter (fun r => RMenu.cod_menu r =? c) menu) as [|r rest];
    [reflexivity|].
  rewrite (IH true (_ :: path)), (IH true [_]).
  destruct (hierarchy_loop fuel menu true [] (RMenu.cod_pere r)) as [segs|]; simpl;
    [|reflexivity].
  now rewrite <- app_assoc.
Qed.

(** In a table where no parent is missing, a code read from the table is
    written as the argument of the method is. *)
Lemma hierarchy_loop_int (menu : list RMenu.row) (fuel : nat) :
  missing_parent menu = false ->
  forall (read : bool) (path : list string) (current : option Z),
    hierarchy_loop fuel menu read path current
    = hierarchy_loop fuel menu false path current.
Proof.
  intros Hint.
  induction fuel as [|fuel IH]; intros read path current; simpl; [reflexivity|].
  destruct current as [c|]; [|reflexivity].
  destruct (c =? 0); [reflexivity|].
  destruct (filter (fun r => RMenu.cod_menu r =? c) menu) as [|r rest];
    [reflexivity|].
  unfold render. now rewrite Hint, andb_false_r.
Qed.

Lemma concat_snoc (sep : string) (l : list string) (x : string) :
  l <> [] ->
  String.concat sep (l ++ [x]) = (String.concat sep l ++ sep ++ x)%string.
Proof.
  induction l as [|y l IH]; intros Hne; [congruence|].
  destruct l as [|z l].
  - reflexivity.
  - change (String.concat sep ((y :: z :: l) ++ [x]))
      with (y ++ sep ++ String.concat sep ((z :: l) ++ [x]))%string.
    rewrite IH by discriminate.
    change (String.concat sep (y :: z :: l))
      with (y ++ sep ++ String.concat sep (z :: l))%string.
    now rewrite !string_app_assoc.
Qed.

Lemma hierarchy_loop_nonempty (menu : list RMenu.row) (fuel : nat) (read : bool)
    (p : Z) (segs : list string) :
  p <> 0 -> filter (fun r => RMenu.cod_menu r =? p) menu <> [] ->
  hierarchy_loop fuel menu read [] (Some p) = Some segs -> segs <> [].
Proof.
  intros Hp Hrow H. destruct fuel as [|fuel]; simpl in H; [discriminate|].
  apply Z.eqb_neq in Hp. rewrite Hp in H.
  destruct (filter (fun r => RMenu.cod_menu r =? p) menu) as [|r rest];
    [congruence|].
  rewrite hierarchy_loop_path in H.
  destruct (hierarchy_loop fuel menu true [] (RMenu.cod_pere r)) as [l|]; simpl in H;
    [|discriminate].
  injection H as H. subst segs. intros E. now apply app_eq_nil in E.
Qed.



(** ** The rows of a converted table *)

Lemma od_set_fresh (k : string) (v : value) (d : ordered_dict) :
  ~ In k (map fst d) -> od_set k v d = (d ++ [(k, v)])%list.
Proof.
  induction d as [|[k' v'] d IH]; simpl; intros H; [reflexivity|].
  destruct (String.eqb_spec k k') as [E|E]; [exfalso; apply H; now left|].
  rewrite IH; [reflexivity|]. intros Hin. apply H. now right.
Qed.

Lemma OrderedDict_distinct (items : list (string * value)) :
  NoDup (map fst items) -> OrderedDict items = items.
Proof.
  unfold OrderedDict.
  assert (H : forall d, NoDup (map fst d ++ map fst items)%list ->
              fold_left (fun d kv => od_set (fst kv) (snd kv) d) items d
              = (d ++ items)%list).
  { induction items as [|[k v] items IH]; intros d Hnd; simpl.
    - now rewrite app_nil_r.
    - rewrite od_set_fresh.
      + rewrite IH; [now rewrite <- app_assoc|].
        rewrite map_app, <- app_assoc. exact Hnd.
      + simpl in Hnd. apply NoDup_remove_2 in Hnd. intros Hin. apply Hnd.
        apply in_or_app. now left. }
  intros Hnd. apply (H []). exact Hnd.
Qed.

Lemma od_get_map {I : Type} (f : I -> string) (g : I -> value) (l : list I) (i : I) :
  NoDup (map f l) -> In i l ->
  od_get (f i) (map (fun i => (f i, g i)) l) = Some (g i).
Proof.
  induction l as [|x l IH]; intros Hnd Hin; [destruct Hin|].
  simpl in Hnd. inversion Hnd as [|? ? Hnotin Hnd']; subst. simpl.
  destruct (String.eqb_spec (f i) (f x)) as [E|E].
  - destruct Hin as [Hin|Hin]; [now subst|].
    exfalso. apply Hnotin. rewrite <- E. now apply in_map.
  - destruct Hin as [Hin|Hin]; [subst; congruence|]. now apply IH.
Qed.

Lemma names_by_rank (names : list string) :
  map (fun j => nth j names "") (seq 0 (List.length names)) = names.
Proof. exact (nth_seq_map "" [] names). Qed.

(** The cell of a record for the field of rank [j]. *)
Lemma cell_of_record (names : list string) (cells : list value) (j : nat) :
  NoDup names -> (j < List.length names)%nat ->
  cell_of (nth j names "") (OrderedDict (record_items names cells))
  = nth j cells VNone.
Proof.
  intros Hnd Hj.
  rewrite OrderedDict_distinct by (rewrite record_items_keys; exact Hnd).
  unfold cell_of, record_items.
  rewrite (od_get_map (fun i => nth i names "") (fun i => nth i cells VNone)).
  - reflexivity.
  - rewrite names_by_rank. exact Hnd.
  - apply in_seq. lia.
Qed.

Lemma stored_kept (cells : list value) (v : value) :
  (float64_column cells = true -> forallb is_float cells = true) ->
  In v cells -> stored cells v = v.
Proof.
  intros Hk Hv. unfold stored.
  destruct (float64_column cells); [|reflexivity].
  specialize (Hk eq_refl). rewrite forallb_forall in Hk.
  specialize (Hk v Hv). now destruct v.
Qed.

(** X12.  The rows of a converted table, when the field names are distinct
    and there is a field: the frame has one row per record, in order, and
    the row holds each cell of the record as its column stores it.  A column
    of numbers with a float, or with an integer and a blank, is stored as
    float64: its integers become floats and its blanks NaN.  The other
    columns keep their cells.  So a table is converted without a change
    exactly when every float64 column holds floats only, each record having
    one cell per field.  A table without fields loses its records: the frame
    has no row. *)
Theorem convert_dbf_to_df_rows (lower : string -> string) (dbf : DBF) :
  (NoDup (fields dbf) -> fields dbf <> [] -> int64_cells dbf ->
   df_rows (convert_dbf_to_df lower dbf) = map (stored_row dbf) (records dbf)
   /\ ((forall cells, In cells (records dbf) ->
                      List.length cells = List.length (fields dbf)) ->
       (columns_kept dbf <-> df_rows (convert_dbf_to_df lower dbf) = records dbf)))
  /\ (fields dbf = [] -> df_rows (convert_dbf_to_df lower dbf) = []).
Proof.
  split.
  - intros Hnd Hne _.
    assert (Hk : keys_of (fields dbf) = fields dbf)
      by (apply (fold_add_key_NoDup (fields dbf) []); exact Hnd).
    assert (Hrows : df_rows (DataFrame_of (iter dbf))
                    = map (stored_row dbf) (records dbf)).
    { unfold DataFrame_of. cbn [df_rows].
      change (fold_left _ (iter dbf) [])
        with (df_columns (DataFrame_of (iter dbf))).
      rewrite DataFrame_of_iter_columns.
      destruct (records dbf) as [|cells0 rest] eqn:Er;
        [unfold iter; rewrite Er; reflexivity|].
      rewrite Hk, <- Er. unfold iter at 2. rewrite map_map.
      apply map_ext. intros cells. unfold stored_row.
      rewrite <- (names_by_rank (fields dbf)) at 1. rewrite map_map.
      apply map_ext_in. intros j Hj. apply in_seq in Hj.
      rewrite cell_of_record by (try assumption; lia).
      f_equal. unfold iter, column_cells. rewrite map_map.
      apply map_ext. intros cells'. apply cell_of_record; [assumption | lia]. }
    assert (E : df_rows (convert_dbf_to_df lower dbf)
                = map (stored_row dbf) (records dbf)).
    { unfold convert_dbf_to_df. cbv zeta. unfold df_empty.
      rewrite DataFrame_of_iter_columns, Hrows.
      destruct (records dbf) as [|cells rest] eqn:Er; [reflexivity|].
      rewrite Hk. destruct (fields dbf) as [|f fs]; [congruence|]. reflexivity. }
    split; [exact E|].
    intros Hlen. rewrite E. split.
    + intros Hkept. rewrite <- (map_id (records dbf)) at 2.
      apply map_ext_in. intros cells Hcells. unfold stored_row.
      rewrite <- (Hlen cells Hcells).
      transitivity (map (fun j => nth j cells VNone) (seq 0 (List.length cells)));
        [|exact (nth_seq_map VNone [] cells)].
      apply map_ext. intros j. apply stored_kept; [apply Hkept|].
      unfold column_cells. apply in_map_iff. now exists cells.
    + intros Erows j Hfloat. apply forallb_forall. intros v Hv.
      unfold column_cells in Hv. apply in_map_iff in Hv.
      destruct Hv as [cells [Ev Hcells]]. subst v.
      destruct (Nat.lt_ge_cases j (List.length (fields dbf))) as [Hj|Hj].
      * assert (Hrow : stored_row dbf cells = cells).
        { apply (f_equal (fun rows => nth_error rows)) in Erows.
          apply In_nth_error in Hcells. destruct Hcells as [n Hn].
          assert (Hn' := f_equal (fun F => F n) Erows). cbv beta in Hn'.
          rewrite nth_error_map, Hn in Hn'. now injection Hn'. }
        apply (f_equal (fun row => nth j row VNone)) in Hrow.
        unfold stored_row in Hrow.
        rewrite (nth_indep _ VNone
                   (stored (column_cells dbf 0) (nth 0 cells VNone))) in Hrow
          by (rewrite length_map, length_seq; exact Hj).
        rewrite (map_nth (fun j => stored (column_cells dbf j) (nth j cells VNone)))
          in Hrow.
        rewrite seq_nth in Hrow by exact Hj. cbn [Nat.add] in Hrow.
        unfold stored in Hrow. rewrite Hfloat in Hrow.
        assert (Hnum : is_int (nth j cells VNone) || is_float (nth j cells VNone)
                       || is_none (nth j cells VNone) = true).
        { unfold float64_column in Hfloat. apply andb_true_iff in Hfloat.
          destruct Hfloat as [Hall _]. rewrite forallb_forall in Hall.
          apply Hall. unfold column_cells. apply in_map_iff. now exists cells. }
        destruct (nth j cells VNone); try discriminate Hrow; try discriminate Hnum;
          reflexivity.
      * exfalso. clear Erows.
        assert (Hall : forall cells', In cells' (records dbf) ->
                         nth j cells' VNone = VNone).
        { intros cells' Hc'. apply nth_overflow. rewrite (Hlen cells' Hc'). exact Hj. }
        unfold float64_column in Hfloat. apply andb_true_iff in Hfloat.
        destruct Hfloat as [_ Hfloat]. apply orb_true_iff in Hfloat.
        assert (Hno : forall p, (forall v, p v = true -> v <> VNone) ->
                        existsb p (column_cells dbf j) = false).
        { intros p Hp. apply not_true_is_false. intros Hex.
          apply existsb_exists in Hex. destruct Hex as [v [Hv Hpv]].
          unfold column_cells in Hv. apply in_map_iff in Hv.
          destruct Hv as [cells' [Ev Hc']]. rewrite (Hall cells' Hc') in Ev.
          subst v. now apply (Hp VNone). }
        destruct Hfloat as [Hf|Hf].
        -- rewrite Hno in Hf; [discriminate|]. intros v Hv Ev. now subst v.
        -- apply andb_true_iff in Hf. destruct Hf as [Hf _].
           rewrite Hno in Hf; [discriminate|]. intros v Hv Ev. now subst v.
  - intros Hf. unfold convert_dbf_to_df. cbv zeta. unfold df_empty.
    rewrite DataFrame_of_iter_columns, Hf.
    destruct (records dbf); unfold keys_of; cbn [fold_left empty];
      rewrite orb_true_r; reflexivity.
Qed.

Lemma menu_dbf_int64 : int64_cells menu_dbf.
Proof.
  intros cells z Hcells Hz. simpl in Hcells.
  destruct Hcells as [E|[E|[E|[]]]]; subst cells; simpl in Hz;
    repeat (destruct Hz as [Hz|Hz]; [try discriminate Hz; injection Hz as <-; lia|]);
    destruct Hz.
Defined.

(** The menu table whose root has a blank parent: the parent column is
    stored as float64, the two other columns keep their cells. *)
Lemma convert_dbf_to_df_rows_menu :
  df_rows (convert_dbf_to_df lower_ascii menu_dbf)
  = [ [ VInt 0; VStr "ROOT"; VFloat nan ];
      [ VInt 1; VStr "A"; VFloat 0 ];
      [ VInt 2; VStr "B"; VFloat 1 ] ].
Proof.
  destruct (convert_dbf_to_df_rows lower_ascii menu_dbf) as [H _].
  destruct H as [H _].
  - simpl. repeat constructor; simpl; intuition discriminate.
  - discriminate.
  - exact menu_dbf_int64.
  - rewrite H. reflexivity.
Defined.

(** ** The reports of the price table analysis *)

Section Reports.
Variable lower : string -> string.
Variable statistics : DataFrame -> outcome unit.
Variable grille_stats : DataFrame -> outcome string.
Variable top_expensive : nat -> DataFrame -> outcome string.
Variable acte_stats : DataFrame -> outcome (string * string).
Variable modifs_par_an : DataFrame -> outcome (DataFrame * string).
Variable csv_of : DataFrame -> string.

Local Abbreviation run :=
  (run_full_analysis lower statistics grille_stats top_expensive acte_stats
     modifs_par_an csv_of).

(** X13.  Whatever the statistics do, [run_full_analysis] writes its reports
    in one fixed order and stops at the first exception: the files written
    are the first [k] of the six reports, inside the output directory, and
    all six exactly when the run returns.  Reports written before an
    exception stay on disk; the DBF files and the directories are left as
    they were. *)
Theorem reports_written_in_order (self : PUBase.t) (w : world) :
  exists k : nat,
    map fst (written (snd (run self w)))
    = (map fst (written w)
       ++ map (path_join (PUBase.output_dir self)) (firstn k reports))%list
    /\ (fst (run self w) = Ok tt <-> k = 6%nat)
    /\ dbf_files (snd (run self w)) = dbf_files w
    /\ directories (snd (run self w)) = directories w.
Proof.
  unfold run_full_analysis, load_data, print_statistics, analyze_by_grille,
    top_actes_by_price, analyze_by_acte, analyze_temporal, export_full_data,
    frame, read_dbf, bindM, exists_, lift, ret, raise, to_csv.
  cbn [PUBase.pu_base_path PUBase.df PUBase.output_dir dbf_files written directories
         negb fst snd].
  destruct (dbf_files w (PUBase.pu_base_path self)) as [dbf|] eqn:Hf;
    cbn [negb PUBase.df PUBase.output_dir dbf_files written directories fst snd].
  2:{ exists 0%nat. cbn [firstn map]. rewrite app_nil_r.
      repeat split; discriminate. }
  rewrite Hf. cbn [PUBase.df PUBase.output_dir dbf_files written directories fst snd].
  set (df := convert_dbf_to_df lower dbf).
  destruct (statistics df) as [[]|e];
    cbn [PUBase.df PUBase.output_dir dbf_files written directories fst snd].
  2:{ exists 0%nat. cbn [firstn map]. rewrite app_nil_r.
      repeat split; discriminate. }
  destruct (grille_stats df) as [s1|e];
    cbn [PUBase.df PUBase.output_dir dbf_files written directories fst snd].
  2:{ exists 0%nat. cbn [firstn map]. rewrite app_nil_r.
      repeat split; discriminate. }
  destruct (top_expensive 20 df) as [s2|e];
    cbn [PUBase.df PUBase.output_dir dbf_files written directories fst snd].
  2:{ exists 1%nat. rewrite map_app. repeat split; discriminate. }
  destruct (acte_stats df) as [[s3 s4]|e];
    cbn [PUBase.df PUBase.output_dir dbf_files written directories fst snd].
  2:{ exists 2%nat. rewrite !map_app, <- !app_assoc. repeat split; discriminate. }
  destruct (modifs_par_an df) as [[df' s5]|e];
    cbn [PUBase.df PUBase.output_dir dbf_files written directories fst snd].
  2:{ exists 4%nat. rewrite !map_app, <- !app_assoc. repeat split; discriminate. }
  exists 6%nat. rewrite !map_app, <- !app_assoc. repeat split.
Qed.
End Reports.

(** ** The cache of pickles *)

Lemma path_eqb_eq (p q : path) : path_eqb p q = true <-> p = q.
Proof.
  revert q. induction p as [|c p IH]; intros [|c' q]; simpl;
    try (split; [discriminate | discriminate]); [tauto|].
  rewrite andb_true_iff, String.eqb_eq, IH. split.
  - intros [E1 E2]. now subst.
  - intros E. injection E as E1 E2. now split.
Qed.

Lemma path_eqb_refl (p : path) : path_eqb p p = true.
Proof. now apply path_eqb_eq. Qed.

Lemma path_eqb_neq (p q : path) : p <> q -> path_eqb p q = false.
Proof.
  intros H. destruct (path_eqb p q) eqn:E; [|reflexivity].
  apply path_eqb_eq in E. contradiction.
Qed.

Section PickleFacts.
Variable lower : string -> string.
Variable parse_dbf : string -> option DBF.
Variable dumps : DataFrame -> string.

Local Abbreviation save := (convert_and_save lower parse_dbf dumps).

Lemma save_cases (dbf_path output_dir : path) (d : disk) :
  save dbf_path output_dir d = d
  \/ (exists df,
        path_exists d (div output_dir (stem dbf_path ++ ".pkl")%string) = false
        /\ read_frame lower parse_dbf d dbf_path = Some df
        /\ is_dir d output_dir = true
        /\ save dbf_path output_dir d
           = mk_disk (dirs d)
               ((div output_dir (stem dbf_path ++ ".pkl")%string, dumps df) :: files d)).
Proof.
  unfold convert_and_save. cbv zeta.
  destruct (path_exists d _) eqn:Ex; [now left|].
  destruct (read_frame lower parse_dbf d dbf_path) as [df|]; [|now left].
  destruct (is_dir d output_dir) eqn:Ed; [|now left].
  right. exists df. repeat split.
Qed.

(** X14.  [convert_and_save] touches at most one path, the pickle of its
    table, and only to create it: the directories and every file that was on
    the disk are as before, a pickle that is already there is kept whatever
    the DBF file holds now, and a second call changes nothing more.  When the
    pickle is missing, the DBF file converts and the output directory is
    there, the pickle holds the converted table. *)
Theorem convert_and_save_creates_only (dbf_path output_dir : path) (d : disk) :
  let output_file := div output_dir (stem dbf_path ++ ".pkl")%string in
  let d' := save dbf_path output_dir d in
  dirs d' = dirs d
  /\ (forall p bytes, lookup p (files d) = Some bytes ->
                      lookup p (files d') = Some bytes)
  /\ (forall p, p <> output_file -> lookup p (files d') = lookup p (files d))
  /\ (path_exists d output_file = true -> d' = d)
  /\ save dbf_path output_dir d' = d'
  /\ (forall df,
        path_exists d output_file = false ->
        read_frame lower parse_dbf d dbf_path = Some df ->
        is_dir d output_dir = true ->
        lookup output_file (files d') = Some (dumps df)).
Proof.
  cbv zeta.
  destruct (save_cases dbf_path output_dir d) as [E|[df [Hex [Hread [Hdir E]]]]].
  - rewrite E. split; [reflexivity|]. split; [auto|]. split; [reflexivity|].
    split; [reflexivity|]. split; [exact E|].
    intros df Hex Hread Hdir. exfalso.
    unfold convert_and_save in E. cbv zeta in E. rewrite Hex, Hread, Hdir in E.
    assert (Hlen : List.length (files d) = S (List.length (files d)))
      by (rewrite <- E at 1; reflexivity).
    lia.
  - rewrite E. cbn [dirs files]. split; [reflexivity|]. split; [|split; [|split; [|split]]].
    + intros p bytes Hp. cbn [lookup].
      destruct (path_eqb p _) eqn:Ep; [|exact Hp].
      apply path_eqb_eq in Ep. subst p. exfalso.
      unfold path_exists, is_file in Hex. rewrite Hp in Hex.
      now rewrite orb_true_r in Hex.
    + intros p Hp. cbn [lookup]. now rewrite (path_eqb_neq _ _ Hp).
    + intros H. congruence.
    + unfold convert_and_save. cbv zeta.
      unfold path_exists at 1, is_file. cbn [files lookup].
      rewrite path_eqb_refl. now rewrite orb_true_r.
    + intros df' _ Hread' _. cbn [lookup]. rewrite path_eqb_refl. congruence.
Qed.
End PickleFacts.

(** The price table of the sample disk is pickled; a second call keeps the
    pickle. *)
Lemma convert_and_save_creates_only_sample :
  lookup [ "ccam"; "data"; "pickle"; "R_PU_BASE.pkl" ]
    (files (convert_and_save lower_ascii sample_parse (fun _ => "pickle")
              [ "ccam"; "data"; "ccam_v79.10"; "R_PU_BASE.dbf" ]
              [ "ccam"; "data" ] sample_disk))
  = None
  /\ lookup [ "ccam"; "data"; "R_PU_BASE.pkl" ]
       (files (convert_and_save lower_ascii sample_parse (fun _ => "pickle")
                 [ "ccam"; "data"; "ccam_v79.10"; "R_PU_BASE.dbf" ]
                 [ "ccam"; "data" ] sample_disk))
     = Some "pickle".
Proof.
  pose proof (convert_and_save_creates_only lower_ascii sample_parse
                (fun _ => "pickle")
                [ "ccam"; "data"; "ccam_v79.10"; "R_PU_BASE.dbf" ]
                [ "ccam"; "data" ] sample_disk) as H.
  cbv zeta in H. destruct H as [_ [_ [Hother [_ [_ Hnew]]]]].
  split.
  - rewrite Hother; [reflexivity | discriminate].
  - apply (Hnew (convert_dbf_to_df lower_ascii one_record_dbf)); reflexivity.
Defined.

Section PickleMain.
Variable lower : string -> string.
Variable parse_dbf : string -> option DBF.
Variable dumps : DataFrame -> string.
Variable here : path.

Local Abbreviation data_path := (div (div here "data") "ccam_v79.10").
Local Abbreviation output_dir := (div (div here "data") "pickle").
Local Abbreviation step := (convert_table lower parse_dbf dumps data_path output_dir).
Local Abbreviation is_settled := (settled lower parse_dbf data_path output_dir).

Lemma pickle_not_dbf (a b : string) : div output_dir a <> div data_path b.
Proof.
  unfold div. rewrite <- !app_assoc. intros E. apply app_inv_head in E.
  discriminate E.
Qed.

Lemma pickle_not_output_dir (a : string) : div output_dir a <> output_dir.
Proof.
  intros E. apply (f_equal (@List.length string)) in E.
  unfold div in E. rewrite !length_app in E. simpl in E. lia.
Qed.

Lemma step_cases (d : disk) (t : string) :
  (step d t = d /\ is_settled d t)
  \/ (exists df,
        path_exists d (div data_path (t ++ ".dbf")%string) = true
        /\ path_exists d
             (div output_dir (stem (div data_path (t ++ ".dbf")%string) ++ ".pkl")%string)
           = false
        /\ read_frame lower parse_dbf d (div data_path (t ++ ".dbf")%string) = Some df
        /\ is_dir d output_dir = true
        /\ step d t
           = mk_disk (dirs d)
               ((div output_dir
                   (stem (div data_path (t ++ ".dbf")%string) ++ ".pkl")%string,
                 dumps df) :: files d)).
Proof.
  unfold convert_table, settled. cbv zeta.
  destruct (path_exists d (div data_path (t ++ ".dbf")%string)) eqn:Edbf; cbn [negb].
  2:{ left. split; [reflexivity | now left]. }
  destruct (save_cases lower parse_dbf dumps (div data_path (t ++ ".dbf")%string)
              output_dir d) as [E|[df [Hex [Hread [Hdir E]]]]].
  - left. split; [exact E|].
    unfold convert_and_save in E. cbv zeta in E.
    destruct (path_exists d (div output_dir _)) eqn:Ex; [right; now left|].
    destruct (read_frame lower parse_dbf d _) as [df|] eqn:Er;
      [|right; right; now left].
    destruct (is_dir d output_dir) eqn:Ed; [|right; right; now right].
    exfalso.
    assert (Hlen : List.length (files d) = S (List.length (files d)))
      by (rewrite <- E at 1; reflexivity).
    lia.
  - right. exists df. repeat split; assumption.
Qed.

Lemma step_dirs (d : disk) (t : string) : dirs (step d t) = dirs d.
Proof.
  destruct (step_cases d t) as [[E _]|[df [_ [_ [_ [_ E]]]]]]; now rewrite E.
Qed.

Lemma step_keeps (d : disk) (t : string) (p : path) (bytes : string) :
  lookup p (files d) = Some bytes -> lookup p (files (step d t)) = Some bytes.
Proof.
  intros Hp.
  destruct (step_cases d t) as [[E _]|[df [_ [Hex [_ [_ E]]]]]]; rewrite E;
    [exact Hp|].
  cbn [files lookup]. destruct (path_eqb p _) eqn:Ep; [|exact Hp].
  apply path_eqb_eq in Ep. subst p. exfalso.
  unfold path_exists, is_file in Hex. rewrite Hp in Hex.
  now rewrite orb_true_r in Hex.
Qed.

(** A step changes no file outside the output directory. *)
Lemma step_elsewhere (d : disk) (t : string) (p : path) :
  (forall a, p <> div output_dir a) ->
  lookup p (files (step d t)) = lookup p (files d).
Proof.
  intros Hp.
  destruct (step_cases d t) as [[E _]|[df [_ [_ [_ [_ E]]]]]]; rewrite E;
    [reflexivity|].
  cbn [files lookup]. now rewrite (path_eqb_neq _ _ (Hp _)).
Qed.

Lemma step_exists_mono (d : disk) (t : string) (p : path) :
  path_exists d p = true -> path_exists (step d t) p = true.
Proof.
  unfold path_exists, is_dir, is_file. rewrite step_dirs.
  intros H. apply orb_true_iff in H. destruct H as [H|H]; [now rewrite H|].
  destruct (lookup p (files d)) as [bytes|] eqn:E; [|discriminate].
  rewrite (step_keeps d t p bytes E). now rewrite orb_true_r.
Qed.

Lemma step_dbf_same (d : disk) (t t' : string) :
  path_exists (step d t') (div data_path (t ++ ".dbf")%string)
  = path_exists d (div data_path (t ++ ".dbf")%string)
  /\ read_frame lower parse_dbf (step d t') (div data_path (t ++ ".dbf")%string)
     = read_frame lower parse_dbf d (div data_path (t ++ ".dbf")%string).
Proof.
  assert (E : lookup (div data_path (t ++ ".dbf")%string) (files (step d t'))
              = lookup (div data_path (t ++ ".dbf")%string) (files d)).
  { apply step_elsewhere. intros a Ea. symmetry in Ea.
    exact (pickle_not_dbf _ _ Ea). }
  unfold path_exists, is_dir, is_file, read_frame. rewrite step_dirs, E.
  now split.
Qed.

Lemma settled_preserved (d : disk) (t t' : string) :
  is_settled d t -> is_settled (step d t') t.
Proof.
  unfold settled. cbv zeta. destruct (step_dbf_same d t t') as [E1 E2].
  rewrite E1, E2. unfold is_dir at 2. rewrite step_dirs. fold (is_dir d output_dir).
  intros [H|[H|[H|H]]]; [now left | | now right; right; left | now right; right; right].
  right. left. now apply step_exists_mono.
Qed.

Lemma settled_after (d : disk) (t : string) : is_settled (step d t) t.
Proof.
  destruct (step_cases d t) as [[E H]|[df [_ [_ [_ [_ E]]]]]]; rewrite E;
    [exact H|].
  unfold settled. cbv zeta. right. left.
  unfold path_exists, is_file. cbn [files lookup].
  rewrite path_eqb_refl. apply orb_true_r.
Qed.

Lemma settled_step (d : disk) (t : string) : is_settled d t -> step d t = d.
Proof.
  intros H. destruct (step_cases d t) as [[E _]|[df [H1 [H2 [H3 [H4 _]]]]]];
    [exact E|].
  unfold settled in H. cbv zeta in H.
  destruct H as [H|[H|[H|H]]]; congruence.
Qed.

Lemma fold_settled (l : list string) :
  forall d t, In t l -> is_settled (fold_left step l d) t.
Proof.
  assert (Hpres : forall l d t, is_settled d t -> is_settled (fold_left step l d) t).
  { intros l0. induction l0 as [|t0 l0 IH]; intros d t H; simpl; [exact H|].
    apply IH. now apply settled_preserved. }
  induction l as [|t0 l IH]; intros d t Hin; [destruct Hin|].
  simpl. destruct Hin as [E|Hin].
  - subst t0. apply Hpres. apply settled_after.
  - now apply IH.
Qed.

Lemma fold_fixed (l : list string) (d : disk) :
  (forall t, In t l -> is_settled d t) -> fold_left step l d = d.
Proof.
  induction l as [|t l IH]; intros H; simpl; [reflexivity|].
  rewrite settled_step by (apply H; now left).
  apply IH. intros t' Ht'. apply H. now right.
Qed.

Lemma fold_dirs (l : list string) (d : disk) : dirs (fold_left step l d) = dirs d.
Proof.
  revert d. induction l as [|t l IH]; intros d; simpl; [reflexivity|].
  now rewrite IH, step_dirs.
Qed.

Lemma fold_keeps (l : list string) (d : disk) (p : path) (bytes : string) :
  lookup p (files d) = Some bytes ->
  lookup p (files (fold_left step l d)) = Some bytes.
Proof.
  revert d. induction l as [|t l IH]; intros d H; simpl; [exact H|].
  apply IH. now apply step_keeps.
Qed.

Lemma fold_elsewhere (l : list string) (d : disk) (p : path) :
  (forall a, p <> div output_dir a) ->
  lookup p (files (fold_left step l d)) = lookup p (files d).
Proof.
  intros Hp. revert d. induction l as [|t l IH]; intros d; simpl; [reflexivity|].
  now rewrite IH, step_elsewhere.
Qed.

(** X15.  [main] is idempotent: run on the disk that a first run has left, it
    returns that disk unchanged; no pickle is written twice. *)
Theorem main_pickle_idempotent (d d' : disk) :
  main_pickle lower parse_dbf dumps here d = inr d' ->
  main_pickle lower parse_dbf dumps here d' = inr d'.
Proof.
  unfold main_pickle. cbv zeta.
  destruct (mkdir_exist_ok output_dir d) as [e|d0] eqn:Em; [discriminate|].
  intros E0.
  assert (E := f_equal (fun x : oserror + disk =>
                          match x with inr y => y | inl _ => d' end) E0).
  cbv beta iota in E. clear E0.
  assert (Hdir : is_dir d' output_dir = true).
  { subst d'. unfold is_dir. rewrite fold_dirs.
    unfold mkdir_exist_ok in Em.
    destruct (is_dir d output_dir) eqn:Ed.
    - injection Em as Em. now subst d0.
    - destruct (is_file d output_dir); [discriminate|].
      destruct (is_dir d (parent output_dir)); [|discriminate].
      injection Em as Em. subst d0. cbn [dirs existsb].
      now rewrite path_eqb_refl. }
  unfold mkdir_exist_ok. rewrite Hdir. f_equal.
  apply fold_fixed. intros t Ht. rewrite <- E. now apply fold_settled.
Qed.
Lemma string_length_append (a b : string) :
  String.length (a ++ b) = (String.length a + String.length b)%nat.
Proof. induction a as [|c a IH]; simpl; [reflexivity | now rewrite IH]. Qed.

Lemma append_inj_r (a b x : string) : (a ++ x = b ++ x)%string -> a = b.
Proof.
  revert b. induction a as [|c a IH]; intros [|c' b] E; simpl in E.
  - reflexivity.
  - apply (f_equal String.length) in E. simpl in E.
    rewrite string_length_append in E. lia.
  - apply (f_equal String.length) in E. simpl in E.
    rewrite string_length_append in E. lia.
  - injection E as Ec E. subst c'. f_equal. now apply IH.
Qed.

Lemma stem_div (p : path) (c : string) : stem (div p c) = stem [c].
Proof. unfold stem, name, div. now rewrite last_last. Qed.

Lemma stem_table (t : string) :
  In t tables_needed -> stem (div data_path (t ++ ".dbf")%string) = t.
Proof.
  intros H. rewrite stem_div. unfold tables_needed in H. simpl in H.
  destruct H as [E|[E|[E|[E|[E|[E|[E|[]]]]]]]]; subst t; reflexivity.
Qed.

(** A table of the list whose DBF file converts and whose pickle is missing
    gets its pickle, whatever the other tables of the list are. *)
Lemma fold_complete (t : string) (bytes : string) (dbf : DBF) (l : list string) :
  forall d,
    In t l ->
    (forall t', In t' l -> stem (div data_path (t' ++ ".dbf")%string) = t') ->
    is_dir d output_dir = true ->
    lookup (div data_path (t ++ ".dbf")%string) (files d) = Some bytes ->
    parse_dbf bytes = Some dbf ->
    path_exists d (div output_dir (t ++ ".pkl")%string) = false ->
    lookup (div output_dir (t ++ ".pkl")%string) (files (fold_left step l d))
    = Some (dumps (convert_dbf_to_df lower dbf)).
Proof.
  induction l as [|t0 l IH]; intros d Hin Hstem Hdir Hdbf Hparse Hout;
    [destruct Hin|].
  simpl. destruct (String.eqb_spec t0 t) as [E|E].
  - subst t0. apply fold_keeps.
    destruct (step_cases d t) as [[_ Hs]|[df [_ [_ [Hread [_ Es]]]]]].
    + exfalso. unfold settled in Hs. cbv zeta in Hs.
      rewrite (Hstem t (or_introl eq_refl)) in Hs.
      unfold read_frame in Hs. rewrite Hdbf, Hparse in Hs.
      unfold path_exists at 1, is_file in Hs. rewrite Hdbf, orb_true_r in Hs.
      destruct Hs as [H|[H|[H|H]]]; try discriminate; congruence.
    + rewrite Es, (Hstem t (or_introl eq_refl)). cbn [files lookup].
      rewrite path_eqb_refl. unfold read_frame in Hread.
      rewrite Hdbf, Hparse in Hread. simpl in Hread. congruence.
  - destruct Hin as [Hin|Hin]; [contradiction|].
    apply IH; try assumption.
    + intros t' Ht'. apply Hstem. now right.
    + unfold is_dir. rewrite step_dirs. exact Hdir.
    + now apply step_keeps.
    + assert (Hne : div output_dir (t ++ ".pkl")%string
                    <> div output_dir
                         (stem (div data_path (t0 ++ ".dbf")%string) ++ ".pkl")%string).
      { rewrite (Hstem t0 (or_introl eq_refl)). unfold div. intros Eq.
        apply app_inv_head in Eq. injection Eq as Eq.
        apply append_inj_r in Eq. congruence. }
      destruct (step_cases d t0) as [[Es _]|[df [_ [_ [_ [_ Es]]]]]]; rewrite Es;
        [exact Hout|].
      unfold path_exists, is_dir, is_file in *. cbn [dirs files lookup].
      now rewrite (path_eqb_neq _ _ Hne).
Qed.

(** X16.  When the directory [data] is there and no file is named [pickle]
    in it, [main] returns.  It keeps every file that was on the disk, changes
    nothing outside the pickle directory, and leaves a pickle of the
    converted table for each of the seven tables whose DBF file converts and
    whose pickle was missing.  When neither [data/pickle] nor [data] is a
    directory, [main] fails on [mkdir] before it reads any table. *)
Theorem main_pickle_converts (d : disk) :
  (is_dir d (div here "data") = true ->
   is_file d output_dir = false ->
   exists d',
     main_pickle lower parse_dbf dumps here d = inr d'
     /\ (forall p bytes, lookup p (files d) = Some bytes ->
                         lookup p (files d') = Some bytes)
     /\ (forall p, (forall a, p <> div output_dir a) ->
                   lookup p (files d') = lookup p (files d))
     /\ (forall t bytes dbf,
           In t tables_needed ->
           lookup (div data_path (t ++ ".dbf")%string) (files d) = Some bytes ->
           parse_dbf bytes = Some dbf ->
           path_exists d (div output_dir (t ++ ".pkl")%string) = false ->
           lookup (div output_dir (t ++ ".pkl")%string) (files d')
           = Some (dumps (convert_dbf_to_df lower dbf))))
  /\ (is_dir d output_dir = false ->
      is_dir d (div here "data") = false ->
      is_file d output_dir = false ->
      main_pickle lower parse_dbf dumps here d = inl ENOENT).
Proof.
  assert (Hparent : parent output_dir = div here "data")
    by (unfold parent, div; apply removelast_last).
  split.
  - intros Hdata Hfile.
    assert (Hmk : exists d0,
               mkdir_exist_ok output_dir d = inr d0
               /\ files d0 = files d
               /\ is_dir d0 output_dir = true
               /\ (forall a, is_dir d0 (div output_dir a) = is_dir d (div output_dir a))).
    { unfold mkdir_exist_ok. destruct (is_dir d output_dir) eqn:Ed.
      - exists d. repeat split. exact Ed.
      - rewrite Hfile, Hparent, Hdata. eexists. split; [reflexivity|].
        split; [reflexivity|]. split.
        + unfold is_dir. cbn [dirs existsb]. now rewrite path_eqb_refl.
        + intros a. unfold is_dir. cbn [dirs existsb].
          now rewrite (path_eqb_neq _ _ (pickle_not_output_dir a)). }
    destruct Hmk as [d0 [Hmk [Hfiles [Hdir0 Hsub]]]].
    unfold main_pickle. cbv zeta. rewrite Hmk. eexists. split; [reflexivity|].
    split; [|split].
    + intros p bytes Hp. apply fold_keeps. now rewrite Hfiles.
    + intros p Hp. rewrite fold_elsewhere by exact Hp. now rewrite Hfiles.
    + intros t bytes dbf Hin Hdbf Hparse Hout.
      apply (fold_complete t bytes dbf tables_needed d0); try assumption.
      * intros t' Ht'. now apply stem_table.
      * now rewrite Hfiles.
      * unfold path_exists in *. rewrite Hsub. unfold is_file in *.
        now rewrite Hfiles.
  - intros Hout Hdata Hfile. unfold main_pickle, mkdir_exist_ok. cbv zeta.
    now rewrite Hout, Hfile, Hparent, Hdata.
Qed.
End PickleMain.

(** A second run on the sample disk. *)
Lemma main_pickle_idempotent_sample :
  exists d',
    main_pickle lower_ascii sample_parse (fun _ => "pickle") [ "ccam" ] sample_disk
    = inr d'
    /\ main_pickle lower_ascii sample_parse (fun _ => "pickle") [ "ccam" ] d' = inr d'.
Proof.
  destruct (main_pickle lower_ascii sample_parse (fun _ => "pickle") [ "ccam" ]
              sample_disk) as [e|d'] eqn:E; [discriminate E|].
  exists d'. split; [reflexivity|].
  exact (main_pickle_idempotent lower_ascii sample_parse (fun _ => "pickle")
           [ "ccam" ] sample_disk d' E).
Defined.

(** On the sample disk the price table gets its pickle and the menu table,
    whose bytes do not parse, gets none. *)
Lemma main_pickle_converts_sample :
  exists d',
    main_pickle lower_ascii sample_parse (fun _ => "pickle") [ "ccam" ] sample_disk
    = inr d'
    /\ lookup [ "ccam"; "data"; "pickle"; "R_PU_BASE.pkl" ] (files d') = Some "pickle".
Proof.
  destruct (main_pickle_converts lower_ascii sample_parse (fun _ => "pickle")
              [ "ccam" ] sample_disk) as [H _].
  destruct H as [d' [E [_ [_ H]]]]; [reflexivity | reflexivity |].
  exists d'. split; [exact E|].
  apply (H "R_PU_BASE" "prices" one_record_dbf); try reflexivity.
  simpl. tauto.
Defined.

(** ** The names and labels of a record *)

(** X17.  After [merge_tables] and [apply_filters], every record of a frame
    carries the names of an act of the act table that has the code of the
    record and belongs to the menu, and its grid label is the label of a row
    of the grid table for the grid of the record, or is missing when the
    grid table has no row for that grid: a record never shows the label of
    another grid. *)
Theorem record_names_and_labels (self : analyzer) (menu : Z) (records : list Evo.t) :
  analyze_price_evolution_for_menu (filtered self) menu = Ok (Some records) ->
  forall rec, In rec records ->
    (exists a,
        In a (df_acte self)
        /\ RActe.cod_acte a = Evo.cod_acte rec
        /\ RActe.menu_cod a = menu
        /\ Evo.nom_court rec = RActe.nom_court a
        /\ Evo.nom_long rec = RActe.nom_long a)
    /\ match Evo.grille_libelle rec with
       | Some lib =>
           exists g, In g (df_grille self)
                     /\ RGrille.cod_grille g = Evo.grille_cod rec
                     /\ RGrille.libelle g = lib
       | None =>
           forall g, In g (df_grille self) ->
                     RGrille.cod_grille g <> Evo.grille_cod rec
       end.
Proof.
  intros H rec Hrec. apply analyze_inv in H. destruct H as [_ Hb].
  rewrite Forall_forall in Hb. specialize (Hb rec Hrec).
  apply built_in_series in Hb.
  destruct Hb as [info [rest [first [tl [init [last [libelle Hb]]]]]]].
  destruct Hb as [Hinfo [_ [_ [Hlib Hrec']]]].
  assert (Hin : In info (rows_of_acte (filtered self) menu (Evo.cod_acte rec)))
    by (rewrite Hinfo; now left).
  unfold rows_of_acte in Hin. apply filter_In in Hin. destruct Hin as [Hin Hkeys].
  apply andb_true_iff in Hkeys. destruct Hkeys as [Hm Ha].
  apply Z.eqb_eq in Hm. apply String.eqb_eq in Ha.
  unfold filtered in Hin. rewrite apply_filters_merged in Hin.
  apply filter_In in Hin. destruct Hin as [Hin _].
  destruct (merged_row_origin self info Hin) as [b [m [a [g [Einfo [Hl [_ [_ Hg]]]]]]]].
  split.
  - exists (b_acte b). destruct Hl as [_ [Hacte _]].
    rewrite Hrec'. cbn [record_of Evo.nom_court Evo.nom_long Evo.cod_acte].
    rewrite <- Ha, <- Hm, Einfo. repeat split; assumption.
  - rewrite Hrec'. cbn [record_of Evo.grille_libelle Evo.grille_cod].
    unfold libelle_of_grille in Hlib.
    destruct (Z.eqb_spec (Evo.grille_cod rec) (grille_cod info)) as [Eg|Eg].
    + injection Hlib as Hlib. subst libelle. rewrite Eg.
      rewrite Einfo in Hg |- *. unfold merged_of, columns in Hg |- *.
      cbn [fst snd grille_libelle grille_cod] in Hg |- *.
      unfold looked_up in Hg. destruct g as [g0|]; cbn [option_map].
      * exists g0. destruct Hg as [Hg1 Hg2]. repeat split; assumption.
      * exact Hg.
    + change (df_grille (filtered self)) with (df_grille self) in Hlib.
      destruct (filter (fun g0 => RGrille.cod_grille g0 =? Evo.grille_cod rec)
                  (df_grille self)) as [|g0 gs] eqn:Ef; [discriminate Hlib|].
      cbn [iloc0 bind] in Hlib. injection Hlib as Hlib. subst libelle.
      assert (Hg0 : In g0 (filter (fun g0 => RGrille.cod_grille g0 =? Evo.grille_cod rec)
                             (df_grille self))) by (rewrite Ef; now left).
      apply filter_In in Hg0. destruct Hg0 as [Hg0 Eg0]. apply Z.eqb_eq in Eg0.
      exists g0. repeat split; assumption.
Qed.

End Analysis.

(* ================================================================== *)
(** * Examples

    The properties of the analysis, applied to sample tables with the sort
    by insertion. *)

(** The act of [two_grids] on grid 4. *)
Lemma price_evolution_record_two_grids :
  exists records rec,
    analyze_price_evolution_for_menu insertion_sort two_grids 2 = Ok (Some records)
    /\ of_pair "100" 4 records = [rec]
    /\ Evo.nb_modifications rec = 2%nat.
Proof.
  destruct (price_evolution_record insertion_sort insertion_sort_perm
              insertion_sort_sorted) as [H _].
  destruct (H two_grids 2 "100" 4) as [records [rec [sorted [first [tl [init [last H']]]]]]].
  - simpl. tauto.
  - vm_compute. discriminate.
  - apply grids_known_labels_found, two_grids_known.
  - exists records, rec.
    destruct H' as [H1 [H2 [_ [_ [_ [_ [_ [_ [_ [_ [_ H12]]]]]]]]]]].
    split; [assumption|]. split; [assumption|].
    rewrite H12. reflexivity.
Defined.

(** On [two_grids] the series of grid 3 starts at price 0 and ends at 15:
    its percentage is 0. *)
Lemma zero_first_price_pct_two_grids :
  exists records rec,
    analyze_price_evolution_for_menu insertion_sort two_grids 2 = Ok (Some records)
    /\ nth_error records 0 = Some rec
    /\ Evo.prix_actuel rec = 15%float
    /\ Evo.evolution_pct rec = 0%float.
Proof.
  destruct (analyze_price_evolution_for_menu insertion_sort two_grids 2)
    as [[records|]|e] eqn:E; try discriminate E.
  destruct records as [|rec records]; [discriminate E|].
  exists (rec :: records), rec.
  split; [reflexivity|]. split; [reflexivity|].
  destruct (zero_first_price_pct insertion_sort insertion_sort_perm two_grids 2)
    as [_ [H _]].
  destruct (H (rec :: records) E rec (or_introl eq_refl)) as [Hz _].
  injection E as E1 E2. subst rec. split; [reflexivity|].
  apply Hz. reflexivity.
Defined.

(** On [two_grids] the first row of the act is of activity 1, its rows on
    grid 3 are of activity 2: both records carry activity 1. *)
Lemma acte_fields_from_first_row_two_grids :
  exists rec3 rec4,
    analyze_price_evolution_for_menu insertion_sort two_grids 2
    = Ok (Some [rec3; rec4])
    /\ Evo.grille_cod rec3 = 3 /\ Evo.grille_cod rec4 = 4
    /\ Evo.activite rec3 = Evo.activite rec4.
Proof.
  destruct (analyze_price_evolution_for_menu insertion_sort two_grids 2)
    as [[records|]|e] eqn:E; try discriminate E.
  destruct records as [|rec3 [|rec4 [|rec5 records]]]; try discriminate E.
  exists rec3, rec4. split; [reflexivity|].
  destruct (acte_fields_from_first_row insertion_sort insertion_sort_perm
              two_grids 2 [rec3; rec4] E) as [_ H].
  injection E as E3 E4. subst rec3 rec4.
  split; [reflexivity|]. split; [reflexivity|].
  apply H; simpl; tauto.
Defined.

(** The two pairs of [two_grids], in the order of the filter list. *)
Lemma frame_pairs_two_grids :
  exists records,
    analyze_price_evolution_for_menu insertion_sort two_grids 2 = Ok (Some records)
    /\ map key records = [("100", 3); ("100", 4)].
Proof.
  destruct (analyze_price_evolution_for_menu insertion_sort two_grids 2)
    as [[records|]|e] eqn:E; try discriminate E.
  exists records. split; [reflexivity|].
  destruct (frame_pairs insertion_sort insertion_sort_perm two_grids 2 records E)
    as [H _].
  rewrite H. reflexivity.
Defined.

(** On [two_grids] the four rows are counted in the two records. *)
Lemma nb_modifications_total_two_grids :
  exists records,
    analyze_price_evolution_for_menu insertion_sort two_grids 2 = Ok (Some records)
    /\ list_sum (map Evo.nb_modifications records) = 4%nat.
Proof.
  destruct (analyze_price_evolution_for_menu insertion_sort two_grids 2)
    as [[records|]|e] eqn:E; try discriminate E.
  exists records. split; [reflexivity|].
  rewrite (nb_modifications_total insertion_sort insertion_sort_perm
             two_grids 2 records E).
  reflexivity.
Defined.

(** The first record of [two_grids]: two modifications, 2020 then 2022. *)
Lemma record_ends_two_grids :
  exists records rec,
    analyze_price_evolution_for_menu insertion_sort two_grids 2 = Ok (Some records)
    /\ In rec records
    /\ date_le (Evo.date_premiere_modif rec) (Evo.date_derniere_modif rec) = true.
Proof.
  destruct (analyze_price_evolution_for_menu insertion_sort two_grids 2)
    as [[records|]|e] eqn:E; try discriminate E.
  destruct records as [|rec records]; [discriminate E|].
  exists (rec :: records), rec. split; [reflexivity|]. split; [now left|].
  destruct (record_ends insertion_sort insertion_sort_perm insertion_sort_sorted
              two_grids 2 (rec :: records) E rec (or_introl eq_refl))
    as [_ [H _]].
  exact H.
Defined.

(** On the sample tables with the six grids: one menu, one workbook. *)
Lemma run_writes_one_workbook_per_menu_sample :
  map fst (snd (run_after_load insertion_sort (fun _ => false) sample_six_grids))
  = [ "2_B.xlsx" ].
Proof.
  destruct (run_writes_one_workbook_per_menu insertion_sort insertion_sort_perm
              (fun _ => false) sample_six_grids)
    as [_ [E _]].
  - intros menu _. apply filter_grids_known_labels.
    intros grille Hg. unfold grilles_filter in Hg. simpl in Hg.
    destruct Hg as [E|[E|[E|[E|[E|[E|[]]]]]]]; subst grille;
      [ exists (RGrille.mk 3 "Grille 3") | exists (RGrille.mk 4 "Grille 4")
      | exists (RGrille.mk 5 "Grille 5") | exists (RGrille.mk 7 "Grille 7")
      | exists (RGrille.mk 17 "Grille 17") | exists (RGrille.mk 18 "Grille 18") ];
      simpl; tauto.
  - rewrite E. reflexivity.
Defined.

(** On [three_menus] the menus are 1, 2 and 3 in this order.  The analysis
    of menu 1 gives a frame, and its workbook is written; the analysis of
    menu 2 raises, for want of grid 3 in the grid table; the run raises,
    the workbook of menu 1 stays, and menu 3 has no workbook. *)
Lemma run_stops_at_first_failure_three_menus :
  group_by_menu (filtered three_menus) = [1; 2; 3]
  /\ (exists rec,
        analyze_price_evolution_for_menu insertion_sort (filtered three_menus) 1
        = Ok (Some [rec]))
  /\ (exists rec,
        analyze_price_evolution_for_menu insertion_sort (filtered three_menus) 3
        = Ok (Some [rec]))
  /\ run_after_load insertion_sort (fun _ => false) three_menus
     = (Raise (IndexError "single positional indexer is out-of-bounds"),
        [ ("1_A.xlsx", frame_of_menu insertion_sort (filtered three_menus) 1) ]).
Proof.
  split; [reflexivity|].
  split; [eexists; reflexivity|].
  split; [eexists; reflexivity|].
  apply (run_stops_at_first_failure insertion_sort insertion_sort_perm
           (fun _ => false) three_menus [1] [3] 2).
  - reflexivity.
  - intros x [<-|[]]. eexists. reflexivity.
  - reflexivity.
Defined.

(** The record of the scenario carries the name X and the label of grid 3. *)
Lemma record_names_and_labels_sample :
  exists records rec,
    analyze_price_evolution_for_menu insertion_sort (filtered sample) 2
    = Ok (Some records)
    /\ In rec records
    /\ exists a, In a (df_acte sample) /\ Evo.nom_court rec = RActe.nom_court a.
Proof.
  destruct (analyze_price_evolution_for_menu insertion_sort (filtered sample) 2)
    as [[records|]|e] eqn:E; try discriminate E.
  destruct records as [|rec records]; [discriminate E|].
  exists (rec :: records), rec. split; [reflexivity|]. split; [now left|].
  destruct (record_names_and_labels insertion_sort insertion_sort_perm sample 2
              (rec :: records) E rec (or_introl eq_refl)) as [[a [Ha [_ [_ [Hn _]]]]] _].
  exists a. now split.
Defined.
